(** * Quote retrieval pipeline of the new-tab page (scripts/quotes.js)

    A shallow embedding of the quote cache and of the retrieval pipeline of
    [scripts/quotes.js]: staleness detection ([needsDataFetch]), language
    targeting ([getTargetLanguage]), the provider fallback chain
    ([fetchAlternativeQuote]), cache persistence in [localStorage]
    ([storeQuotesData], [storeNoDataInfo], [getStoredQuotes],
    [clearOtherLanguageQuotes], [clearQuotesStorage]) and the top-level
    [getQuotesForLanguage] with its nested failure handlers; then the
    presenter: [displayRandomQuote], [displayFallbackQuote],
    [loadAndDisplayQuote] and the listeners installed on
    [DOMContentLoaded].

    The specification calls these functions [needsRefresh],
    [resolveTarget], [fetchAnyAlternative], [put], [putNoData], [get],
    [purgeExcept] and [purgeAll]; the definitions keep the names of the
    source.

    Conventions of the model.
    - [localStorage] is a finite map from strings to strings; [setItem]
      of a string always succeeds (no storage quota), and the conversion
      of its argument to a string is a step of its own before it.
    - Values returned by [response.json()] and [JSON.parse] are JSON trees
      ([json]); the JavaScript value [undefined] is [None] in [jsval].
    - A string is the UTF-8 text of the JavaScript string, so a string
      with a surrogate that has no partner is outside the model; its
      [length] counts UTF-16 code units.
    - The numbers of JSON values are integers ([JNum z]); a JSON text that
      holds a fraction or an exponent, or an escaped surrogate, is outside
      the values of the model, and the model's [JSON_parse] rejects it. An
      integer is printed as JavaScript prints the double nearest to it, and
      compared as it is: against the integers of the script (0, 100, 140)
      the double nearest to it compares the same way.
    - An object is the list of its properties as they were written;
      [JSON_stringify] writes them in this order.
    - What a conversion makes of a string is a [number]: [NaN], an
      infinity or the exact value of a double. A conversion that throws a
      [TypeError] in JavaScript (an object with an own [toString]) gives
      [None].
    - [await] is sequencing: one call of the pipeline runs to completion.
      Exceptions are the [Throw] results of the monad [M]; what a callee
      wrote to the store before it threw stays written.
    - The network, the clock, the date codec, [navigator.onLine],
      [Math.random] and the global [currentLanguage] are the fields of the
      host record [env]; the requests a computation issues are logged in
      the state. *)

From Stdlib Require Import ZArith NArith String Ascii List Bool Lia.
From Stdlib Require Import DecimalString DecimalN DecimalFacts.
From stdpp Require Import base option gmap strings.

Local Open Scope string_scope.
Local Open Scope Z_scope.

(** ** Strings *)

(** [key.startsWith(p)] *)
Definition startsWith (p key : string) : bool := String.prefix p key.

(** [key.includes(p)]: [p] occurs somewhere in [key]. *)
Fixpoint includes (p key : string) : bool :=
  match key with
  | EmptyString => String.prefix p EmptyString
  | String _ rest => String.prefix p key || includes p rest
  end.

(** Removes [p] from the front of [s] when it is there. *)
Fixpoint strip_prefix (p s : string) : option string :=
  match p, s with
  | EmptyString, _ => Some s
  | String a p', String b s' => if Ascii.eqb a b then strip_prefix p' s' else None
  | String _ _, EmptyString => None
  end.

Definition code (c : ascii) : N := N_of_ascii c.

Definition is_digit (c : ascii) : bool := (48 <=? code c)%N && (code c <=? 57)%N.

(** A byte that continues a UTF-8 sequence. *)
Definition is_continuation (c : ascii) : bool := (128 <=? code c)%N && (code c <? 192)%N.

(** The three bytes of a code unit from U+0800 on (a surrogate included). *)
Definition three_bytes (u : N) : string :=
  String (ascii_of_N (224 + u / 4096))
    (String (ascii_of_N (128 + (u / 64) mod 64))
       (String (ascii_of_N (128 + u mod 64)) EmptyString)).

(** The UTF-16 code units of a string, each as a string of its own: a
    sequence of one, two or three bytes is one unit, a sequence of four
    bytes is the two surrogates of its code point. *)
Fixpoint utf16_units (s : string) : list string :=
  match s with
  | EmptyString => nil
  | String c rest =>
      let single := String c EmptyString :: utf16_units rest in
      if (code c <? 192)%N then single
      else
        match rest with
        | String d rest1 =>
            if negb (is_continuation d) then single
            else if (code c <? 224)%N then
              String c (String d EmptyString) :: utf16_units rest1
            else
              match rest1 with
              | String f rest2 =>
                  if negb (is_continuation f) then single
                  else if (code c <? 240)%N then
                    String c (String d (String f EmptyString)) :: utf16_units rest2
                  else
                    match rest2 with
                    | String g rest3 =>
                        if negb (is_continuation g) then single
                        else
                          let cp := ((((code c mod 8) * 64 + code d mod 64) * 64
                                      + code f mod 64) * 64 + code g mod 64)%N in
                          let v := (cp - 65536)%N in
                          three_bytes (55296 + v / 1024)
                          :: three_bytes (56320 + v mod 1024)
                          :: utf16_units rest3
                    | EmptyString => single
                    end
              | EmptyString => single
              end
        | EmptyString => single
        end
  end.

(** [s.length] *)
Definition utf16_length (s : string) : nat := length (utf16_units s).

(** ** Decimal numerals *)

Definition digit_cons (c : ascii) : option (Decimal.uint -> Decimal.uint) :=
  match code c with
  | 48%N => Some Decimal.D0 | 49%N => Some Decimal.D1 | 50%N => Some Decimal.D2
  | 51%N => Some Decimal.D3 | 52%N => Some Decimal.D4 | 53%N => Some Decimal.D5
  | 54%N => Some Decimal.D6 | 55%N => Some Decimal.D7 | 56%N => Some Decimal.D8
  | 57%N => Some Decimal.D9
  | _ => None
  end.

(** The longest prefix of decimal digits, and what follows it. *)
Fixpoint read_uint (s : string) : Decimal.uint * string :=
  match s with
  | EmptyString => (Decimal.Nil, EmptyString)
  | String c rest =>
      match digit_cons c with
      | Some d => let '(u, rest') := read_uint rest in (d u, rest')
      | None => (Decimal.Nil, s)
      end
  end.

Definition dec_of_N (n : N) : string := NilEmpty.string_of_uint (N.to_uint n).

(** [String(z)] / [z.toString()] for an integer number. *)
Definition dec_of_Z (z : Z) : string :=
  if z <? 0 then String "-" (dec_of_N (Z.abs_N z)) else dec_of_N (Z.to_N z).

(** A string that does not go on with a digit. *)
Definition no_digit_ahead (k : string) : Prop :=
  match k with
  | EmptyString => True
  | String c _ => digit_cons c = None
  end.

(** ** [parseInt] *)

(** The white space and the line terminators of one byte. *)
Definition is_js_space (c : ascii) : bool :=
  match code c with
  | 9%N | 10%N | 11%N | 12%N | 13%N | 32%N => true
  | _ => false
  end.

(** Those of three bytes: U+1680, U+2000 to U+200A, U+2028, U+2029,
    U+202F, U+205F, U+3000 and U+FEFF. *)
Definition wide_space (a b c : N) : bool :=
  ((a =? 225) && (b =? 154) && (c =? 128))%N
  || ((a =? 226) && (b =? 128)
      && (((128 <=? c) && (c <=? 138)) || (c =? 168) || (c =? 169) || (c =? 175)))%N
  || ((a =? 226) && (b =? 129) && (c =? 159))%N
  || ((a =? 227) && (b =? 128) && (c =? 128))%N
  || ((a =? 239) && (b =? 187) && (c =? 191))%N.

(** [s] without the white space and the line terminators at its front
    (U+00A0 is the one of two bytes). *)
Fixpoint trim_start (s : string) : string :=
  match s with
  | EmptyString => EmptyString
  | String c rest =>
      if is_js_space c then trim_start rest
      else
        match rest with
        | String d rest1 =>
            if ((code c =? 194) && (code d =? 160))%N then trim_start rest1
            else
              match rest1 with
              | String f rest2 =>
                  if wide_space (code c) (code d) (code f) then trim_start rest2 else s
              | EmptyString => s
              end
        | EmptyString => s
        end
  end.

Definition all_space (s : string) : bool := String.eqb (trim_start s) EmptyString.

Definition hex_val (c : ascii) : option N :=
  let n := code c in
  if (48 <=? n)%N && (n <=? 57)%N then Some (n - 48)%N
  else if (97 <=? n)%N && (n <=? 102)%N then Some (n - 87)%N
  else if (65 <=? n)%N && (n <=? 70)%N then Some (n - 55)%N
  else None.

(** Value of the longest prefix of hexadecimal digits; [None] without one. *)
Fixpoint read_hex (s : string) (acc : option N) : option N :=
  match s with
  | String c rest =>
      match hex_val c with
      | Some d => read_hex rest (Some (16 * default 0%N acc + d)%N)
      | None => acc
      end
  | EmptyString => acc
  end.

Definition read_decimal (s : string) : option N :=
  match read_uint s with
  | (Decimal.Nil, _) => None
  | (u, _) => Some (N.of_uint u)
  end.

(** Digits after the sign: a [0x]/[0X] prefix selects radix 16. *)
Definition parse_magnitude (s : string) : option N :=
  match s with
  | String z (String x rest) =>
      if Ascii.eqb z "0" && (Ascii.eqb x "x" || Ascii.eqb x "X")
      then read_hex rest None
      else read_decimal s
  | _ => read_decimal s
  end.

(** [parseInt(s)] without a radix; [None] is [NaN]. The value is the
    integer that is read; the script compares it with 0 and 100 only,
    where the rounding to a double makes no difference. *)
Definition parseInt (s : string) : option Z :=
  match trim_start s with
  | String c rest =>
      if Ascii.eqb c "-" then (fun n => - Z.of_N n) <$> parse_magnitude rest
      else if Ascii.eqb c "+" then Z.of_N <$> parse_magnitude rest
      else Z.of_N <$> parse_magnitude (String c rest)
  | EmptyString => None
  end.

(** ** Numbers *)

(** A number as the script compares it: [NaN], an infinity, or a finite
    number by its exact value [m * 2 ^ q]. An integer [z] is [Finite z 0]. *)
Inductive number : Type :=
  | NaN
  | Finite (m q : Z)
  | Infinite (negative : bool).

(** [a / b] rounded to the nearest integer, a tie to the even one, for
    [0 <= a] and [0 < b]. *)
Definition nearest_even (a b : Z) : Z :=
  let q := a / b in
  let r := a mod b in
  if 2 * r <? b then q
  else if b <? 2 * r then q + 1
  else if Z.even q then q else q + 1.

(** The double nearest to [a / b], for [0 < b]: 53 bits above the exponent
    -1074, an infinity from 2^1024 on. *)
Definition round64 (a b : Z) : number :=
  if a =? 0 then Finite 0 0
  else
    let n := Z.abs a in
    let E0 := Z.log2 n - Z.log2 b in
    let below := if 0 <=? E0 then n <? b * 2 ^ E0 else n * 2 ^ (- E0) <? b in
    let E := if below then E0 - 1 else E0 in
    let q := Z.max (E - 52) (-1074) in
    let m := if 0 <=? q then nearest_even n (b * 2 ^ q)
             else nearest_even (n * 2 ^ (- q)) b in
    if (0 <=? q) && (2 ^ 1024 <=? m * 2 ^ q) then Infinite (a <? 0)
    else Finite (if a <? 0 then - m else m) q.

(** The two mantissas over the smaller of the two exponents. *)
Definition aligned (m1 q1 m2 q2 : Z) : Z * Z :=
  let c := Z.min q1 q2 in (m1 * 2 ^ (q1 - c), m2 * 2 ^ (q2 - c)).

(** [x <= y] and [x < y] *)
Definition num_leb (x y : number) : bool :=
  match x, y with
  | NaN, _ => false
  | _, NaN => false
  | Infinite true, _ => true
  | _, Infinite false => true
  | Infinite false, _ => false
  | _, Infinite true => false
  | Finite m1 q1, Finite m2 q2 => let '(a, b) := aligned m1 q1 m2 q2 in a <=? b
  end.

Definition num_ltb (x y : number) : bool :=
  match x, y with
  | NaN, _ => false
  | _, NaN => false
  | Infinite true, Infinite true => false
  | Infinite true, _ => true
  | Infinite false, _ => false
  | _, Infinite false => true
  | _, Infinite true => false
  | Finite m1 q1, Finite m2 q2 => let '(a, b) := aligned m1 q1 m2 q2 in a <? b
  end.

Definition num_eqb (x y : number) : bool := num_leb x y && num_leb y x.

(** [x + y]. An integer sum is kept as it is: the double nearest to it
    compares with the integers of the script as the sum itself does. *)
Definition num_add (x y : number) : number :=
  match x, y with
  | NaN, _ => NaN
  | _, NaN => NaN
  | Infinite a, Infinite b => if Bool.eqb a b then Infinite a else NaN
  | Infinite a, _ => Infinite a
  | _, Infinite b => Infinite b
  | Finite m1 q1, Finite m2 q2 =>
      let c := Z.min q1 q2 in
      let sum := m1 * 2 ^ (q1 - c) + m2 * 2 ^ (q2 - c) in
      if 0 <=? c then Finite (sum * 2 ^ c) 0 else round64 sum (2 ^ (- c))
  end.

(** *** [StringToNumber] *)

(** The decimal digits at the front of [s]: their value on top of [acc],
    their number on top of [count], and what follows. *)
Fixpoint read_digits (s : string) (acc : N) (count : nat) : N * nat * string :=
  match s with
  | String c rest =>
      if is_digit c then read_digits rest (10 * acc + (code c - 48))%N (S count)
      else (acc, count, s)
  | EmptyString => (acc, count, s)
  end.

Fixpoint read_radix (radix : N) (s : string) (acc : N) (count : nat) : N * nat * string :=
  match s with
  | String c rest =>
      match hex_val c with
      | Some d => if (d <? radix)%N then read_radix radix rest (radix * acc + d)%N (S count)
                  else (acc, count, s)
      | None => (acc, count, s)
      end
  | EmptyString => (acc, count, s)
  end.

(** The double nearest to [M * 10 ^ e10], with its sign. *)
Definition of_decimal (negative : bool) (M : N) (e10 : Z) : number :=
  let m := if negative then - Z.of_N M else Z.of_N M in
  if 0 <=? e10 then round64 (m * 10 ^ e10) 1 else round64 m (10 ^ (- e10)).

(** A literal with the prefix [0x], [0o] or [0b]. *)
Definition radix_literal (s : string) : option (N * string) :=
  match s with
  | String z (String x rest) =>
      if Ascii.eqb z "0" then
        let radix := if Ascii.eqb x "x" || Ascii.eqb x "X" then 16%N
                     else if Ascii.eqb x "o" || Ascii.eqb x "O" then 8%N
                     else if Ascii.eqb x "b" || Ascii.eqb x "B" then 2%N
                     else 0%N in
        if (radix =? 0)%N then None
        else
          let '(v, count, k) := read_radix radix rest 0%N O in
          match count with
          | O => None
          | S _ => Some (v, k)
          end
      else None
  | _ => None
  end.

(** The exponent part at the front of [s], when there is one. *)
Definition exponent_part (s : string) : Z * string :=
  match s with
  | String e s1 =>
      if Ascii.eqb e "e" || Ascii.eqb e "E" then
        let '(negative, s2) :=
          match s1 with
          | String sign s2 =>
              if Ascii.eqb sign "-" then (true, s2)
              else if Ascii.eqb sign "+" then (false, s2)
              else (false, s1)
          | EmptyString => (false, s1)
          end in
        let '(v, count, k) := read_digits s2 0%N O in
        match count with
        | O => (0, s)
        | S _ => (if negative then - Z.of_N v else Z.of_N v, k)
        end
      else (0, s)
  | EmptyString => (0, s)
  end.

(** An unsigned decimal literal other than [Infinity]: its digits as one
    natural number, its decimal exponent and what follows. *)
Definition unsigned_decimal (s : string) : option (N * Z * string) :=
  let '(i, ni, s1) := read_digits s 0%N O in
  let '(M, nf, s2) :=
    match s1 with
    | String dot s1' =>
        if Ascii.eqb dot "." then read_digits s1' i O else (i, O, s1)
    | EmptyString => (i, O, s1)
    end in
  match ni, nf with
  | O, O => None
  | _, _ =>
      let '(x, k) := exponent_part s2 in
      Some (M, x - Z.of_nat nf, k)
  end.

(** [Number(s)]: white space around a literal with a radix prefix, a
    signed [Infinity] or a signed decimal literal with an optional
    fraction and exponent; white space alone is 0, anything else [NaN]. *)
Definition StringToNumber (s : string) : number :=
  let finish (x : number) (k : string) : number := if all_space k then x else NaN in
  match trim_start s with
  | EmptyString => Finite 0 0
  | String c rest as t =>
      match radix_literal t with
      | Some (v, k) => finish (round64 (Z.of_N v) 1) k
      | None =>
          let '(negative, u) :=
            if Ascii.eqb c "-" then (true, rest)
            else if Ascii.eqb c "+" then (false, rest)
            else (false, t) in
          match strip_prefix "Infinity" u with
          | Some k => finish (Infinite negative) k
          | None =>
              match unsigned_decimal u with
              | Some (M, x, k) => finish (of_decimal negative M x) k
              | None => NaN
              end
          end
      end
  end.

(** *** [Number.prototype.toString] on integers *)

(** An integer that is a double whatever its value: up to 2^53. *)
Definition safe (z : Z) : bool := Z.abs z <=? 2 ^ 53.

(** Number of decimal digits of a positive integer. *)
Definition decimal_digits (v : Z) : Z := Z.of_nat (String.length (dec_of_Z v)).

(** The decimal [s * p] with the fewest digits that reads back as the
    double [d], whose value [V] has [n] digits: [k] digits are tried, then
    [k + 1], and of two candidates the one nearer to [V] is taken. *)
Fixpoint shortest (d : number) (V n : Z) (k : Z) (fuel : nat) : Z * Z :=
  match fuel with
  | O => (V, 1)
  | S fuel' =>
      if n <=? k then (V, 1)
      else
        let p := 10 ^ (n - k) in
        let lo := V / p in
        let hi := lo + 1 in
        let ok (x : Z) := num_eqb (round64 (x * p) 1) d in
        if ok lo && ok hi then
          (if V - lo * p <? hi * p - V then lo
           else if hi * p - V <? V - lo * p then hi
           else if Z.even lo then lo else hi, p)
        else if ok lo then (lo, p)
        else if ok hi then (hi, p)
        else shortest d V n (k + 1) fuel'
  end.

Fixpoint drop_zeros (s : Z) (fuel : nat) : Z :=
  match fuel with
  | O => s
  | S f => if (s mod 10 =? 0) && negb (s =? 0) then drop_zeros (s / 10) f else s
  end.

(** The text of the double nearest to an integer beyond 2^53: its shortest
    digits, with zeros up to 21 digits and with an exponent above. *)
Definition big_text (z : Z) : string :=
  match round64 z 1 with
  | NaN => "NaN"
  | Infinite true => "-Infinity"
  | Infinite false => "Infinity"
  | Finite m q =>
      let V := Z.abs m * 2 ^ q in
      let '(s, p) := shortest (Finite (Z.abs m) q) V (decimal_digits V) 1 17 in
      let value := s * p in
      let n := decimal_digits value in
      let sign := if z <? 0 then "-" else EmptyString in
      if n <=? 21 then sign ++ dec_of_Z value
      else
        match dec_of_Z (drop_zeros s 400) with
        | String first EmptyString =>
            sign ++ String first ("e+" ++ dec_of_Z (n - 1))
        | String first more =>
            sign ++ String first (String "." more) ++ "e+" ++ dec_of_Z (n - 1)
        | EmptyString => EmptyString
        end
  end.

(** [String(z)] / [z.toString()] for the number [z]. *)
Definition number_text (z : Z) : string := if safe z then dec_of_Z z else big_text z.

(** ** JSON values *)

Unset Elimination Schemes.
Inductive json : Type :=
  | JNull
  | JBool (b : bool)
  | JNum (z : Z)
  | JStr (s : string)
  | JArr (items : list json)
  | JObj (fields : list (string * json)).
Set Elimination Schemes.

(** Induction with the hypothesis on every item of an array and on every
    field value of an object. *)
Definition json_ind (P : json -> Prop)
    (Hnull : P JNull) (Hbool : forall b, P (JBool b))
    (Hnum : forall z, P (JNum z)) (Hstr : forall s, P (JStr s))
    (Harr : forall items, Forall P items -> P (JArr items))
    (Hobj : forall fields, Forall (fun kv => P (snd kv)) fields -> P (JObj fields)) :
    forall j, P j :=
  fix go (j : json) : P j :=
    match j with
    | JNull => Hnull
    | JBool b => Hbool b
    | JNum z => Hnum z
    | JStr s => Hstr s
    | JArr items =>
        Harr items
          ((fix all (l : list json) : Forall P l :=
              match l with
              | nil => @List.Forall_nil _ P
              | cons x l' => @List.Forall_cons _ P x l' (go x) (all l')
              end) items)
    | JObj fields =>
        Hobj fields
          ((fix all (l : list (string * json)) : Forall (fun kv => P (snd kv)) l :=
              match l with
              | nil => @List.Forall_nil _ (fun kv => P (snd kv))
              | cons kv l' => @List.Forall_cons _ (fun kv => P (snd kv)) kv l' (go (snd kv)) (all l')
              end) fields)
    end.

(** A JavaScript value: a JSON value or [undefined]. *)
Definition jsval : Type := option json.
Definition undefined : jsval := None.

(** *** [JSON.stringify] *)

Definition dquote : ascii := ascii_of_N 34.
Definition backslash : ascii := ascii_of_N 92.

Definition hex_char (n : N) : ascii :=
  if (n <? 10)%N then ascii_of_N (48 + n) else ascii_of_N (87 + n).

(** One character of a string literal, in front of [k]. *)
Definition emit_char (c : ascii) (k : string) : string :=
  let n := code c in
  if (n =? 34)%N then String backslash (String dquote k)
  else if (n =? 92)%N then String backslash (String backslash k)
  else if (n =? 8)%N then String backslash (String "b" k)
  else if (n =? 9)%N then String backslash (String "t" k)
  else if (n =? 10)%N then String backslash (String "n" k)
  else if (n =? 12)%N then String backslash (String "f" k)
  else if (n =? 13)%N then String backslash (String "r" k)
  else if (n <? 32)%N then
    String backslash (String "u" (String "0" (String "0"
      (String (hex_char (n / 16)) (String (hex_char (n mod 16)) k)))))
  else String c k.

Fixpoint emit_chars (s : string) (k : string) : string :=
  match s with
  | EmptyString => k
  | String c rest => emit_char c (emit_chars rest k)
  end.

Definition emit_string (s : string) (k : string) : string :=
  String dquote (emit_chars s (String dquote k)).

(** The text of a number: [null] for an infinity. *)
Definition json_number (z : Z) : string :=
  if safe z then dec_of_Z z
  else
    match round64 z 1 with
    | Finite _ _ => big_text z
    | _ => "null"
    end.

(** The compact text of [j], in front of [k]. *)
Fixpoint emit (j : json) (k : string) : string :=
  match j with
  | JNull => "null" ++ k
  | JBool true => "true" ++ k
  | JBool false => "false" ++ k
  | JNum z => json_number z ++ k
  | JStr s => emit_string s k
  | JArr items =>
      String "["
        match items with
        | nil => String "]" k
        | x :: rest =>
            emit x (fold_right (fun y acc => String "," (emit y acc)) (String "]" k) rest)
        end
  | JObj fields =>
      String "{"
        match fields with
        | nil => String "}" k
        | (key, x) :: rest =>
            emit_string key (String ":"
              (emit x (fold_right
                         (fun kv acc =>
                            String "," (emit_string (fst kv) (String ":" (emit (snd kv) acc))))
                         (String "}" k) rest)))
        end
  end.

Definition JSON_stringify (j : json) : string := emit j EmptyString.

(** *** [JSON.parse] *)

Definition is_json_space (c : ascii) : bool :=
  let n := code c in
  (n =? 9)%N || (n =? 10)%N || (n =? 13)%N || (n =? 32)%N.

Fixpoint skip_ws (s : string) : string :=
  match s with
  | String c rest => if is_json_space c then skip_ws rest else s
  | EmptyString => EmptyString
  end.

(** UTF-8 bytes of a code point of the basic plane; surrogates have none. *)
Definition utf8 (cp : N) : option string :=
  if (cp <? 128)%N then Some (String (ascii_of_N cp) EmptyString)
  else if (cp <? 2048)%N then
    Some (String (ascii_of_N (192 + cp / 64))
            (String (ascii_of_N (128 + cp mod 64)) EmptyString))
  else if (55296 <=? cp)%N && (cp <? 57344)%N then None
  else
    Some (String (ascii_of_N (224 + cp / 4096))
            (String (ascii_of_N (128 + (cp / 64) mod 64))
               (String (ascii_of_N (128 + cp mod 64)) EmptyString))).

Definition hex4 (a b c d : ascii) : option string :=
  match hex_val a, hex_val b, hex_val c, hex_val d with
  | Some x, Some y, Some z, Some w => utf8 (((x * 16 + y) * 16 + z) * 16 + w)
  | _, _, _, _ => None
  end.

Definition simple_escape (e : ascii) : option ascii :=
  let n := code e in
  if (n =? 34)%N then Some dquote
  else if (n =? 92)%N then Some backslash
  else if (n =? 47)%N then Some (ascii_of_N 47)
  else if (n =? 98)%N then Some (ascii_of_N 8)
  else if (n =? 116)%N then Some (ascii_of_N 9)
  else if (n =? 110)%N then Some (ascii_of_N 10)
  else if (n =? 102)%N then Some (ascii_of_N 12)
  else if (n =? 114)%N then Some (ascii_of_N 13)
  else None.

Definition prepend (p : string) (r : option (string * string)) : option (string * string) :=
  match r with
  | Some (s, k) => Some (p ++ s, k)
  | None => None
  end.

(** The body of a string literal, after its opening quote. *)
Fixpoint read_string (s : string) : option (string * string) :=
  match s with
  | EmptyString => None
  | String c rest =>
      if (code c =? 34)%N then Some (EmptyString, rest)
      else if (code c =? 92)%N then
        match rest with
        | String e rest1 =>
            match simple_escape e with
            | Some ch => prepend (String ch EmptyString) (read_string rest1)
            | None =>
                if (code e =? 117)%N then
                  match rest1 with
                  | String h1 (String h2 (String h3 (String h4 rest2))) =>
                      match hex4 h1 h2 h3 h4 with
                      | Some bytes => prepend bytes (read_string rest2)
                      | None => None
                      end
                  | _ => None
                  end
                else None
            end
        | EmptyString => None
        end
      else if (code c <? 32)%N then None
      else prepend (String c EmptyString) (read_string rest)
  end.

(** A numeral without a superfluous leading zero. *)
Definition canonical (u : Decimal.uint) : bool :=
  match u with
  | Decimal.Nil => false
  | Decimal.D0 Decimal.Nil => true
  | Decimal.D0 _ => false
  | _ => true
  end.

Definition read_number (s : string) : option (Z * string) :=
  match s with
  | String c rest =>
      if (code c =? 45)%N then
        let '(u, k) := read_uint rest in
        if canonical u then Some (- Z.of_N (N.of_uint u), k) else None
      else
        let '(u, k) := read_uint s in
        if canonical u then Some (Z.of_N (N.of_uint u), k) else None
  | EmptyString => None
  end.

(** Items of an array after its first bracket: [pv] reads one value. *)
Fixpoint read_items (pv : string -> option (json * string)) (n : nat) (s : string)
    : option (list json * string) :=
  match n with
  | O => None
  | S n' =>
      match pv s with
      | Some (x, k) =>
          match skip_ws k with
          | String c k' =>
              if (code c =? 44)%N then
                match read_items pv n' k' with
                | Some (xs, k'') => Some (x :: xs, k'')
                | None => None
                end
              else if (code c =? 93)%N then Some (x :: nil, k')
              else None
          | EmptyString => None
          end
      | None => None
      end
  end.

(** Members of an object after its opening brace. *)
Fixpoint read_members (pv : string -> option (json * string)) (n : nat) (s : string)
    : option (list (string * json) * string) :=
  match n with
  | O => None
  | S n' =>
      match skip_ws s with
      | String q s1 =>
          if (code q =? 34)%N then
            match read_string s1 with
            | Some (key, s2) =>
                match skip_ws s2 with
                | String colon s3 =>
                    if (code colon =? 58)%N then
                      match pv s3 with
                      | Some (x, k) =>
                          match skip_ws k with
                          | String c k' =>
                              if (code c =? 44)%N then
                                match read_members pv n' k' with
                                | Some (xs, k'') => Some ((key, x) :: xs, k'')
                                | None => None
                                end
                              else if (code c =? 125)%N then Some ((key, x) :: nil, k')
                              else None
                          | EmptyString => None
                          end
                      | None => None
                      end
                    else None
                | EmptyString => None
                end
            | None => None
            end
          else None
      | EmptyString => None
      end
  end.

Definition first_is (n : N) (s : string) : option string :=
  match s with
  | String c rest => if (code c =? n)%N then Some rest else None
  | EmptyString => None
  end.

(** One JSON value at the front of [s]; [fuel] bounds the nesting and the
    number of items of a container. *)
Fixpoint parse_value (fuel : nat) (s : string) : option (json * string) :=
  match fuel with
  | O => None
  | S f =>
      match skip_ws s with
      | EmptyString => None
      | String c rest as t =>
          if (code c =? 91)%N then
            match first_is 93 (skip_ws rest) with
            | Some k => Some (JArr nil, k)
            | None =>
                match read_items (parse_value f) f rest with
                | Some (xs, k) => Some (JArr xs, k)
                | None => None
                end
            end
          else if (code c =? 123)%N then
            match first_is 125 (skip_ws rest) with
            | Some k => Some (JObj nil, k)
            | None =>
                match read_members (parse_value f) f rest with
                | Some (xs, k) => Some (JObj xs, k)
                | None => None
                end
            end
          else if (code c =? 34)%N then
            match read_string rest with
            | Some (str, k) => Some (JStr str, k)
            | None => None
            end
          else if (code c =? 110)%N then
            match strip_prefix "null" t with
            | Some k => Some (JNull, k)
            | None => None
            end
          else if (code c =? 116)%N then
            match strip_prefix "true" t with
            | Some k => Some (JBool true, k)
            | None => None
            end
          else if (code c =? 102)%N then
            match strip_prefix "false" t with
            | Some k => Some (JBool false, k)
            | None => None
            end
          else
            match read_number t with
            | Some (z, k) => Some (JNum z, k)
            | None => None
            end
      end
  end.

(** [JSON.parse(s)]; [None] is the [SyntaxError]. *)
Definition JSON_parse (s : string) : option json :=
  match parse_value (S (String.length s)) s with
  | Some (j, k) =>
      match skip_ws k with
      | EmptyString => Some j
      | String _ _ => None
      end
  | None => None
  end.

(** Number of nodes of a JSON tree: the fuel [parse_value] needs for it. *)
Fixpoint nodes (j : json) : nat :=
  match j with
  | JArr items => S (fold_right (fun x acc => nodes x + acc)%nat O items)
  | JObj fields => S (fold_right (fun kv acc => nodes (snd kv) + acc)%nat O fields)
  | _ => 1%nat
  end.

(** A character that can begin the text of a JSON value. *)
Definition value_start (c : ascii) : bool :=
  let n := code c in
  (n =? 91)%N || (n =? 123)%N || (n =? 34)%N || (n =? 110)%N || (n =? 116)%N
  || (n =? 102)%N || (n =? 45)%N || is_digit c.

(** A character that can begin a numeral. *)
Definition numeric_start (c : ascii) : bool := (code c =? 45)%N || is_digit c.

(** The reader [pv] gives back [y] from its text, whatever follows. *)
Definition reads (pv : string -> option (json * string)) (y : json) : Prop :=
  forall k, no_digit_ahead k -> pv (emit y k) = Some (y, k).

(** ** JavaScript values *)

(** [ToBoolean]. *)
Definition truthy (v : jsval) : bool :=
  match v with
  | None => false
  | Some JNull => false
  | Some (JBool b) => b
  | Some (JNum z) => negb (z =? 0)
  | Some (JStr s) => negb (String.eqb s EmptyString)
  | Some (JArr _) => true
  | Some (JObj _) => true
  end.

(** [a || b] *)
Definition js_or (a b : jsval) : jsval := if truthy a then a else b.

Notation "a ||| b" := (js_or a b) (at level 50, left associativity).

(** Own property [key] of an object; of two fields with one key the later
    counts, as in an object built by [JSON.parse]. *)
Fixpoint lookup_field (key : string) (fields : list (string * json)) : jsval :=
  match fields with
  | nil => None
  | (k, v) :: rest =>
      match lookup_field key rest with
      | Some w => Some w
      | None => if String.eqb key k then Some v else None
      end
  end.

(** [j.key] for a value [j] other than [null]. The keys of this program are
    [files], [count], [lastUpdated], [quote], [text], [content], [en],
    [author], [by], [length] and file names ending in [.json]; of these
    only [length] exists on arrays and strings, and none is inherited. *)
Definition member (j : json) (key : string) : jsval :=
  match j with
  | JObj fields => lookup_field key fields
  | JArr items => if String.eqb key "length" then Some (JNum (Z.of_nat (length items))) else None
  | JStr s => if String.eqb key "length" then Some (JNum (Z.of_nat (utf16_length s))) else None
  | _ => None
  end.

(** [v?.key] *)
Definition opt_member (v : jsval) (key : string) : jsval :=
  match v with
  | None => None
  | Some JNull => None
  | Some j => member j key
  end.

(** [String(j)], which is also [j.toString()]; [None] is the [TypeError]
    of an object whose own property [toString] hides the inherited method
    (no JSON value is a function), be it an item of an array. *)
Fixpoint to_string (j : json) : option string :=
  match j with
  | JNull => Some "null"
  | JBool true => Some "true"
  | JBool false => Some "false"
  | JNum z => Some (number_text z)
  | JStr s => Some s
  | JArr items =>
      String.concat "," <$>
        (fix join (l : list json) : option (list string) :=
           match l with
           | nil => Some nil
           | x :: rest =>
               match match x with JNull => Some EmptyString | _ => to_string x end with
               | Some t =>
                   match join rest with
                   | Some ts => Some (t :: ts)
                   | None => None
                   end
               | None => None
               end
           end) items
  | JObj fields =>
      match lookup_field "toString" fields with
      | Some _ => None
      | None => Some "[object Object]"
      end
  end.

(** [String(v)]; [None] is the [TypeError]. *)
Definition ToString (v : jsval) : option string :=
  match v with
  | None => Some "undefined"
  | Some j => to_string j
  end.

(** [ToNumber]; [None] is the [TypeError] of [to_string]. *)
Definition ToNumber (v : jsval) : option number :=
  match v with
  | None => Some NaN
  | Some JNull => Some (Finite 0 0)
  | Some (JBool b) => Some (Finite (if b then 1 else 0) 0)
  | Some (JNum z) => Some (Finite z 0)
  | Some (JStr s) => Some (StringToNumber s)
  | Some j => StringToNumber <$> to_string j
  end.

(** [v >= n] and [v > n] for an integer [n]; [None] is the [TypeError]. *)
Definition js_ge (v : jsval) (n : Z) : option bool :=
  (fun x => num_leb (Finite n 0) x) <$> ToNumber v.

Definition js_gt (v : jsval) (n : Z) : option bool :=
  (fun x => num_ltb (Finite n 0) x) <$> ToNumber v.

(** [v === 0] *)
Definition is_zero (v : jsval) : bool :=
  match v with
  | Some (JNum z) => z =? 0
  | _ => false
  end.

(** [x || 0] for a number [x] that may be [NaN]. *)
Definition nan_or_zero (x : option Z) : Z := default 0 x.

(** [x > n] for a number [x] that may be [NaN]. *)
Definition num_gt (x : option Z) (n : Z) : bool :=
  match x with
  | Some d => n <? d
  | None => false
  end.

(** ** Constants of the script *)

Definition metadataUrl : string :=
  "https://prem-k-r.github.io/multilingual-quotes-api/minified/metadata.json".
Definition baseQuoteUrl : string :=
  "https://prem-k-r.github.io/multilingual-quotes-api/minified/".
Definition vercelUrl : string := "https://quotes-api-self.vercel.app/quote/".
Definition programmingUrl : string := "https://programming-quotesapi.vercel.app/api/random".
Definition dummyjsonUrl : string := "https://dummyjson.com/quotes".

Definition MAX_QUOTE_LENGTH : Z := 140.
Definition MIN_QUOTES_FOR_LANG : Z := 100.
Definition ONE_DAY : Z := 24 * 60 * 60 * 1000.

Definition FALLBACK_QUOTE : json :=
  JObj (("quote", JStr "Don't watch the clock; do what it does. Keep going.")
        :: ("author", JStr "Sam Levenson") :: nil).

(** ** The host, the state and the monad *)

Inductive error : Type :=
  | NetworkError      (* [fetch] rejected *)
  | HttpError         (* [response.ok] was false *)
  | SyntaxError       (* [JSON.parse] or [response.json()] on a malformed text *)
  | TypeError         (* a property of [null] or [undefined] *)
  | AllFailed.        (* "All alternative quote APIs failed" *)

(** What [fetch(url)] resolves to: [body] is the result of
    [response.json()], [None] when the text is not JSON. *)
Record response : Type := { ok : bool; body : option json }.

Inductive outcome : Type :=
  | Rejected
  | Responded (r : response).

(** The collaborators of the script. [net n url] is the outcome of the
    request for [url] issued after [n] earlier requests; [random100 n] is
    [Math.floor(Math.random() * 100)] drawn at that moment. *)
Record env : Type := {
  currentLanguage : string;
  onLine : bool;
  Date_now : Z;
  toISOString : Z -> string;
  Date_parse : string -> option Z;
  net : nat -> string -> outcome;
  random100 : nat -> nat
}.

Abbreviation store := (gmap string string).

(** One request of the log, with the value [lastKnownLanguage] had when it
    was issued. *)
Record call : Type := { url : string; known : option string }.

Record state : Type := {
  localStorage : store;
  lastKnownLanguage : option string;
  requests : list call
}.

Inductive result (A : Type) : Type :=
  | Ok (a : A)
  | Throw (err : error).
Arguments Ok {A} a.
Arguments Throw {A} err.

Definition M (A : Type) : Type := state -> result A * state.

Definition ret {A : Type} (a : A) : M A := fun s => (Ok a, s).

Definition throw {A : Type} (err : error) : M A := fun s => (Throw err, s).

Definition bind {A B : Type} (m : M A) (k : A -> M B) : M B :=
  fun s =>
    match m s with
    | (Ok a, s') => k a s'
    | (Throw err, s') => (Throw err, s')
    end.

(** [try { m } catch (error) { h error }] *)
Definition try_catch {A : Type} (m : M A) (h : error -> M A) : M A :=
  fun s =>
    match m s with
    | (Ok a, s') => (Ok a, s')
    | (Throw err, s') => h err s'
    end.

Notation "'let*' x ':=' m 'in' k" := (bind m (fun x => k))
  (at level 10, x name, m at level 100, k at level 200).
Notation "m ';;' k" := (bind m (fun _ => k))
  (at level 100, k at level 200, right associativity).

(** A pure step that may throw, and a conversion whose [None] is the
    [TypeError]. *)
Definition lift {A : Type} (r : result A) : M A := fun s => (r, s).

Definition converted {A : Type} (o : option A) : M A :=
  match o with
  | Some a => ret a
  | None => throw TypeError
  end.

(** [try { m } catch (error) { console.error(...); throw error; }] *)
Definition logged {A : Type} (m : M A) : M A := try_catch m (fun err => throw err).

Definition with_store (f : store -> store) : M unit :=
  fun s =>
    (Ok tt, {| localStorage := f (localStorage s);
               lastKnownLanguage := lastKnownLanguage s;
               requests := requests s |}).

Definition setItem (key value : string) : M unit := with_store (insert key value).

Definition removeItem (key : string) : M unit := with_store (delete key).

Definition getItem (key : string) : M (option string) :=
  fun s => (Ok (localStorage s !! key), s).

(** [!v] for the result [v] of [localStorage.getItem]: [null] or the empty
    string. *)
Definition item_falsy_value (v : option string) : bool :=
  match v with
  | Some t => String.eqb t EmptyString
  | None => true
  end.

(** [!localStorage.getItem(key)] *)
Definition item_falsy (st : store) (key : string) : bool := item_falsy_value (st !! key).

(** The text [parseInt] sees for [localStorage.getItem(key)]. *)
Definition item_text (st : store) (key : string) : string :=
  match st !! key with
  | Some v => v
  | None => "null"
  end.

Definition quotes_key (lang : string) : string := "quotes_" ++ lang.
Definition timestamp_key (lang : string) : string := "quotes_" ++ lang ++ "_timestamp".
Definition count_key (lang : string) : string := "quotes_" ++ lang ++ "_count".
Definition metadata_timestamp_key : string := "quotes_metadata_timestamp".

(** [parseInt(localStorage.getItem(`quotes_${lang}_count`)) || 0] *)
Definition storedCount (st : store) (lang : string) : Z :=
  nan_or_zero (parseInt (item_text st (count_key lang))).

(** ** Cache purges *)

(** [Object.keys(localStorage)] *)
Definition keys (st : store) : list string := (map_to_list st).*1.

(** [clearQuotesStorage], the store part. *)
Definition clearQuotesStorage (st : store) : store :=
  foldl (fun acc key => if startsWith "quotes_" key then delete key acc else acc)
        st (keys st).

(** The test of [clearOtherLanguageQuotes] on one key. *)
Definition purged (exceptLang key : string) : bool :=
  startsWith "quotes_" key
  && negb (includes ("quotes_" ++ exceptLang) key)
  && negb (String.eqb key "quotes_metadata_timestamp").

Definition clearOtherLanguageQuotes (exceptLang : string) (st : store) : store :=
  foldl (fun acc key => if purged exceptLang key then delete key acc else acc)
        st (keys st).

(** ** Staleness *)

Definition needsDataFetch (e : env) (s : state) (lang : string) : bool :=
  let st := localStorage s in
  if negb (onLine e) then false
  else if match lastKnownLanguage s with
          | Some l => negb (String.eqb l (currentLanguage e))
          | None => false
          end then true
  else
    let requiredKeys := quotes_key lang :: timestamp_key lang :: count_key lang :: nil in
    if existsb (item_falsy st) requiredKeys then true
    else
      let storedCount := storedCount st lang in
      let storedTimestamp := item_text st (timestamp_key lang) in
      let timeDiff := (fun t => Date_now e - t) <$> Date_parse e storedTimestamp in
      if storedCount =? 0 then num_gt timeDiff ONE_DAY
      else
        let maxAge := if storedCount <? MIN_QUOTES_FOR_LANG then ONE_DAY else 7 * ONE_DAY in
        num_gt timeDiff maxAge.

(** ** Target language *)

(** The comparison [>=] is not reached when [langFile] is falsy; on a
    truthy one it may throw. *)
Definition getTargetLanguage (currentLang : string) (metadata : jsval) : result string :=
  if String.eqb currentLang "en" then Ok "en"
  else
    let langFile := opt_member (opt_member metadata "files") (currentLang ++ ".json") in
    if truthy langFile then
      match js_ge (opt_member langFile "count") MIN_QUOTES_FOR_LANG with
      | Some true => Ok currentLang
      | Some false => Ok "en"
      | None => Throw TypeError
      end
    else Ok "en".

(** ** The pipeline *)

Section Pipeline.
Variable e : env.

(** [await fetch(address)]: the request is logged, then answered by the
    host. *)
Definition fetch (address : string) : M response :=
  fun s =>
    let s' := {| localStorage := localStorage s;
                 lastKnownLanguage := lastKnownLanguage s;
                 requests := requests s ++ {| url := address; known := lastKnownLanguage s |} :: nil |} in
    match net e (length (requests s)) address with
    | Rejected => (Throw NetworkError, s')
    | Responded r => (Ok r, s')
    end.

(** [await response.json()] *)
Definition response_json (r : response) : M json :=
  match body r with
  | Some j => ret j
  | None => throw SyntaxError
  end.

Definition fetchMetadata : M json :=
  logged (let* response := fetch metadataUrl in response_json response).

Definition fetchQuotes (lang : string) : M json :=
  logged (let* response := fetch (baseQuoteUrl ++ lang ++ ".json") in
          response_json response).

(** [data.key]: a [TypeError] when [data] is [null]. *)
Definition prop (data : json) (key : string) : M jsval :=
  match data with
  | JNull => throw TypeError
  | _ => ret (member data key)
  end.

(** [{ quote: q, author: a }]; a property whose value is [undefined]
    reads, and is serialised, like a property that is not there. *)
Definition make_quote (q a : jsval) : json :=
  JObj (match q with Some j => ("quote", j) :: nil | None => nil end
        ++ match a with Some j => ("author", j) :: nil | None => nil end).

Definition fetchVercelQuote : M json :=
  logged (let* response := fetch vercelUrl in
          if negb (ok response) then throw HttpError
          else
            let* data := response_json response in
            let* quote := prop data "quote" in
            ret (make_quote
                   (quote ||| member data "text" ||| member data "content"
                    ||| Some (JStr EmptyString))
                   (member data "author" ||| member data "by" ||| Some (JStr "Unknown")))).

Definition fetchProgrammingQuote : M json :=
  logged (let* response := fetch programmingUrl in
          if negb (ok response) then throw HttpError
          else
            let* data := response_json response in
            let* quote := prop data "quote" in
            ret (make_quote
                   (quote ||| member data "text" ||| member data "content"
                    ||| member data "en" ||| Some (JStr EmptyString))
                   (member data "author" ||| member data "by" ||| Some (JStr "Unknown")))).

Definition fetchDummyJsonQuote : M json :=
  logged (fun s =>
    let randomId := Z.of_nat (random100 e (length (requests s)) mod 100) + 1 in
    (let* response := fetch (dummyjsonUrl ++ "/" ++ dec_of_Z randomId) in
     if negb (ok response) then throw HttpError
     else
       let* data := response_json response in
       let* quote := prop data "quote" in
       ret (make_quote
              (quote ||| member data "text" ||| member data "content"
               ||| Some (JStr EmptyString))
              (member data "author" ||| member data "by" ||| Some (JStr "Unknown")))) s).

(** [quote && quote.quote && quote.author] *)
Definition complete (quote : json) : bool :=
  truthy (Some quote)
  && truthy (opt_member (Some quote) "quote")
  && truthy (opt_member (Some quote) "author").

(** The loop of [fetchAlternativeQuote] over the providers still to try:
    the [try] covers one provider and the test of its quote. *)
Fixpoint try_apis (apis : list (string * M json)) : M json :=
  match apis with
  | nil => throw AllFailed
  | (_, fn) :: rest =>
      let* attempt :=
        try_catch
          (let* quote := fn in ret (if complete quote then Some quote else None))
          (fun _ => ret None) in
      match attempt with
      | Some quote => ret quote
      | None => try_apis rest
      end
  end.

Definition fetchAlternativeQuote : M json :=
  let apis := ("vercel", fetchVercelQuote)
              :: ("programming", fetchProgrammingQuote)
              :: ("dummyjson", fetchDummyJsonQuote) :: nil in
  try_apis apis.

(** [x.toString()]: a [TypeError] on [undefined] and [null], and on an
    object whose own [toString] is no function. *)
Definition toString_method (v : jsval) : M string :=
  match v with
  | None => throw TypeError
  | Some JNull => throw TypeError
  | Some j => converted (to_string j)
  end.

(** [x.key] for any value: a [TypeError] on [undefined] and [null]. *)
Definition prop_of (v : jsval) (key : string) : M jsval :=
  match v with
  | None => throw TypeError
  | Some j => prop j key
  end.

Definition storeQuotesData (lang : string) (quotes : json) (metadata : jsval) : M unit :=
  let timestamp := toISOString e (Date_now e) in
  setItem (quotes_key lang) (JSON_stringify quotes) ;;
  setItem (timestamp_key lang) timestamp ;;
  if truthy metadata then
    let* lastUpdated := prop_of metadata "lastUpdated" in
    let* text := converted (ToString lastUpdated) in
    setItem metadata_timestamp_key text ;;
    let count := opt_member (opt_member (opt_member metadata "files") (lang ++ ".json")) "count" in
    let* quoteCount := if truthy count then ret count else prop quotes "length" in
    let* text := toString_method quoteCount in
    setItem (count_key lang) text
  else ret tt.

Definition storeNoDataInfo (lang : string) (metadata : jsval) : M unit :=
  let timestamp := toISOString e (Date_now e) in
  setItem (quotes_key lang) (JSON_stringify (JArr nil)) ;;
  setItem (timestamp_key lang) timestamp ;;
  setItem (count_key lang) "0" ;;
  if truthy metadata then
    let* lastUpdated := prop_of metadata "lastUpdated" in
    let* text := converted (ToString lastUpdated) in
    setItem metadata_timestamp_key text
  else ret tt.

(** [JSON.parse] of the stored text, [null] when the key is absent or
    holds the empty string. *)
Definition getStoredQuotes (lang : string) : M json :=
  let* storedQuotes := getItem (quotes_key lang) in
  if item_falsy_value storedQuotes then ret JNull
  else match JSON_parse (default EmptyString storedQuotes) with
       | Some j => ret j
       | None => throw SyntaxError
       end.

(** The three writes that cache one quote of the fallback chain
    (repeated in the source at each place that caches one). *)
Definition storeSingle (lang : string) (quotes : json) : M unit :=
  let timestamp := toISOString e (Date_now e) in
  setItem (quotes_key lang) (JSON_stringify quotes) ;;
  setItem (timestamp_key lang) timestamp ;;
  setItem (count_key lang) "1".

(** The fallback of the fetching branch (source lines 296-308): one quote
    of the chain, cached under the current language. *)
Definition alternativeForCurrent : M json :=
  try_catch
    (let* alternativeQuote := fetchAlternativeQuote in
     let quotes := JArr (alternativeQuote :: nil) in
     storeSingle (currentLanguage e) quotes ;;
     ret quotes)
    (fun altError => throw altError).

(** The attempt on the multilingual source (source lines 274-291). *)
Definition bulkFetch : M json :=
  let currentLanguage := currentLanguage e in
  let* metadata := fetchMetadata in
  let* targetLang := lift (getTargetLanguage currentLanguage (Some metadata)) in
  let* files := prop metadata "files" in
  let currentLangFile := opt_member files (currentLanguage ++ ".json") in
  let currentLangCount := opt_member currentLangFile "count" ||| Some (JNum 0) in
  (if is_zero currentLangCount && negb (String.eqb currentLanguage "en")
   then storeNoDataInfo currentLanguage (Some metadata)
   else ret tt) ;;
  let* quotes := fetchQuotes targetLang in
  storeQuotesData targetLang quotes (Some metadata) ;;
  with_store (clearOtherLanguageQuotes
                (if String.eqb currentLanguage EmptyString then targetLang
                 else currentLanguage)) ;;
  ret quotes.

(** The fetching branch (source lines 273-309). *)
Definition fetchBranch : M json :=
  try_catch bulkFetch (fun multilingualError => alternativeForCurrent).

(** [!englishQuotes || englishQuotes.length === 0] *)
Definition nothing_stored (quotes : json) : bool :=
  negb (truthy (Some quotes)) || is_zero (opt_member (Some quotes) "length").

(** The English fallback for a language without quotes (source lines
    317-340). The local [englishQuotes] is assigned by [fetchQuotes]
    before [storeQuotesData] runs, so a failure of the latter leaves the
    fetched value in it. *)
Definition englishFallback : M json :=
  let* englishQuotes := getStoredQuotes "en" in
  let* englishQuotes :=
    if nothing_stored englishQuotes then
      let alternative (englishQuotes : json) : M json :=
        try_catch
          (let* alternativeQuote := fetchAlternativeQuote in
           let englishQuotes := JArr (alternativeQuote :: nil) in
           storeSingle "en" englishQuotes ;;
           ret englishQuotes)
          (fun altError => ret englishQuotes) in
      let* fetched :=
        try_catch
          (let* metadata := fetchMetadata in
           let* quotes := fetchQuotes "en" in
           ret (Some (metadata, quotes)))
          (fun _ => ret None) in
      match fetched with
      | Some (metadata, quotes) =>
          try_catch
            (storeQuotesData "en" quotes (Some metadata) ;; ret quotes)
            (fun _ => alternative quotes)
      | None => alternative englishQuotes
      end
    else ret englishQuotes in
  ret (if truthy (Some englishQuotes) then englishQuotes
       else JArr (FALLBACK_QUOTE :: nil)).

(** The branch that uses the stored data (source lines 311-361). *)
Definition cacheBranch : M json :=
  let currentLanguage := currentLanguage e in
  let* storedCount := (fun s => (Ok (storedCount (localStorage s) currentLanguage), s)) in
  if (storedCount =? 0) && negb (String.eqb currentLanguage "en") then englishFallback
  else
    let* storedQuotes := getStoredQuotes currentLanguage in
    let* filled :=
      if truthy (Some storedQuotes)
      then converted (js_gt (opt_member (Some storedQuotes) "length") 0)
      else ret false in
    if filled then ret storedQuotes
    else
      try_catch
        (let* alternativeQuote := fetchAlternativeQuote in
         let quotes := JArr (alternativeQuote :: nil) in
         storeSingle currentLanguage quotes ;;
         ret quotes)
        (fun altError => ret (JArr (FALLBACK_QUOTE :: nil))).

(** The handler of the outermost [try] (source lines 362-380). *)
Definition outerHandler (error : error) : M json :=
  let* stored := getStoredQuotes (currentLanguage e) in
  let* quotes := if truthy (Some stored) then ret stored else getStoredQuotes "en" in
  if nothing_stored quotes then
    try_catch
      (let* alternativeQuote := fetchAlternativeQuote in
       ret (JArr (alternativeQuote :: nil)))
      (fun altError => ret (JArr (FALLBACK_QUOTE :: nil)))
  else ret quotes.

(** [lastKnownLanguage !== null && lastKnownLanguage !== currentLanguage] *)
Definition languageChanged (s : state) : bool :=
  match lastKnownLanguage s with
  | Some l => negb (String.eqb l (currentLanguage e))
  | None => false
  end.

(** [lastKnownLanguage = currentLanguage] *)
Definition recordLanguage : M unit :=
  fun s =>
    (Ok tt, {| localStorage := localStorage s;
               lastKnownLanguage := Some (currentLanguage e);
               requests := requests s |}).

(** What the outermost [try] encloses (source lines 265-361). *)
Definition pipeline (forceRefresh : bool) : M json :=
  let* languageChanged := (fun s => (Ok (languageChanged s), s)) in
  recordLanguage ;;
  let* shouldFetch :=
    (fun s => (Ok (forceRefresh || needsDataFetch e s (currentLanguage e)), s)) in
  if shouldFetch then fetchBranch else cacheBranch.

Definition getQuotesForLanguage (forceRefresh : bool) : M json :=
  try_catch (pipeline forceRefresh) outerHandler.
End Pipeline.

(** ** Notions of the specification *)

(** [metadata.files["<lang>.json"].count], [undefined] when any link of the
    chain is missing. *)
Definition reported_count (metadata : jsval) (lang : string) : jsval :=
  opt_member (opt_member (opt_member metadata "files") (lang ++ ".json")) "count".

(** Metadata reports, for the file of [lang], a count that reads as a
    number of at least [n]. *)
Definition reports_at_least (metadata : jsval) (lang : string) (n : Z) : Prop :=
  exists x, ToNumber (reported_count metadata lang) = Some x /\ num_leb (Finite n 0) x = true.

(** The staleness threshold of the specification, in hours, for a stored
    count. *)
Definition threshold_hours (count : Z) : Z :=
  if count =? 0 then 24 else if count <? 100 then 24 else 168.

Definition HOUR : Z := 60 * 60 * 1000.

(** A key of the store holds a non-empty text. *)
Definition present (st : store) (key : string) : Prop :=
  exists v, st !! key = Some v /\ v <> EmptyString.

(** The three keys of a language. *)
Definition keys_of (lang : string) (key : string) : Prop :=
  key = quotes_key lang \/ key = timestamp_key lang \/ key = count_key lang.

(** The keys the path that uses the cache may write. *)
Definition cache_keys (e : env) (key : string) : Prop :=
  keys_of (currentLanguage e) key \/ keys_of "en" key \/ key = metadata_timestamp_key.

(** A text is stored for the quotes of [lang] that is not empty and that
    [JSON_parse] rejects. *)
Definition malformed (st : store) (lang : string) : Prop :=
  exists v, st !! quotes_key lang = Some v /\ v <> EmptyString /\ JSON_parse v = None.

(** The text [v.toString()] gives; [None] when the call throws. *)
Definition method_text (v : jsval) : option string :=
  match v with
  | None => None
  | Some JNull => None
  | Some j => to_string j
  end.

(** The state after the three writes [storeNoDataInfo] begins with. *)
Definition marker_written (e : env) (lang : string) (s : state) : state :=
  {| localStorage :=
       <[count_key lang := "0"]>
         (<[timestamp_key lang := toISOString e (Date_now e)]>
            (<[quotes_key lang := "[]"]> (localStorage s)));
     lastKnownLanguage := lastKnownLanguage s;
     requests := requests s |}.

(** A result that carries a quote with a text and an author. *)
Definition usable (r : result json) : bool :=
  match r with
  | Ok quote => complete quote
  | Throw _ => false
  end.

(** ** Properties of computations *)

(** The state with another store. *)
Definition set_store (st : store) (s : state) : state :=
  {| localStorage := st; lastKnownLanguage := lastKnownLanguage s; requests := requests s |}.

(** The state after the first two writes of [storeQuotesData]. *)
Definition quotes_written (e : env) (L : string) (quotes : json) (s : state) : state :=
  set_store (<[timestamp_key L := toISOString e (Date_now e)]>
               (<[quotes_key L := JSON_stringify quotes]> (localStorage s))) s.

(** The urls of the requests of a state, oldest first. *)
Definition urls (s : state) : list string := List.map url (requests s).

(** The state once the request for [address] is logged. *)
Definition logged_request (address : string) (s : state) : state :=
  {| localStorage := localStorage s;
     lastKnownLanguage := lastKnownLanguage s;
     requests := requests s ++ {| url := address; known := lastKnownLanguage s |} :: nil |}.

(** The identifier [fetchDummyJsonQuote] draws in state [s]. *)
Definition drawn_id (e : env) (s : state) : Z :=
  Z.of_nat (random100 e (length (requests s)) mod 100) + 1.

(** A computation that leaves [lastKnownLanguage] alone and issues its
    requests while [lastKnownLanguage] has the value found at its start. *)
Definition steady {A : Type} (m : M A) : Prop :=
  forall s,
    lastKnownLanguage (m s).2 = lastKnownLanguage s /\
    exists new,
      requests (m s).2 = (requests s ++ new)%list /\
      Forall (fun c => known c = lastKnownLanguage s) new.

(** A computation that leaves the store alone. *)
Definition store_free {A : Type} (m : M A) : Prop :=
  forall s, localStorage (m s).2 = localStorage s.

(** A computation that leaves the whole state alone. *)
Definition quiet {A : Type} (m : M A) : Prop := forall s, (m s).2 = s.

(** A computation that leaves every key outside [K] as it was. *)
Definition writes_within {A : Type} (K : string -> Prop) (m : M A) : Prop :=
  forall s key, ~ K key -> localStorage (m s).2 !! key = localStorage s !! key.



(** ** A host for the examples *)

(** Days since 1970-01-01 of a civil date, and back. *)
Definition days_from_civil (y m d : Z) : Z :=
  let y := if m <=? 2 then y - 1 else y in
  let era := y / 400 in
  let yoe := y - era * 400 in
  let doy := (153 * (if 2 <? m then m - 3 else m + 9) + 2) / 5 + d - 1 in
  let doe := yoe * 365 + yoe / 4 - yoe / 100 + doy in
  era * 146097 + doe - 719468.

Definition civil_from_days (z : Z) : Z * Z * Z :=
  let z := z + 719468 in
  let era := z / 146097 in
  let doe := z - era * 146097 in
  let yoe := (doe - doe / 1460 + doe / 36524 - doe / 146096) / 365 in
  let doy := doe - (365 * yoe + yoe / 4 - yoe / 100) in
  let mp := (5 * doy + 2) / 153 in
  let d := doy - (153 * mp + 2) / 5 + 1 in
  let m := if mp <? 10 then mp + 3 else mp - 9 in
  (if m <=? 2 then yoe + era * 400 + 1 else yoe + era * 400, m, d).

Fixpoint zeros (n : nat) : string :=
  match n with
  | O => EmptyString
  | S n' => String "0" (zeros n')
  end.

Definition pad (width : nat) (s : string) : string :=
  zeros (width - String.length s) ++ s.

(** [new Date(ms).toISOString()] for the years 0000 to 9999. *)
Definition iso_of_ms (ms : Z) : string :=
  let '(y, m, d) := civil_from_days (ms / 86400000) in
  let r := ms mod 86400000 in
  pad 4 (dec_of_Z y) ++ "-" ++ pad 2 (dec_of_Z m) ++ "-" ++ pad 2 (dec_of_Z d)
  ++ "T" ++ pad 2 (dec_of_Z (r / 3600000)) ++ ":" ++ pad 2 (dec_of_Z (r / 60000 mod 60))
  ++ ":" ++ pad 2 (dec_of_Z (r / 1000 mod 60)) ++ "." ++ pad 3 (dec_of_Z (r mod 1000)) ++ "Z".

(** The number written with exactly [width] digits at the front of [s]. *)
Definition fixed_digits (width : nat) (s : string) : option (Z * string) :=
  match read_uint (substring 0 width s) with
  | (u, EmptyString) =>
      if (String.length (substring 0 width s) =? width)%nat
      then Some (Z.of_N (N.of_uint u), substring width (String.length s - width) s)
      else None
  | _ => None
  end.

(** The inverse of [iso_of_ms]: texts of the form [YYYY-MM-DDTHH:mm:ss.sssZ]. *)
Definition ms_of_iso (s : string) : option Z :=
  '(y, s) ← fixed_digits 4 s; s ← strip_prefix "-" s;
  '(m, s) ← fixed_digits 2 s; s ← strip_prefix "-" s;
  '(d, s) ← fixed_digits 2 s; s ← strip_prefix "T" s;
  '(h, s) ← fixed_digits 2 s; s ← strip_prefix ":" s;
  '(mi, s) ← fixed_digits 2 s; s ← strip_prefix ":" s;
  '(sec, s) ← fixed_digits 2 s; s ← strip_prefix "." s;
  '(milli, s) ← fixed_digits 3 s; s ← strip_prefix "Z" s;
  if String.eqb s EmptyString
  then Some (days_from_civil y m d * 86400000 + h * 3600000 + mi * 60000 + sec * 1000 + milli)
  else None.

(** A host with the ISO date codec, a fixed draw of [Math.random] and the
    given language, connectivity, clock and network. *)
Definition host (lang : string) (online : bool) (clock : Z)
    (network : nat -> string -> outcome) : env :=
  {| currentLanguage := lang;
     onLine := online;
     Date_now := clock;
     toISOString := iso_of_ms;
     Date_parse := ms_of_iso;
     net := network;
     random100 := fun _ => 41%nat |}.

(** A network on which every request is rejected. *)
Definition unreachable : nat -> string -> outcome := fun _ _ => Rejected.

(** A state with the given store, before any request. *)
Definition initial (st : store) (last : option string) : state :=
  {| localStorage := st; lastKnownLanguage := last; requests := nil |}.

Definition json_ok (j : json) : outcome := Responded {| ok := true; body := Some j |}.

(** ** Data of the examples *)

Definition sample_metadata : json :=
  JObj (("lastUpdated", JStr "2025-10-01")
        :: ("files",
            JObj (("en.json", JObj (("count", JNum 500) :: nil))
                  :: ("fr.json", JObj (("count", JNum 150) :: nil))
                  :: ("de.json", JObj (("count", JNum 0) :: nil))
                  :: ("it.json", JObj (("count", JNum 40) :: nil)) :: nil)) :: nil).

Definition sample_quotes (text : string) : json :=
  JArr (JObj (("quote", JStr text) :: ("author", JStr "Anonymous") :: nil) :: nil).

(** 2025-01-01T00:00:00.000Z in milliseconds. *)
Definition new_year : Z := 1735689600000.

(** A cache for French with the given texts, fetched at [new_year]. *)
Definition french_cache (quotes count : string) : store :=
  <[quotes_key "fr" := quotes]>
    (<[timestamp_key "fr" := "2025-01-01T00:00:00.000Z"]>
       (<[count_key "fr" := count]> ∅)).

(** A cache for Spanish whose quotes are a truncated text. *)
Definition corrupted_cache : store :=
  <[quotes_key "es" := "[{"]>
    (<[timestamp_key "es" := "2025-01-01T00:00:00.000Z"]>
       (<[count_key "es" := "120"]> ∅)).

(** A cache that records that German has no quotes, next to English quotes. *)
Definition german_without_quotes : store :=
  <[quotes_key "de" := "[]"]>
    (<[timestamp_key "de" := "2025-01-01T00:00:00.000Z"]>
       (<[count_key "de" := "0"]>
          (<[quotes_key "en" := JSON_stringify (sample_quotes "Stay hungry.")]>
             (<[timestamp_key "en" := "2025-01-01T00:00:00.000Z"]>
                (<[count_key "en" := "500"]> ∅))))).

(** A network on which only the first provider of the chain answers. *)
Definition vercel_only : nat -> string -> outcome :=
  fun _ address =>
    if String.eqb address vercelUrl
    then json_ok (JObj (("quote", JStr "Keep going.") :: ("author", JStr "Sam") :: nil))
    else Rejected.

(** A network on which only the multilingual source answers. *)
Definition bulk_only : nat -> string -> outcome :=
  fun _ address =>
    if String.eqb address metadataUrl then json_ok sample_metadata
    else if String.prefix baseQuoteUrl address then json_ok (sample_quotes "Stay hungry.")
    else Rejected.

(** A network on which the first provider is unreachable and the second
    answers with its own field for the text. *)
Definition programming_only : nat -> string -> outcome :=
  fun _ address =>
    if String.eqb address programmingUrl
    then json_ok (JObj (("en", JStr "Talk is cheap.") :: ("by", JStr "Linus") :: nil))
    else Rejected.

(** ** The page and the presenter *)

(** The elements of the page the script reads and writes: the text of the
    quote and of the author, the width style of the container of the
    author with the number of animation frames requested for it, the two
    checkboxes, the [inactive] class of the toggle and the [display] style
    of the two containers. *)
Record page : Type := {
  quotesContainer : string;
  authorName : string;
  authorContainer_width : string;
  animationFrames : nat;
  hideSearchWith : bool;
  motivationalQuotesCheckbox : bool;
  quotesToggle_inactive : bool;
  motivationalQuotesCont : string;
  searchWithContainer : string
}.

Definition set_texts (quote author : string) (p : page) : page :=
  {| quotesContainer := quote;
     authorName := author;
     authorContainer_width := authorContainer_width p;
     animationFrames := animationFrames p;
     hideSearchWith := hideSearchWith p;
     motivationalQuotesCheckbox := motivationalQuotesCheckbox p;
     quotesToggle_inactive := quotesToggle_inactive p;
     motivationalQuotesCont := motivationalQuotesCont p;
     searchWithContainer := searchWithContainer p |}.

Definition set_checked (hide motivational : bool) (p : page) : page :=
  {| quotesContainer := quotesContainer p;
     authorName := authorName p;
     authorContainer_width := authorContainer_width p;
     animationFrames := animationFrames p;
     hideSearchWith := hide;
     motivationalQuotesCheckbox := motivational;
     quotesToggle_inactive := quotesToggle_inactive p;
     motivationalQuotesCont := motivationalQuotesCont p;
     searchWithContainer := searchWithContainer p |}.

Definition set_layout (inactive : bool) (motivational search : string) (p : page) : page :=
  {| quotesContainer := quotesContainer p;
     authorName := authorName p;
     authorContainer_width := authorContainer_width p;
     animationFrames := animationFrames p;
     hideSearchWith := hideSearchWith p;
     motivationalQuotesCheckbox := motivationalQuotesCheckbox p;
     quotesToggle_inactive := inactive;
     motivationalQuotesCont := motivational;
     searchWithContainer := search |}.

(** [requestAnimationFrame(callback)]: one more frame is requested. *)
Definition requestAnimationFrame (p : page) : page :=
  {| quotesContainer := quotesContainer p;
     authorName := authorName p;
     authorContainer_width := authorContainer_width p;
     animationFrames := S (animationFrames p);
     hideSearchWith := hideSearchWith p;
     motivationalQuotesCheckbox := motivationalQuotesCheckbox p;
     quotesToggle_inactive := quotesToggle_inactive p;
     motivationalQuotesCont := motivationalQuotesCont p;
     searchWithContainer := searchWithContainer p |}.

(** The callback of [displayRandomQuote], run by the browser for a
    requested frame: the width of the container of the author follows the
    width [scrollWidth] the layout gives the text shown then. *)
Definition animationFrame (scrollWidth : string -> nat) (p : page) : page :=
  match animationFrames p with
  | O => p
  | S frames =>
      let fullWidth := Z.of_nat (scrollWidth (authorName p)) in
      let padding := 16 in
      {| quotesContainer := quotesContainer p;
         authorName := authorName p;
         authorContainer_width := number_text (fullWidth + padding * 2) ++ "px";
         animationFrames := frames;
         hideSearchWith := hideSearchWith p;
         motivationalQuotesCheckbox := motivationalQuotesCheckbox p;
         quotesToggle_inactive := quotesToggle_inactive p;
         motivationalQuotesCont := motivationalQuotesCont p;
         searchWithContainer := searchWithContainer p |}
  end.

(** The text an element shows after [element.textContent = v]: nothing for
    [null] and [undefined]; [None] is the [TypeError] of the conversion. *)
Definition text_of (v : jsval) : option string :=
  match v with
  | None => Some EmptyString
  | Some JNull => Some EmptyString
  | Some j => to_string j
  end.

(** [v.key] outside the monad: a [TypeError] on [undefined] and [null]. *)
Definition field (v : jsval) (key : string) : result jsval :=
  match v with
  | None => Throw TypeError
  | Some JNull => Throw TypeError
  | Some j => Ok (member j key)
  end.

Definition displayFallbackQuote (p : page) : page :=
  match text_of (member FALLBACK_QUOTE "quote"), text_of (member FALLBACK_QUOTE "author") with
  | Some quote, Some author => set_texts quote author p
  | _, _ => p
  end.

(** [clearQuotesStorage] whole: the keys of the store and the two texts. *)
Definition clearQuotes (w : state * page) : state * page :=
  (set_store (clearQuotesStorage (localStorage w.1)) w.1,
   set_texts EmptyString EmptyString w.2).

(** The integers just below and just above [m * 2 ^ q]. *)
Definition floor_of (m q : Z) : Z := if 0 <=? q then m * 2 ^ q else m / 2 ^ (- q).
Definition ceiling_of (m q : Z) : Z := if 0 <=? q then m * 2 ^ q else - ((- m) / 2 ^ (- q)).

(** [Math.floor(Math.random() * len)] for the raw draw [r]: every integer
    from 0 up to, but not including, a positive [len] can come out; [NaN]
    for a [len] that is no number; for an infinite one an infinity, and
    [NaN] when the draw is 0. [None] is the [TypeError] of the conversion
    of [len]. *)
Definition floor_random (r : nat) (len : jsval) : option number :=
  (fun x =>
     match x with
     | NaN => NaN
     | Infinite negative => match r with O => NaN | S _ => Infinite negative end
     | Finite m q =>
         if 0 <? m then Finite (Z.of_nat r mod ceiling_of m q) 0
         else if m =? 0 then Finite 0 0
         else Finite (- (Z.of_nat r mod (1 - floor_of m q))) 0
     end) <$> ToNumber len.

(** The property key of a number that is an integer, [NaN] or an
    infinity. *)
Definition key_of_number (i : number) : string :=
  match i with
  | NaN => "NaN"
  | Infinite true => "-Infinity"
  | Infinite false => "Infinity"
  | Finite m q => number_text (floor_of m q)
  end.

(** [quotes[i]] for such a number [i]: an item of an array, a code unit
    of a string, an own property of an object. *)
Definition element (quotes : json) (i : number) : jsval :=
  let position : option nat :=
    match i with
    | Finite m q => if 0 <=? floor_of m q then Some (Z.to_nat (floor_of m q)) else None
    | _ => None
    end in
  match quotes with
  | JArr items => position ≫= (fun n => nth_error items n)
  | JStr s => position ≫= (fun n => JStr <$> nth_error (utf16_units s) n)
  | JObj fields => lookup_field (key_of_number i) fields
  | _ => None
  end.

(** [ToPrimitive]: an array or an object becomes its string. *)
Definition primitive (v : jsval) : option jsval :=
  match v with
  | Some (JArr items) => (fun t => Some (JStr t)) <$> to_string (JArr items)
  | Some (JObj fields) => (fun t => Some (JStr t)) <$> to_string (JObj fields)
  | _ => Some v
  end.

(** [a + b <= n]: the sum is a concatenation when an operand is, or
    becomes, a string, and a number otherwise. [None] is the [TypeError]. *)
Definition sum_le (a b : jsval) (n : Z) : option bool :=
  let textual (v : jsval) : bool :=
    match v with
    | Some (JStr _) => true
    | _ => false
    end in
  match primitive a, primitive b with
  | Some pa, Some pb =>
      if textual pa || textual pb then
        match ToString pa, ToString pb with
        | Some x, Some y => Some (num_leb (StringToNumber (x ++ y)) (Finite n 0))
        | _, _ => None
        end
      else
        match ToNumber pa, ToNumber pb with
        | Some x, Some y => Some (num_leb (num_add x y) (Finite n 0))
        | _, _ => None
        end
  | _, _ => None
  end.

(** [selectedQuote.quote.length] and [selectedQuote.author.length], in
    this order. *)
Definition lengths (selectedQuote : jsval) : result (jsval * jsval) :=
  match field selectedQuote "quote" with
  | Throw err => Throw err
  | Ok quote =>
      match field quote "length" with
      | Throw err => Throw err
      | Ok quoteLength =>
          match field selectedQuote "author" with
          | Throw err => Throw err
          | Ok author =>
              match field author "length" with
              | Throw err => Throw err
              | Ok authorLength => Ok (quoteLength, authorLength)
              end
          end
      end
  end.

(** The loop of [displayRandomQuote] from attempt [attempts] on, with
    [left] attempts to go: the quote selected last and the number of draws
    made so far. [rnd k] is the raw draw of attempt [k]. *)
Fixpoint sample (rnd : nat -> nat) (quotes : json) (attempts left : nat)
    (selectedQuote : jsval) : result (jsval * nat) :=
  match left with
  | O => Ok (selectedQuote, attempts)
  | S left' =>
      match floor_random (rnd attempts) (member quotes "length") with
      | None => Throw TypeError
      | Some randomIndex =>
          let selectedQuote := element quotes randomIndex in
          match lengths selectedQuote with
          | Throw err => Throw err
          | Ok (quoteLength, authorLength) =>
              match sum_le quoteLength authorLength MAX_QUOTE_LENGTH with
              | None => Throw TypeError
              | Some true => Ok (selectedQuote, S attempts)
              | Some false => sample rnd quotes (S attempts) left' selectedQuote
              end
          end
      end
  end.

Definition maxAttempts : nat := 15.

(** The text of the quote is written before the author is converted, and
    the frame is requested last. *)
Definition displayRandomQuote (rnd : nat -> nat) (quotes : json) (p : page)
    : result unit * page :=
  if nothing_stored quotes then (Ok tt, displayFallbackQuote p)
  else
    match sample rnd quotes 0 maxAttempts None with
    | Throw err => (Throw err, p)
    | Ok (selectedQuote, _) =>
        match field selectedQuote "quote" with
        | Throw err => (Throw err, p)
        | Ok quote =>
            match text_of quote with
            | None => (Throw TypeError, p)
            | Some quoteText =>
                let p1 := set_texts quoteText (authorName p) p in
                match field selectedQuote "author" with
                | Throw err => (Throw err, p1)
                | Ok author =>
                    match text_of author with
                    | None => (Throw TypeError, p1)
                    | Some authorText =>
                        (Ok tt, requestAnimationFrame (set_texts quoteText authorText p1))
                    end
                end
            end
        end
    end.

(** [loadAndDisplayQuote]: whatever [getQuotesForLanguage] or
    [displayRandomQuote] throws ends in [displayFallbackQuote]. *)
Definition loadAndDisplayQuote (e : env) (rnd : nat -> nat) (forceRefresh : bool)
    (w : state * page) : state * page :=
  match getQuotesForLanguage e forceRefresh w.1 with
  | (Ok quotes, s') =>
      match displayRandomQuote rnd quotes w.2 with
      | (Ok _, p') => (s', p')
      | (Throw _, p') => (s', displayFallbackQuote p')
      end
  | (Throw _, s') => (s', displayFallbackQuote w.2)
  end.

(** [String(b)] for a boolean, as [setItem] stores it. *)
Definition bool_text (b : bool) : string := if b then "true" else "false".

(** [updateMotivationalQuotesState]. The call of [loadAndDisplayQuote] is
    not awaited in the source; here it runs to its end. *)
Definition updateMotivationalQuotesState (e : env) (rnd : nat -> nat)
    (w : state * page) : state * page :=
  let isHideSearchWithEnabled := hideSearchWith w.2 in
  let isMotivationalQuotesEnabled := motivationalQuotesCheckbox w.2 in
  let s1 := set_store (<["motivationalQuotesVisible" := bool_text isMotivationalQuotesEnabled]>
                         (localStorage w.1)) w.1 in
  if negb isHideSearchWithEnabled then
    clearQuotes (s1, set_layout true "none" (searchWithContainer w.2) w.2)
  else
    let p1 := set_layout false
                (if isMotivationalQuotesEnabled then "flex" else "none")
                (if isMotivationalQuotesEnabled then "none" else "flex") w.2 in
    if isMotivationalQuotesEnabled then loadAndDisplayQuote e rnd false (s1, p1)
    else clearQuotes (s1, p1).

(** [=== "true"] and [!== "false"] on the result of [getItem]. *)
Definition is_true_text (v : option string) : bool :=
  match v with
  | Some t => String.eqb t "true"
  | None => false
  end.

Definition is_not_false_text (v : option string) : bool :=
  match v with
  | Some t => negb (String.eqb t "false")
  | None => true
  end.

(** The listener of [DOMContentLoaded]: the checkboxes are read from the
    store, the language is recorded and the state is applied. *)
Definition onDOMContentLoaded (e : env) (rnd : nat -> nat) (w : state * page)
    : state * page :=
  let p1 := set_checked (is_true_text (localStorage w.1 !! "showShortcutSwitch"))
              (is_not_false_text (localStorage w.1 !! "motivationalQuotesVisible")) w.2 in
  let s1 := {| localStorage := localStorage w.1;
               lastKnownLanguage := Some (currentLanguage e);
               requests := requests w.1 |} in
  updateMotivationalQuotesState e rnd (s1, p1).

(** The [change] listeners, once the user has set the checkbox. *)
Definition onHideSearchWithChange (e : env) (rnd : nat -> nat) (checked : bool)
    (w : state * page) : state * page :=
  let p := set_checked checked (motivationalQuotesCheckbox w.2) w.2 in
  updateMotivationalQuotesState e rnd
    (w.1, set_layout (quotesToggle_inactive p) (motivationalQuotesCont p) "flex" p).

Definition onMotivationalQuotesChange (e : env) (rnd : nat -> nat) (checked : bool)
    (w : state * page) : state * page :=
  updateMotivationalQuotesState e rnd (w.1, set_checked (hideSearchWith w.2) checked w.2).

(** ** Notions for the presenter *)

(** A well-formed quote. *)
Definition quote_item (q : string * string) : json :=
  JObj (("quote", JStr q.1) :: ("author", JStr q.2) :: nil).

(** The quote is longer than the display budget, in UTF-16 code units. *)
Definition too_long (q : string * string) : bool :=
  MAX_QUOTE_LENGTH <? Z.of_nat (utf16_length q.1) + Z.of_nat (utf16_length q.2).

(** The quote drawn at attempt [k] from [items]. *)
Definition drawn (rnd : nat -> nat) (items : list (string * string)) (k : nat)
    : string * string :=
  nth (rnd k mod length items) items (EmptyString, EmptyString).

(** The attempt that ends the loop, counted from [k] with [left] attempts
    to go: the first whose quote fits, the last one when none fits. *)
Fixpoint final_attempt (rnd : nat -> nat) (items : list (string * string))
    (k left : nat) : nat :=
  match left with
  | O => k
  | S O => k
  | S left' => if too_long (drawn rnd items k) then final_attempt rnd items (S k) left' else k
  end.

(** A page before anything is shown. *)
Definition blank_page : page :=
  {| quotesContainer := EmptyString;
     authorName := EmptyString;
     authorContainer_width := EmptyString;
     animationFrames := O;
     hideSearchWith := false;
     motivationalQuotesCheckbox := true;
     quotesToggle_inactive := false;
     motivationalQuotesCont := "none";
     searchWithContainer := "flex" |}.

(** ** Notions for the providers *)

(** The first of the fields [keys] of [data] that is truthy, [fallback]
    when none is. *)
Fixpoint first_truthy (data : json) (keys : list string) (fallback : json) : json :=
  match keys with
  | nil => fallback
  | key :: rest =>
      match member data key with
      | Some j => if truthy (Some j) then j else first_truthy data rest fallback
      | None => first_truthy data rest fallback
      end
  end.

(** What a provider of one quote makes of the answer to its request for
    [address]: the errors by kind of answer, and for a JSON answer other
    than [null] the quote whose text is the first truthy one of the
    fields [texts], else the empty string, and whose author is the
    [author] of the answer, else its [by], else "Unknown". *)
Definition provider_law (e : env) (address : string) (texts : list string)
    (fn : M json) (s : state) : Prop :=
  (fn s).2 = logged_request address s /\
  match net e (length (requests s)) address with
  | Rejected => (fn s).1 = Throw NetworkError
  | Responded r =>
      if negb (ok r) then (fn s).1 = Throw HttpError
      else
        match body r with
        | None => (fn s).1 = Throw SyntaxError
        | Some JNull => (fn s).1 = Throw TypeError
        | Some data =>
            let quote := first_truthy data texts (JStr EmptyString) in
            let author := first_truthy data ("author" :: "by" :: nil) (JStr "Unknown") in
            (fn s).1 = Ok (JObj (("quote", quote) :: ("author", author) :: nil)) /\
            truthy (Some author) = true /\
            complete (JObj (("quote", quote) :: ("author", author) :: nil))
            = truthy (Some quote)
        end
  end.

(** What a loader of the multilingual source makes of the answer: the
    status of the response is not looked at. *)
Definition loader_law (e : env) (address : string) (fn : M json) (s : state) : Prop :=
  fn s
  = (match net e (length (requests s)) address with
     | Rejected => Throw NetworkError
     | Responded r =>
         match body r with
         | Some j => Ok j
         | None => Throw SyntaxError
         end
     end,
     logged_request address s).

(** ** Notions for the cache *)

(** A JSON value whose numbers are integers of magnitude up to 2^53:
    each of them is a double, written by [JSON_stringify] with all its
    digits, so that [JSON_parse] reads the value back. *)
Fixpoint plain (j : json) : bool :=
  match j with
  | JNum z => safe z
  | JArr items => forallb plain items
  | JObj fields => forallb (fun kv => plain (snd kv)) fields
  | _ => true
  end.
(** * Properties *)

#[local] Arguments num_leb : simpl never.
#[local] Arguments num_ltb : simpl never.
#[local] Arguments num_add : simpl never.
#[local] Arguments round64 : simpl never.
#[local] Arguments StringToNumber : simpl never.
#[local] Arguments number_text : simpl never.
#[local] Arguments big_text : simpl never.
#[local] Arguments utf16_units : simpl never.

(** ** Strings and numerals *)

Lemma string_length_app (a b : string) :
  String.length (a ++ b) = (String.length a + String.length b)%nat.
Proof. induction a as [|c a IH]; simpl; [reflexivity | now rewrite IH]. Qed.

Lemma string_app_assoc (a b c : string) : (a ++ b) ++ c = a ++ b ++ c.
Proof.
  induction a as [|x a IH]; [reflexivity|].
  change (String x ((a ++ b) ++ c) = String x (a ++ b ++ c)). now rewrite IH.
Qed.

Lemma string_app_empty (a : string) : a ++ EmptyString = a.
Proof.
  induction a as [|x a IH]; [reflexivity|].
  change (String x (a ++ EmptyString) = String x a). now rewrite IH.
Qed.

Lemma read_uint_stop (k : string) :
  no_digit_ahead k -> read_uint k = (Decimal.Nil, k).
Proof. destruct k as [|c k]; simpl; [reflexivity | now intros ->]. Qed.

Lemma read_uint_app (u : Decimal.uint) (k : string) :
  no_digit_ahead k -> read_uint (NilEmpty.string_of_uint u ++ k) = (u, k).
Proof.
  intros Hk. induction u; simpl; rewrite ?IHu; try reflexivity.
  now apply read_uint_stop.
Qed.

Lemma canonical_unorm (u : Decimal.uint) : canonical (Decimal.unorm u) = true.
Proof.
  induction u; simpl; try reflexivity. exact IHu.
Qed.

Lemma canonical_to_uint (n : N) : canonical (N.to_uint n) = true.
Proof.
  rewrite <- (DecimalN.Unsigned.of_to n) at 1.
  rewrite DecimalN.Unsigned.to_of. apply canonical_unorm.
Qed.
Lemma string_of_uint_head (u : Decimal.uint) (k : string) :
  canonical u = true ->
  exists c r, NilEmpty.string_of_uint u ++ k = String c r /\ is_digit c = true.
Proof.
  destruct u; simpl; try discriminate; intros _; eexists _, _; split; reflexivity.
Qed.

Lemma read_number_digits (u : Decimal.uint) (k : string) :
  canonical u = true -> no_digit_ahead k ->
  read_number (NilEmpty.string_of_uint u ++ k) = Some (Z.of_N (N.of_uint u), k).
Proof.
  intros Hu Hk.
  destruct (string_of_uint_head u k Hu) as (c & r & E & Hc).
  unfold read_number. rewrite E.
  replace (code c =? 45)%N with false.
  - rewrite <- E, (read_uint_app u k Hk), Hu. reflexivity.
  - unfold is_digit in Hc. apply andb_prop in Hc as [H1 _]. apply N.leb_le in H1.
    symmetry. apply N.eqb_neq. lia.
Qed.

Lemma read_number_dec (z : Z) (k : string) :
  no_digit_ahead k -> read_number (dec_of_Z z ++ k) = Some (z, k).
Proof.
  intros Hk. unfold dec_of_Z, dec_of_N. destruct (Z.ltb_spec z 0) as [Hz|Hz].
  - change (read_number (String "-" (NilEmpty.string_of_uint (N.to_uint (Z.abs_N z)) ++ k))
            = Some (z, k)).
    unfold read_number.
    change (code "-" =? 45)%N with true. cbv iota.
    rewrite (read_uint_app _ k Hk), canonical_to_uint, DecimalN.Unsigned.of_to.
    rewrite N2Z.inj_abs_N. f_equal. f_equal. lia.
  - rewrite read_number_digits by (apply canonical_to_uint || exact Hk).
    rewrite DecimalN.Unsigned.of_to, Z2N.id by lia. reflexivity.
Qed.

(** ** The JSON round trip *)

Lemma read_string_char (c : ascii) (t : string) :
  read_string (emit_char c t) = prepend (String c EmptyString) (read_string t).
Proof.
  destruct c as [[] [] [] [] [] [] [] []]; reflexivity.
Qed.

Lemma read_string_emit (s k : string) :
  read_string (emit_chars s (String dquote k)) = Some (s, k).
Proof.
  induction s as [|c s IH]; simpl.
  - reflexivity.
  - rewrite read_string_char, IH. reflexivity.
Qed.

Lemma dec_first (z : Z) :
  exists c r, dec_of_Z z = String c r /\ (code c =? 45)%N || is_digit c = true.
Proof.
  unfold dec_of_Z, dec_of_N. destruct (z <? 0).
  - eexists _, _; split; reflexivity.
  - destruct (string_of_uint_head (N.to_uint (Z.to_N z)) EmptyString (canonical_to_uint _))
      as (c & r & E & Hc).
    rewrite string_app_empty in E.
    exists c, r. split; [exact E | now rewrite Hc, orb_true_r].
Qed.

Lemma big_text_head (z m q : Z) :
  round64 z 1 = Finite m q ->
  exists c r, big_text z = String c r /\ (code c =? 45)%N || is_digit c = true.
Proof.
  intros E. unfold big_text. rewrite E. cbv zeta.
  destruct (shortest _ _ _ _ _) as [d p].
  destruct (_ <=? 21).
  - destruct (z <? 0); [eexists _, _; split; reflexivity|]. apply dec_first.
  - destruct (dec_first (drop_zeros d 400)) as (c & r & -> & Hc).
    destruct (z <? 0); [destruct r; eexists _, _; split; reflexivity|].
    destruct r; eexists _, _; (split; [reflexivity | exact Hc]).
Qed.

Lemma json_number_first (z : Z) :
  exists c r, json_number z = String c r /\ value_start c = true.
Proof.
  unfold json_number. destruct (safe z).
  - destruct (dec_first z) as (c & r & E & Hc). exists c, r. split; [exact E|].
    unfold value_start. cbv zeta.
    apply orb_prop in Hc as [-> | ->]; now rewrite !orb_true_r.
  - destruct (round64 z 1) as [|m q|negative] eqn:E;
      try (eexists _, _; split; reflexivity).
    destruct (big_text_head z m q E) as (c & r & Et & Hc). exists c, r.
    split; [exact Et|]. unfold value_start. cbv zeta.
    apply orb_prop in Hc as [-> | ->]; now rewrite !orb_true_r.
Qed.

Lemma json_number_head (z : Z) (k : string) :
  exists c r, json_number z ++ k = String c r /\ value_start c = true.
Proof.
  destruct (json_number_first z) as (c & r & -> & Hc).
  exists c, (r ++ k). split; [reflexivity | exact Hc].
Qed.

Lemma emit_head (j : json) (k : string) :
  exists c r, emit j k = String c r /\ value_start c = true.
Proof.
  destruct j as [| [] | z | s | items | fields]; simpl;
    try (eexists _, _; split; reflexivity).
  apply json_number_head.
Qed.
Ltac to_codes :=
  unfold value_start, numeric_start, is_json_space, is_digit in *;
  repeat match goal with
  | H : _ || _ = true |- _ => apply orb_prop in H
  | H : _ && _ = true |- _ => apply andb_prop in H
  | H : _ \/ _ |- _ => destruct H
  | H : _ /\ _ |- _ => destruct H
  | H : (_ =? _)%N = true |- _ => apply N.eqb_eq in H
  | H : (_ <=? _)%N = true |- _ => apply N.leb_le in H
  end.

Lemma dec_head (z : Z) (k : string) :
  exists c r, dec_of_Z z ++ k = String c r /\ numeric_start c = true.
Proof.
  unfold dec_of_Z, dec_of_N. destruct (z <? 0).
  - eexists _, _; split; reflexivity.
  - destruct (string_of_uint_head (N.to_uint (Z.to_N z)) k (canonical_to_uint _))
      as (c & r & E & Hc).
    exists c, r. split; [exact E|]. unfold numeric_start. rewrite Hc.
    now rewrite orb_true_r.
Qed.

Lemma code_eqb_false (c : ascii) (n : N) : code c <> n -> (code c =? n)%N = false.
Proof. intros H. now apply N.eqb_neq. Qed.

Lemma value_start_not_space (c : ascii) :
  value_start c = true -> is_json_space c = false.
Proof.
  intros H. unfold is_json_space. cbv zeta.
  to_codes; rewrite !code_eqb_false by lia; reflexivity.
Qed.

Lemma skip_ws_value (c : ascii) (r : string) :
  value_start c = true -> skip_ws (String c r) = String c r.
Proof. intros H. simpl. now rewrite value_start_not_space. Qed.

Lemma skip_ws_emit (j : json) (k : string) : skip_ws (emit j k) = emit j k.
Proof.
  destruct (emit_head j k) as (c & r & -> & Hc). now apply skip_ws_value.
Qed.

Lemma first_is_emit (j : json) (k : string) (n : N) :
  n = 93%N \/ n = 125%N -> first_is n (emit j k) = None.
Proof.
  intros Hn. destruct (emit_head j k) as (c & r & -> & Hc). simpl.
  rewrite code_eqb_false; [reflexivity|]. to_codes; lia.
Qed.

Lemma parse_value_numeral (f : nat) (c : ascii) (r : string) :
  numeric_start c = true ->
  parse_value (S f) (String c r) =
    match read_number (String c r) with
    | Some (z, k) => Some (JNum z, k)
    | None => None
    end.
Proof.
  intros H.
  assert (Hv : value_start c = true).
  { unfold value_start, numeric_start in *. cbv zeta.
    apply orb_prop in H as [-> | ->]; now rewrite !orb_true_r. }
  unfold parse_value; fold parse_value. rewrite (skip_ws_value c r Hv).
  rewrite !code_eqb_false; [reflexivity | to_codes; lia ..].
Qed.
Section Containers.
Variable pv : string -> option (json * string).

Lemma read_items_emit (rest : list json) :
  forall (x : json) (n : nat) (k : string),
    reads pv x -> Forall (reads pv) rest -> (length rest < n)%nat ->
    read_items pv n
      (emit x (fold_right (fun y acc => String "," (emit y acc)) (String "]" k) rest))
    = Some (x :: rest, k).
Proof.
  induction rest as [|y rest IH]; intros x n k Hx Hrest Hn;
    (destruct n as [|n]; [simpl in Hn; lia|]); simpl.
  - rewrite Hx by reflexivity. reflexivity.
  - rewrite Hx by reflexivity. simpl.
    apply Forall_cons_1 in Hrest as [Hy Hrest].
    rewrite (IH y n k Hy Hrest) by (simpl in Hn; lia). reflexivity.
Qed.

Lemma read_members_emit (rest : list (string * json)) :
  forall (key : string) (x : json) (n : nat) (k : string),
    reads pv x -> Forall (fun kv => reads pv (snd kv)) rest -> (length rest < n)%nat ->
    read_members pv n
      (emit_string key (String ":"
         (emit x (fold_right
                    (fun kv acc =>
                       String "," (emit_string (fst kv) (String ":" (emit (snd kv) acc))))
                    (String "}" k) rest))))
    = Some ((key, x) :: rest, k).
Proof.
  induction rest as [|[key' y] rest IH]; intros key x n k Hx Hrest Hn;
    (destruct n as [|n]; [simpl in Hn; lia|]).
  - unfold read_members, emit_string. simpl skip_ws.
    change (code dquote =? 34)%N with true. cbv iota.
    rewrite read_string_emit. simpl.
    rewrite Hx by reflexivity. reflexivity.
  - unfold read_members; fold read_members. unfold emit_string at 1. simpl skip_ws.
    change (code dquote =? 34)%N with true. cbv iota.
    rewrite read_string_emit. simpl skip_ws.
    change (code ":" =? 58)%N with true. cbv iota.
    simpl fold_right. rewrite Hx by reflexivity. simpl skip_ws.
    change (code "," =? 44)%N with true. cbv iota.
    apply Forall_cons_1 in Hrest as [Hy Hrest]. simpl in Hy, IH.
    rewrite (IH key' y n k Hy Hrest) by (simpl in Hn; lia). reflexivity.
Qed.
End Containers.

Lemma size_pos (j : json) : (1 <= nodes j)%nat.
Proof. destruct j; simpl; lia. Qed.

Lemma sum_sizes_bound (items : list json) (f : nat) :
  (fold_right (fun x acc => nodes x + acc)%nat O items <= f)%nat ->
  Forall (fun x => nodes x <= f)%nat items /\ (length items <= f)%nat.
Proof.
  revert f. induction items as [|x items IH]; simpl; intros f H.
  - split; [constructor | lia].
  - pose proof (size_pos x).
    destruct (IH (f - nodes x)%nat) as [H1 H2]; [lia|]. split; [|lia].
    constructor; [lia|]. eapply Forall_impl; [exact H1|]. simpl. intros; lia.
Qed.

Lemma sum_field_sizes_bound (fields : list (string * json)) (f : nat) :
  (fold_right (fun kv acc => nodes (snd kv) + acc)%nat O fields <= f)%nat ->
  Forall (fun kv => nodes (snd kv) <= f)%nat fields /\ (length fields <= f)%nat.
Proof.
  revert f. induction fields as [|x fields IH]; simpl; intros f H.
  - split; [constructor | lia].
  - pose proof (size_pos (snd x)).
    destruct (IH (f - nodes (snd x))%nat) as [H1 H2]; [lia|]. split; [|lia].
    constructor; [lia|]. eapply Forall_impl; [exact H1|]. simpl. intros; lia.
Qed.

Lemma plain_items (x : json) (rest : list json) :
  plain (JArr (x :: rest)) = true -> plain x = true /\ plain (JArr rest) = true.
Proof. simpl. intros H. now apply andb_prop in H. Qed.

Lemma plain_fields (key : string) (x : json) (rest : list (string * json)) :
  plain (JObj ((key, x) :: rest)) = true -> plain x = true /\ plain (JObj rest) = true.
Proof. simpl. intros H. now apply andb_prop in H. Qed.

(** Parsing the text of a plain value gives the value back, and stops
    after it. *)
Lemma parse_emit (j : json) :
  forall (f : nat) (k : string),
    plain j = true ->
    (nodes j <= f)%nat -> no_digit_ahead k -> parse_value f (emit j k) = Some (j, k).
Proof.
  induction j as [| b | z | s | items IH | fields IH] using json_ind;
    intros f k Hp Hf Hk; (destruct f as [|f]; [pose proof (size_pos JNull); simpl in Hf; lia|]).
  - reflexivity.
  - destruct b; reflexivity.
  - simpl emit. unfold json_number. simpl in Hp. rewrite Hp.
    destruct (dec_head z k) as (c & r & E & Hc).
    rewrite E, (parse_value_numeral f c r Hc), <- E, (read_number_dec z k Hk).
    reflexivity.
  - unfold emit, emit_string. unfold parse_value; fold parse_value. simpl skip_ws.
    change (code dquote =? 91)%N with false.
    change (code dquote =? 123)%N with false.
    change (code dquote =? 34)%N with true. cbv iota.
    now rewrite read_string_emit.
  - simpl in Hf. apply le_S_n in Hf.
    destruct (sum_sizes_bound items f Hf) as [Hall Hlen].
    destruct items as [|x rest]; [reflexivity|].
    simpl emit. unfold parse_value; fold parse_value. simpl skip_ws.
    change (code "[" =? 91)%N with true. cbv iota.
    rewrite skip_ws_emit, first_is_emit by auto.
    apply Forall_cons_1 in IH as [IHx IHrest].
    apply Forall_cons_1 in Hall as [Hx Hrest].
    apply plain_items in Hp as [Hpx Hprest].
    rewrite read_items_emit; [reflexivity | | | simpl in Hlen; lia].
    + intros k' Hk'. now apply IHx.
    + clear -IHrest Hrest Hprest. induction rest as [|y rest IHr]; [constructor|].
      apply Forall_cons_1 in IHrest as [IHy IHrest].
      apply Forall_cons_1 in Hrest as [Hy Hrest].
      apply plain_items in Hprest as [Hpy Hprest].
      constructor; [|now apply IHr]. intros k' Hk'. now apply IHy.
  - simpl in Hf. apply le_S_n in Hf.
    destruct (sum_field_sizes_bound fields f Hf) as [Hall Hlen].
    destruct fields as [|[key x] rest]; [reflexivity|].
    simpl emit. unfold parse_value; fold parse_value. simpl skip_ws.
    change (code "{" =? 91)%N with false.
    change (code "{" =? 123)%N with true. cbv iota.
    unfold emit_string at 1. simpl skip_ws. simpl first_is. 
    change (code dquote =? 125)%N with false. cbv iota.
    apply Forall_cons_1 in IH as [IHx IHrest].
    apply Forall_cons_1 in Hall as [Hx Hrest].
    change (String dquote (emit_chars key (String dquote ?t))) with (emit_string key t).
    apply plain_fields in Hp as [Hpx Hprest].
    rewrite read_members_emit; [reflexivity | | | simpl in Hlen; lia].
    + intros k' Hk'. now apply IHx.
    + clear -IHrest Hrest Hprest. induction rest as [|[key' y] rest IHr]; [constructor|].
      apply Forall_cons_1 in IHrest as [IHy IHrest].
      apply Forall_cons_1 in Hrest as [Hy Hrest].
      apply plain_fields in Hprest as [Hpy Hprest].
      constructor; [|now apply IHr]. intros k' Hk'. now apply IHy.
Qed.
Lemma emit_chars_length (s k : string) :
  (String.length k <= String.length (emit_chars s k))%nat.
Proof.
  induction s as [|c s IH]; simpl; [lia|].
  unfold emit_char. cbv zeta.
  repeat match goal with |- context [if ?b then _ else _] => destruct b end;
    simpl; lia.
Qed.

Lemma emit_string_length (s k : string) :
  (2 + String.length k <= String.length (emit_string s k))%nat.
Proof.
  unfold emit_string. pose proof (emit_chars_length s (String dquote k)).
  simpl in *. lia.
Qed.

(** The text of a value is at least as long as the value has nodes. *)
Lemma emit_length (j : json) :
  forall k, (nodes j + String.length k <= String.length (emit j k))%nat.
Proof.
  induction j as [| b | z | s | items IH | fields IH] using json_ind; intros k.
  - simpl emit. rewrite string_length_app. simpl. lia.
  - destruct b; simpl emit; rewrite string_length_app; simpl; lia.
  - simpl emit. destruct (json_number_first z) as (c & r & -> & _).
    rewrite string_length_app. simpl. lia.
  - pose proof (emit_string_length s k). simpl in *. lia.
  - destruct items as [|x rest]; [simpl; lia|].
    apply Forall_cons_1 in IH as [IHx IHrest]. simpl.
    match goal with |- context [emit x ?t] => specialize (IHx t); set (tl := t) in * end.
    enough (fold_right (fun x acc => nodes x + acc) O rest + S (String.length k)
            <= String.length tl)%nat by lia.
    subst tl. clear IHx. induction rest as [|y rest IHr]; simpl; [lia|].
    apply Forall_cons_1 in IHrest as [IHy IHrest].
    match goal with |- context [emit y ?t] => specialize (IHy t) end.
    specialize (IHr IHrest). lia.
  - destruct fields as [|[key x] rest]; [simpl; lia|].
    apply Forall_cons_1 in IH as [IHx IHrest]. simpl in IHx. simpl nodes. simpl emit.
    match goal with |- context [emit x ?t] => specialize (IHx t); set (tl := t) in * end.
    pose proof (emit_string_length key (String ":" (emit x tl))) as Hkey.
    enough (fold_right (fun kv acc => nodes (snd kv) + acc) O rest + S (String.length k)
            <= String.length tl)%nat by (simpl in *; lia).
    subst tl. clear IHx Hkey. induction rest as [|[key' y] rest IHr]; simpl; [lia|].
    apply Forall_cons_1 in IHrest as [IHy IHrest]. simpl in IHy.
    match goal with |- context [emit y ?t] => specialize (IHy t); set (tl := t) in * end.
    pose proof (emit_string_length key' (String ":" (emit y tl))) as Hkey.
    specialize (IHr IHrest). simpl in *. lia.
Qed.

(** [JSON.parse(JSON.stringify(j))] is [j] for a plain [j]. *)
Lemma JSON_parse_stringify (j : json) :
  plain j = true -> JSON_parse (JSON_stringify j) = Some j.
Proof.
  intros Hp. unfold JSON_parse, JSON_stringify.
  rewrite parse_emit; [reflexivity | exact Hp | | exact I].
  pose proof (emit_length j EmptyString). lia.
Qed.

(** The text of a value is never the empty string. *)
Lemma JSON_stringify_nonempty (j : json) : JSON_stringify j <> EmptyString.
Proof.
  unfold JSON_stringify. destruct (emit_head j EmptyString) as (c & r & -> & _).
  discriminate.
Qed.

(** ** Target language *)

Lemma num_leb_integers (a b : Z) : num_leb (Finite a 0) (Finite b 0) = (a <=? b).
Proof. unfold num_leb, aligned. cbn. now rewrite !Z.mul_1_r. Qed.

Lemma falsy_has_no_count (v : jsval) :
  truthy v = false -> opt_member v "count" = None.
Proof.
  destruct v as [[| b | z | s | items | fields]|]; simpl; try reflexivity; discriminate.
Qed.

Lemma getTargetLanguage_eq (L : string) (md : jsval) :
  getTargetLanguage L md =
    if String.eqb L "en" then Ok "en"
    else
      match js_ge (reported_count md L) MIN_QUOTES_FOR_LANG with
      | Some true => Ok L
      | Some false => Ok "en"
      | None => Throw TypeError
      end.
Proof.
  unfold getTargetLanguage, reported_count. destruct (String.eqb L "en"); [reflexivity|].
  destruct (truthy _) eqn:T.
  - destruct (opt_member (opt_member md "files") (L ++ ".json")) as [[| | | | |]|];
      try discriminate T; reflexivity.
  - rewrite (falsy_has_no_count _ T). reflexivity.
Qed.

(** C7, as amended. English resolves to English whatever the metadata.
    Another language [L] resolves to itself exactly when the metadata
    reports for the file of [L] a count that reads as a number of at least
    100, and to English exactly when the count reads as a number that is
    not; the call throws a [TypeError] exactly when the count cannot be
    read as a number at all. By kind of count: no count gives English; an
    integer [c] gives [L] when [100 <= c] and English otherwise; a string
    is read as [Number] reads it; an object without an own [toString]
    gives English, and one with an own [toString] makes the call throw. *)
Theorem getTargetLanguage_spec (L : string) (md : jsval) :
  getTargetLanguage "en" md = Ok "en" /\
  (L <> "en" ->
     (getTargetLanguage L md = Ok L <-> reports_at_least md L 100) /\
     (getTargetLanguage L md = Ok "en" <->
        exists x, ToNumber (reported_count md L) = Some x /\ num_leb (Finite 100 0) x = false) /\
     (getTargetLanguage L md = Throw TypeError <-> ToNumber (reported_count md L) = None) /\
     (reported_count md L = None -> getTargetLanguage L md = Ok "en") /\
     (forall c, reported_count md L = Some (JNum c) ->
                getTargetLanguage L md = Ok (if 100 <=? c then L else "en")) /\
     (forall t, reported_count md L = Some (JStr t) ->
                getTargetLanguage L md
                = Ok (if num_leb (Finite 100 0) (StringToNumber t) then L else "en")) /\
     (forall fields, reported_count md L = Some (JObj fields) ->
                getTargetLanguage L md
                = match lookup_field "toString" fields with
                  | Some _ => Throw TypeError
                  | None => Ok "en"
                  end)).
Proof.
  split; [reflexivity|]. intros HL.
  rewrite getTargetLanguage_eq.
  destruct (String.eqb_spec L "en") as [|_]; [contradiction|].
  change MIN_QUOTES_FOR_LANG with 100. unfold js_ge, reports_at_least.
  assert (HL' : @Ok string L <> Ok "en") by congruence.
  split; [|split; [|split; [|split; [|split; [|split]]]]].
  - destruct (ToNumber (reported_count md L)) as [x|]; simpl.
    + destruct (num_leb (Finite 100 0) x) eqn:G.
      * split; [intros _; now exists x | reflexivity].
      * split; [intros [=]; congruence | intros (y & [= <-] & H); congruence].
    + split; [discriminate | intros (y & [=] & _)].
  - destruct (ToNumber (reported_count md L)) as [x|]; simpl.
    + destruct (num_leb (Finite 100 0) x) eqn:G.
      * split; [intros E; contradiction | intros (y & [= <-] & H); congruence].
      * split; [intros _; now exists x | reflexivity].
    + split; [discriminate | intros (y & [=] & _)].
  - destruct (ToNumber (reported_count md L)) as [x|]; simpl.
    + destruct (num_leb (Finite 100 0) x); split; discriminate.
    + split; reflexivity.
  - intros ->. reflexivity.
  - intros c ->. simpl. rewrite num_leb_integers. now destruct (100 <=? c).
  - intros t ->. simpl. now destruct (num_leb _ _).
  - intros fields ->. simpl. destruct (lookup_field "toString" fields); reflexivity.
Qed.

Lemma getTargetLanguage_spec_witness :
  getTargetLanguage "fr" (Some sample_metadata) = Ok "fr".
Proof.
  apply (proj2 (getTargetLanguage_spec "fr" (Some sample_metadata)));
    [discriminate | exists (Finite 150 0); split; reflexivity].
Defined.

(** C7, as first stated, fails on a count that is an object with a
    property [toString]: the comparison throws, so the call returns
    neither the language nor English. *)
Lemma getTargetLanguage_throws_counterexample :
  let md := JObj (("files",
              JObj (("fr.json",
                     JObj (("count", JObj (("toString", JNum 1) :: nil)) :: nil)) :: nil))
              :: nil) in
  getTargetLanguage "fr" (Some md) = Throw TypeError /\
  getTargetLanguage "fr" (Some md) <> Ok "fr" /\
  getTargetLanguage "fr" (Some md) <> Ok "en".
Proof. vm_compute. repeat split; discriminate. Qed.

(** A count written as a string is read as a number: "1e3" and "150.0"
    are at least 100, "99.5" and "many" are not. *)
Example getTargetLanguage_string_counts :
  let md (count : string) :=
    Some (JObj (("files",
                 JObj (("fr.json", JObj (("count", JStr count) :: nil)) :: nil)) :: nil)) in
  getTargetLanguage "fr" (md "1e3") = Ok "fr" /\
  getTargetLanguage "fr" (md "150.0") = Ok "fr" /\
  getTargetLanguage "fr" (md "0x64") = Ok "fr" /\
  getTargetLanguage "fr" (md "99.5") = Ok "en" /\
  getTargetLanguage "fr" (md "many") = Ok "en".
Proof. vm_compute. repeat split. Qed.

(** ** Staleness *)

Lemma item_falsy_present (st : store) (key : string) :
  item_falsy st key = false <-> present st key.
Proof.
  unfold item_falsy, item_falsy_value, present. destruct (st !! key) as [v|].
  - destruct (String.eqb_spec v EmptyString) as [->|Hv].
    + split; [discriminate | intros (w & [= <-] & Hw); contradiction].
    + split; [intros _; exists v; auto | reflexivity].
  - split; [discriminate | intros (w & [=] & _)].
Qed.

Lemma needsDataFetch_offline (e : env) (s : state) (lang : string) :
  onLine e = false -> needsDataFetch e s lang = false.
Proof. intros H. unfold needsDataFetch. now rewrite H. Qed.

Lemma threshold_ms (count : Z) :
  threshold_hours count * HOUR =
    if count =? 0 then ONE_DAY
    else if count <? MIN_QUOTES_FOR_LANG then ONE_DAY else 7 * ONE_DAY.
Proof.
  unfold threshold_hours, MIN_QUOTES_FOR_LANG.
  destruct (count =? 0); [reflexivity|]. destruct (count <? 100); reflexivity.
Qed.

(** Online, with the language unchanged and the three keys filled, the
    answer is the comparison of the age with the threshold. *)
Lemma needsDataFetch_reached (e : env) (s : state) (lang : string) :
  onLine e = true ->
  languageChanged e s = false ->
  present (localStorage s) (quotes_key lang) ->
  present (localStorage s) (timestamp_key lang) ->
  present (localStorage s) (count_key lang) ->
  needsDataFetch e s lang =
    num_gt ((fun t => Date_now e - t)
              <$> Date_parse e (item_text (localStorage s) (timestamp_key lang)))
           (threshold_hours (storedCount (localStorage s) lang) * HOUR).
Proof.
  intros Hon Hlang Hq Ht Hc. unfold needsDataFetch.
  rewrite Hon. unfold languageChanged in Hlang. cbn [negb]. rewrite Hlang.
  apply item_falsy_present in Hq, Ht, Hc. cbv zeta. cbn [existsb].
  rewrite Hq, Ht, Hc. cbn [orb]. rewrite threshold_ms.
  destruct (storedCount (localStorage s) lang =? 0); [reflexivity|].
  destruct (storedCount (localStorage s) lang <? MIN_QUOTES_FOR_LANG); reflexivity.
Qed.

(** C3, as amended. When the caller is online, the language is unchanged,
    the three keys of [lang] are filled and the stored timestamp reads as
    the instant [t], a refresh is needed exactly when the age strictly
    exceeds the threshold: 24 hours for a stored count of 0, 24 hours for a
    count strictly between 0 and 100, 168 hours for a count of at least
    100. An age equal to the threshold is not stale; one millisecond more
    is. *)
Theorem needsDataFetch_threshold (e : env) (s : state) (lang ts : string) (t : Z) :
  onLine e = true ->
  languageChanged e s = false ->
  present (localStorage s) (quotes_key lang) ->
  localStorage s !! timestamp_key lang = Some ts -> ts <> EmptyString ->
  present (localStorage s) (count_key lang) ->
  Date_parse e ts = Some t ->
  let count := storedCount (localStorage s) lang in
  let age := Date_now e - t in
  (needsDataFetch e s lang = true <-> threshold_hours count * HOUR < age) /\
  (count = 0 -> threshold_hours count = 24) /\
  (0 < count < 100 -> threshold_hours count = 24) /\
  (100 <= count -> threshold_hours count = 168) /\
  (age = threshold_hours count * HOUR -> needsDataFetch e s lang = false) /\
  (age = threshold_hours count * HOUR + 1 -> needsDataFetch e s lang = true).
Proof.
  intros Hon Hlang Hq Hts Hne Hc Hparse count age.
  assert (E : needsDataFetch e s lang = (threshold_hours count * HOUR <? age)).
  { rewrite needsDataFetch_reached; auto; [|exists ts; auto].
    unfold item_text. rewrite Hts, Hparse. reflexivity. }
  rewrite E. split; [apply Z.ltb_lt|].
  unfold threshold_hours.
  split; [intros ->; reflexivity|].
  split; [intros H; destruct (Z.eqb_spec count 0), (Z.ltb_spec count 100); lia || reflexivity|].
  split; [intros H; destruct (Z.eqb_spec count 0), (Z.ltb_spec count 100); lia || reflexivity|].
  split; intros ->; [apply Z.ltb_irrefl | apply Z.ltb_lt; lia].
Qed.

Lemma needsDataFetch_threshold_witness :
  needsDataFetch (host "fr" true (new_year + 7 * ONE_DAY + 1) unreachable)
    (initial (french_cache "[]" "150") (Some "fr")) "fr" = true.
Proof.
  apply (needsDataFetch_threshold
           (host "fr" true (new_year + 7 * ONE_DAY + 1) unreachable)
           (initial (french_cache "[]" "150") (Some "fr")) "fr"
           "2025-01-01T00:00:00.000Z" new_year); try reflexivity.
  - exists "[]". split; [reflexivity | discriminate].
  - discriminate.
  - exists "150". split; [reflexivity | discriminate].
Defined.

(** C3, as first stated, fails offline: the three keys are filled, the
    language is unchanged, the entry is eight days old with a count of 150,
    and no refresh is asked for. *)
Lemma needsDataFetch_offline_counterexample :
  let e := host "fr" false (new_year + 8 * ONE_DAY) unreachable in
  let s := initial (french_cache "[]" "150") (Some "fr") in
  present (localStorage s) (quotes_key "fr") /\
  present (localStorage s) (timestamp_key "fr") /\
  present (localStorage s) (count_key "fr") /\
  languageChanged e s = false /\
  Date_parse e (item_text (localStorage s) (timestamp_key "fr")) = Some new_year /\
  threshold_hours (storedCount (localStorage s) "fr") * HOUR < Date_now e - new_year /\
  needsDataFetch e s "fr" = false.
Proof.
  cbv zeta. repeat split; try reflexivity; try discriminate.
  - exists "[]". split; [reflexivity | discriminate].
  - exists "2025-01-01T00:00:00.000Z". split; [reflexivity | discriminate].
  - exists "150". split; [reflexivity | discriminate].
Qed.

Lemma timestamp_key_not_count_key (lang : string) : timestamp_key lang <> count_key lang.
Proof.
  intros E. apply (f_equal String.length) in E. unfold timestamp_key, count_key in E.
  rewrite !string_length_app in E. simpl in E. lia.
Qed.

Lemma item_falsy_insert (st : store) (key v w k : string) :
  st !! key = Some v -> v <> EmptyString -> w <> EmptyString ->
  item_falsy (<[key := w]> st) k = item_falsy st k.
Proof.
  intros Hv Hne Hw. unfold item_falsy. destruct (decide (key = k)) as [<-|Hk].
  - rewrite lookup_insert_eq, Hv. simpl.
    destruct (String.eqb_spec w EmptyString), (String.eqb_spec v EmptyString); congruence.
  - now rewrite lookup_insert_ne.
Qed.

Lemma needsDataFetch_missing (e : env) (s : state) (lang key : string) :
  In key (quotes_key lang :: timestamp_key lang :: count_key lang :: nil) ->
  item_falsy (localStorage s) key = true ->
  needsDataFetch e s lang = onLine e.
Proof.
  intros Hin Hf. unfold needsDataFetch. destruct (onLine e); [|reflexivity]. cbn [negb].
  destruct (match lastKnownLanguage s with Some _ => _ | None => _ end); [reflexivity|].
  cbv zeta.
  replace (existsb _ _) with true; [reflexivity|].
  symmetry. apply existsb_exists. exists key. auto.
Qed.

(** C10, as amended. The staleness check answers in every state: offline
    no; online after a change of language yes; online with one of the
    three keys absent or empty yes; otherwise by the age of the entry,
    and no when the timestamp is not a date. A non-empty stored count that
    [parseInt] reads as [NaN] counts as 0: when the check reaches the
    thresholds it answers yes exactly when the entry is older than 24
    hours, and in every state it answers as for a stored count of ["0"].
    An empty string under any of the three keys is treated as an absent
    key, and with either the answer is yes exactly when the caller is
    online. *)
Theorem needsDataFetch_malformed (e : env) (s : state) (lang : string) :
  (forall v ts,
     onLine e = true -> languageChanged e s = false ->
     present (localStorage s) (quotes_key lang) ->
     localStorage s !! timestamp_key lang = Some ts -> ts <> EmptyString ->
     localStorage s !! count_key lang = Some v -> v <> EmptyString -> parseInt v = None ->
     needsDataFetch e s lang
     = match Date_parse e ts with
       | Some t => 24 * HOUR <? Date_now e - t
       | None => false
       end) /\
  (forall v,
     localStorage s !! count_key lang = Some v -> v <> EmptyString -> parseInt v = None ->
     needsDataFetch e s lang
     = needsDataFetch e (set_store (<[count_key lang := "0"]> (localStorage s)) s) lang) /\
  (forall key,
     In key (quotes_key lang :: timestamp_key lang :: count_key lang :: nil) ->
     localStorage s !! key = Some EmptyString ->
     needsDataFetch e s lang = needsDataFetch e (set_store (delete key (localStorage s)) s) lang /\
     needsDataFetch e s lang = onLine e) /\
  needsDataFetch e s lang
  = (if negb (onLine e) then false
     else if languageChanged e s then true
     else if existsb (item_falsy (localStorage s))
               (quotes_key lang :: timestamp_key lang :: count_key lang :: nil) then true
     else match Date_parse e (item_text (localStorage s) (timestamp_key lang)) with
          | Some t =>
              (if storedCount (localStorage s) lang =? 0 then 24 * HOUR
               else if storedCount (localStorage s) lang <? 100 then 24 * HOUR
               else 168 * HOUR) <? Date_now e - t
          | None => false
          end).
Proof.
  split; [|split; [|split]].
  - intros v ts Hon Hlang Hq Hts Hne Hv Hv' Hnan.
    assert (C : storedCount (localStorage s) lang = 0).
    { unfold storedCount, item_text. now rewrite Hv, Hnan. }
    rewrite needsDataFetch_reached; auto; [|exists ts; auto|exists v; auto].
    rewrite C. unfold item_text. rewrite Hts.
    destruct (Date_parse e ts); reflexivity.
  - intros v Hv Hne Hnan.
    assert (C : storedCount (localStorage s) lang = 0).
    { unfold storedCount, item_text. now rewrite Hv, Hnan. }
    unfold needsDataFetch. cbn [localStorage lastKnownLanguage set_store].
    destruct (onLine e); [|reflexivity]. cbn [negb].
    destruct (match lastKnownLanguage s with Some _ => _ | None => _ end); [reflexivity|].
    cbv zeta. cbn [existsb].
    rewrite !(item_falsy_insert _ _ v "0" _ Hv Hne) by discriminate.
    destruct (_ || _); [reflexivity|].
    rewrite C.
    replace (storedCount (<[count_key lang:="0"]> (localStorage s)) lang) with 0
      by (unfold storedCount, item_text; now rewrite lookup_insert_eq).
    replace (item_text (<[count_key lang:="0"]> (localStorage s)) (timestamp_key lang))
      with (item_text (localStorage s) (timestamp_key lang)); [reflexivity|].
    unfold item_text.
    now rewrite lookup_insert_ne by (apply not_eq_sym, timestamp_key_not_count_key).
  - intros key Hin Hv. split.
    + rewrite (needsDataFetch_missing e s lang key Hin)
        by (unfold item_falsy; now rewrite Hv).
      rewrite (needsDataFetch_missing e _ lang key Hin); [reflexivity|].
      cbn [localStorage set_store]. unfold item_falsy. now rewrite lookup_delete_eq.
    + apply (needsDataFetch_missing e s lang key Hin). unfold item_falsy. now rewrite Hv.
  - unfold needsDataFetch, languageChanged. destruct (onLine e); [|reflexivity]. cbn [negb].
    destruct (match lastKnownLanguage s with Some _ => _ | None => _ end); [reflexivity|].
    cbv zeta. destruct (existsb _ _); [reflexivity|].
    change MIN_QUOTES_FOR_LANG with 100.
    destruct (Date_parse e _) as [t|]; cbn [fmap option_fmap option_map num_gt];
      (destruct (storedCount (localStorage s) lang =? 0); [reflexivity|]);
      destruct (storedCount (localStorage s) lang <? 100); reflexivity.
Qed.

Lemma needsDataFetch_malformed_witness :
  needsDataFetch (host "fr" true (new_year + ONE_DAY + 1) unreachable)
    (initial (french_cache "[]" "many") (Some "fr")) "fr" = true.
Proof.
  rewrite (proj1 (needsDataFetch_malformed
                    (host "fr" true (new_year + ONE_DAY + 1) unreachable)
                    (initial (french_cache "[]" "many") (Some "fr")) "fr")
             "many" "2025-01-01T00:00:00.000Z");
    [reflexivity | reflexivity | reflexivity | | reflexivity | discriminate
     | reflexivity | discriminate | reflexivity].
  exists "[]". split; [reflexivity | discriminate].
Defined.

(** A count behind a no-break space is a count: [parseInt] skips the white
    space of Unicode. A count written with an exponent is read up to the
    letter. *)
Example parseInt_white_space :
  parseInt (String (ascii_of_N 194) (String (ascii_of_N 160) "150")) = Some 150 /\
  parseInt (String (ascii_of_N 9) " 150 quotes") = Some 150 /\
  parseInt "1e+21" = Some 1 /\
  parseInt "0x1F" = Some 31 /\
  parseInt "many" = None.
Proof. vm_compute. repeat split. Qed.

(** C10, as first stated, fails offline: with the empty string under the
    quotes key no refresh is asked for. *)
Lemma needsDataFetch_empty_counterexample :
  let e := host "fr" false (new_year + ONE_DAY) unreachable in
  let s := initial (french_cache EmptyString "150") (Some "fr") in
  localStorage s !! quotes_key "fr" = Some EmptyString /\
  needsDataFetch e s "fr" = false.
Proof. split; reflexivity. Qed.

(** ** Purges *)

Lemma foldl_delete_lookup (P : string -> bool) (l : list string) :
  forall (acc : store) (k : string),
    foldl (fun acc key => if P key then delete key acc else acc) acc l !! k
    = if P k && bool_decide (k ∈ l) then None else acc !! k.
Proof.
  induction l as [|key l IH]; intros acc k; simpl.
  - rewrite andb_false_r. reflexivity.
  - rewrite IH. destruct (P k) eqn:Pk; simpl.
    + destruct (decide (k = key)) as [->|Hne].
      * rewrite Pk, lookup_delete_eq.
        rewrite (bool_decide_true (key ∈ key :: l)) by (left; reflexivity).
        now destruct (bool_decide _).
      * assert (E : bool_decide (k ∈ key :: l) = bool_decide (k ∈ l)).
        { apply bool_decide_ext. rewrite elem_of_cons. tauto. }
        rewrite E. destruct (bool_decide (k ∈ l)); [reflexivity|].
        destruct (P key); [now rewrite lookup_delete_ne|reflexivity].
    + destruct (P key) eqn:Pkey; [|reflexivity].
      destruct (decide (key = k)) as [->|Hne]; [congruence|].
      now rewrite lookup_delete_ne.
Qed.

Lemma keys_spec (st : store) (k : string) : k ∈ keys st <-> is_Some (st !! k).
Proof.
  unfold keys. rewrite list_elem_of_fmap. split.
  - intros ([k' v] & -> & H). apply elem_of_map_to_list in H. simpl. eauto.
  - intros [v H]. exists (k, v). split; [reflexivity|]. now apply elem_of_map_to_list.
Qed.

(** What [clearOtherLanguageQuotes] leaves under each key. *)
Lemma clearOtherLanguageQuotes_lookup (exceptLang : string) (st : store) (k : string) :
  clearOtherLanguageQuotes exceptLang st !! k
  = if purged exceptLang k then None else st !! k.
Proof.
  unfold clearOtherLanguageQuotes. rewrite foldl_delete_lookup.
  destruct (purged exceptLang k); [|reflexivity]. simpl.
  destruct (bool_decide_reflect (k ∈ keys st)) as [H|H]; [reflexivity|].
  rewrite keys_spec in H. destruct (st !! k); [|reflexivity]. exfalso. eauto.
Qed.

Lemma clearQuotesStorage_lookup (st : store) (k : string) :
  clearQuotesStorage st !! k = if startsWith "quotes_" k then None else st !! k.
Proof.
  unfold clearQuotesStorage. rewrite foldl_delete_lookup.
  destruct (startsWith "quotes_" k); [|reflexivity]. simpl.
  destruct (bool_decide_reflect (k ∈ keys st)) as [H|H]; [reflexivity|].
  rewrite keys_spec in H. destruct (st !! k); [|reflexivity]. exfalso. eauto.
Qed.

Lemma prefix_app (p k : string) : String.prefix p (p ++ k) = true.
Proof.
  induction p as [|c p IH]; [now destruct k|].
  change (String.prefix (String c p) (String c (p ++ k)) = true). simpl.
  destruct (Ascii.ascii_dec c c); [exact IH | contradiction].
Qed.

Lemma includes_prefix (p key : string) : String.prefix p key = true -> includes p key = true.
Proof. destruct key; simpl; intros ->; reflexivity. Qed.

(** A key that begins with [quotes_] followed by the kept language is
    never selected by the purge. *)
Lemma purged_extension (exceptLang rest : string) :
  purged exceptLang ("quotes_" ++ exceptLang ++ rest) = false.
Proof.
  unfold purged.
  replace (includes ("quotes_" ++ exceptLang) ("quotes_" ++ exceptLang ++ rest)) with true.
  - now rewrite andb_false_r.
  - symmetry. apply includes_prefix.
    rewrite <- (string_app_assoc "quotes_" exceptLang rest). apply prefix_app.
Qed.

(** The part of the purge that is as specified: the three keys of the kept
    language, the metadata timestamp key and the keys that do not start
    with [quotes_] keep their values, and a key that starts with [quotes_]
    and does not contain [quotes_] followed by the kept language is
    deleted. *)
Lemma clearOtherLanguageQuotes_frame (exceptLang : string) (st : store) (key : string) :
  (keys_of exceptLang key \/ key = metadata_timestamp_key \/ startsWith "quotes_" key = false ->
   clearOtherLanguageQuotes exceptLang st !! key = st !! key) /\
  (startsWith "quotes_" key = true ->
   includes ("quotes_" ++ exceptLang) key = false ->
   key <> metadata_timestamp_key ->
   clearOtherLanguageQuotes exceptLang st !! key = None).
Proof.
  rewrite clearOtherLanguageQuotes_lookup. split.
  - intros [[-> | [-> | ->]] | [-> | H]].
    + unfold quotes_key. rewrite <- (string_app_empty exceptLang) at 2.
      now rewrite purged_extension.
    + unfold timestamp_key. now rewrite purged_extension.
    + unfold count_key. now rewrite purged_extension.
    + unfold purged. simpl. now rewrite andb_false_r.
    + unfold purged. now rewrite H.
  - intros H1 H2 H3. unfold purged. rewrite H1, H2. simpl.
    destruct (String.eqb_spec key "quotes_metadata_timestamp"); [contradiction|reflexivity].
Qed.

(** C8, at the failing input: keeping [zh], the three keys of the other
    language [zh_TW] survive the purge, while those of [fr] are deleted. So
    it is for every language whose code extends the kept one: its keys
    keep their values. *)
Theorem clearOtherLanguageQuotes_keeps_extension :
  (let st : store :=
     <[quotes_key "zh_TW" := "[]"]>
       (<[timestamp_key "zh_TW" := "2025-01-01T00:00:00.000Z"]>
          (<[count_key "zh_TW" := "0"]> (french_cache "[]" "150"))) in
   let st' := clearOtherLanguageQuotes "zh" st in
   st' !! quotes_key "zh_TW" = Some "[]" /\
   st' !! timestamp_key "zh_TW" = Some "2025-01-01T00:00:00.000Z" /\
   st' !! count_key "zh_TW" = Some "0" /\
   st' !! quotes_key "fr" = None /\
   st' !! timestamp_key "fr" = None /\
   st' !! count_key "fr" = None) /\
  (forall (keep suffix : string) (st : store) (key : string),
     keys_of (keep ++ suffix) key ->
     clearOtherLanguageQuotes keep st !! key = st !! key).
Proof.
  split.
  - cbv zeta. rewrite !clearOtherLanguageQuotes_lookup. repeat split; reflexivity.
  - intros keep suffix st key Hkey. rewrite clearOtherLanguageQuotes_lookup.
    replace (purged keep key) with false; [reflexivity|]. symmetry.
    destruct Hkey as [-> | [-> | ->]]; unfold quotes_key, timestamp_key, count_key;
      rewrite ?string_app_assoc; apply purged_extension.
Qed.

(** ** Stored counts *)

Lemma read_uint_string (u : Decimal.uint) :
  read_uint (NilEmpty.string_of_uint u) = (u, EmptyString).
Proof. induction u; simpl; rewrite ?IHu; reflexivity. Qed.

Lemma parse_magnitude_digits (u : Decimal.uint) :
  canonical u = true ->
  parse_magnitude (NilEmpty.string_of_uint u) = Some (N.of_uint u).
Proof.
  intros Hu.
  assert (D : read_decimal (NilEmpty.string_of_uint u) = Some (N.of_uint u)).
  { unfold read_decimal. rewrite read_uint_string. destruct u; try reflexivity. discriminate. }
  destruct u as [|u|u|u|u|u|u|u|u|u|u]; try discriminate;
    try (simpl NilEmpty.string_of_uint in *; unfold parse_magnitude;
         destruct (NilEmpty.string_of_uint u); exact D).
  destruct u; try discriminate. reflexivity.
Qed.

Lemma trim_start_numeral (c : ascii) (rest : string) :
  (code c =? 45)%N || is_digit c = true -> trim_start (String c rest) = String c rest.
Proof.
  intros H.
  destruct c as [[] [] [] [] [] [] [] []]; vm_compute in H; try discriminate H;
    destruct rest as [|d [|f rest2]]; reflexivity.
Qed.

(** [parseInt] reads back the decimal text of an integer. *)
Lemma parseInt_dec (z : Z) : parseInt (dec_of_Z z) = Some z.
Proof.
  unfold parseInt, dec_of_Z, dec_of_N. destruct (Z.ltb_spec z 0) as [Hz|Hz].
  - rewrite trim_start_numeral by reflexivity. cbn [Ascii.eqb Bool.eqb].
    rewrite parse_magnitude_digits by apply canonical_to_uint.
    rewrite DecimalN.Unsigned.of_to. simpl. f_equal. rewrite N2Z.inj_abs_N. lia.
  - pose proof (canonical_to_uint (Z.to_N z)) as Hc.
    pose proof (parse_magnitude_digits _ Hc) as Hm.
    rewrite DecimalN.Unsigned.of_to in Hm.
    destruct (N.to_uint (Z.to_N z)) as [|u|u|u|u|u|u|u|u|u|u]; try discriminate;
      simpl NilEmpty.string_of_uint; rewrite trim_start_numeral by reflexivity;
      cbn [Ascii.eqb Bool.eqb];
      simpl NilEmpty.string_of_uint in Hm; rewrite Hm; simpl; f_equal; lia.
Qed.

(** ** Keys *)

Lemma quotes_key_inj (a b : string) : quotes_key a = quotes_key b -> a = b.
Proof. unfold quotes_key. intros E. now injection E. Qed.

Lemma quotes_key_not_timestamp_key (lang : string) : quotes_key lang <> timestamp_key lang.
Proof.
  intros E. apply (f_equal String.length) in E. unfold quotes_key, timestamp_key in E.
  rewrite !string_length_app in E. simpl in E. lia.
Qed.

Lemma quotes_key_not_count_key (lang : string) : quotes_key lang <> count_key lang.
Proof.
  intros E. apply (f_equal String.length) in E. unfold quotes_key, count_key in E.
  rewrite !string_length_app in E. simpl in E. lia.
Qed.

Lemma quotes_key_not_metadata (lang : string) :
  lang <> "metadata_timestamp" -> quotes_key lang <> metadata_timestamp_key.
Proof. intros H E. apply H. now apply quotes_key_inj. Qed.

(** ** The cache round trip *)

Lemma storeQuotesData_run (e : env) (s : state) (L : string) (quotes : list json) (md : json) :
  truthy (Some md) = true ->
  let count := reported_count (Some md) L in
  let quoteCount := if truthy count then count else Some (JNum (Z.of_nat (length quotes))) in
  let s1 := quotes_written e L (JArr quotes) s in
  storeQuotesData e L (JArr quotes) (Some md) s
  = match ToString (member md "lastUpdated") with
    | None => (Throw TypeError, s1)
    | Some lastUpdated =>
        let s2 := set_store (<[metadata_timestamp_key := lastUpdated]> (localStorage s1)) s1 in
        match quoteCount with
        | None | Some JNull => (Throw TypeError, s2)
        | Some j =>
            match to_string j with
            | None => (Throw TypeError, s2)
            | Some text => (Ok tt, set_store (<[count_key L := text]> (localStorage s2)) s2)
            end
        end
    end.
Proof.
  intros T. cbv zeta. unfold storeQuotesData. rewrite T.
  unfold reported_count, quotes_written.
  assert (P : prop_of (Some md) "lastUpdated" = ret (member md "lastUpdated"))
    by (destruct md; try discriminate; reflexivity).
  rewrite P. clear P.
  unfold bind at 1. unfold setItem at 1, with_store at 1.
  unfold bind at 1. unfold setItem at 1, with_store at 1. cbn [localStorage].
  unfold bind at 1, ret at 1.
  unfold bind at 1.
  destruct (ToString (member md "lastUpdated")) as [lastUpdated|]; [|reflexivity].
  cbn [converted ret].
  unfold bind at 1. unfold setItem at 1, with_store at 1. cbn [localStorage lastKnownLanguage requests].
  destruct (truthy (opt_member _ "count")) eqn:Tc.
  - destruct (opt_member _ "count") as [j|] eqn:Ec; [|discriminate].
    unfold bind, ret. destruct j; try discriminate Tc; cbn [toString_method];
      destruct (to_string _); reflexivity.
  - unfold bind, prop, ret. cbn [member String.eqb Ascii.eqb Bool.eqb toString_method].
    reflexivity.
Qed.

Lemma getStoredQuotes_stringified (e : env) (s : state) (lang : string) (j : json) :
  plain j = true ->
  localStorage s !! quotes_key lang = Some (JSON_stringify j) ->
  getStoredQuotes lang s = (Ok j, s).
Proof.
  intros Hp H. unfold getStoredQuotes, bind, getItem. rewrite H. simpl.
  destruct (String.eqb_spec (JSON_stringify j) EmptyString) as [E|_].
  - now apply JSON_stringify_nonempty in E.
  - now rewrite JSON_parse_stringify.
Qed.

Lemma number_text_safe (z : Z) : Z.abs z <= 2 ^ 53 -> number_text z = dec_of_Z z.
Proof.
  intros H. unfold number_text, safe. now apply Z.leb_le in H as ->.
Qed.

(** C6, as amended. For a language code other than the reserved word
    [metadata_timestamp], a list of quotes and supplied metadata (a value
    that is not falsy) whose [lastUpdated] has a string, [storeQuotesData]
    succeeds unless the count it is to store has no string (an object with
    an own [toString]), and throws a [TypeError] then. After a success,
    reading back gives the same list when its numbers are integers up to
    2^53; the stored count is the count the metadata reports for the file
    of the language when that count is an integer other than 0 and up to
    2^53, and the length of the list (an array has fewer than 2^32 items)
    when the metadata has no count for the file or reports 0. *)
Theorem storeQuotesData_round_trip
    (e : env) (s : state) (L : string) (quotes : list json) (md : json) :
  L <> "metadata_timestamp" ->
  truthy (Some md) = true ->
  is_Some (ToString (member md "lastUpdated")) ->
  let r := storeQuotesData e L (JArr quotes) (Some md) s in
  let count := reported_count (Some md) L in
  (r.1 = Ok tt \/ r.1 = Throw TypeError) /\
  (r.1 = Ok tt <-> (truthy count = true -> is_Some (ToString count))) /\
  (r.1 = Ok tt -> plain (JArr quotes) = true ->
   getStoredQuotes L r.2 = (Ok (JArr quotes), r.2)) /\
  (forall c, count = Some (JNum c) -> c <> 0 -> Z.abs c <= 2 ^ 53 ->
             r.1 = Ok tt /\ storedCount (localStorage r.2) L = c) /\
  (count = None \/ count = Some (JNum 0) -> Z.of_nat (length quotes) < 2 ^ 32 ->
   r.1 = Ok tt /\ storedCount (localStorage r.2) L = Z.of_nat (length quotes)).
Proof.
  intros HL T [lastUpdated Hl]. cbv zeta.
  rewrite (storeQuotesData_run e s L quotes md T). cbv zeta. rewrite Hl.
  set (count := reported_count (Some md) L) in *.
  set (s2 := set_store _ (quotes_written e L (JArr quotes) s)).
  assert (Hq : localStorage s2 !! quotes_key L = Some (JSON_stringify (JArr quotes))).
  { subst s2. unfold quotes_written. cbn [localStorage set_store].
    rewrite lookup_insert_ne by (apply not_eq_sym, quotes_key_not_metadata, HL).
    rewrite lookup_insert_ne by (apply not_eq_sym, quotes_key_not_timestamp_key).
    apply lookup_insert_eq. }
  assert (Stored : forall z, Z.abs z <= 2 ^ 53 ->
            let r := match to_string (JNum z) with
                     | Some text =>
                         (@Ok unit tt, set_store (<[count_key L := text]> (localStorage s2)) s2)
                     | None => (Throw TypeError, s2)
                     end in
            r.1 = Ok tt /\ storedCount (localStorage r.2) L = z).
  { intros z Hz. cbn [to_string]. rewrite (number_text_safe z Hz). cbn [fst snd].
    split; [reflexivity|]. cbn [localStorage set_store].
    unfold storedCount, item_text. now rewrite lookup_insert_eq, parseInt_dec. }
  destruct (truthy count) eqn:Tc.
  - destruct count as [j|] eqn:Ec; [|discriminate Tc].
    assert (Hn : j <> JNull) by (intros ->; discriminate Tc).
    assert (R : match j with
                | JNull => (@Throw unit TypeError, s2)
                | _ => match to_string j with
                       | Some text =>
                           (Ok tt, set_store (<[count_key L := text]> (localStorage s2)) s2)
                       | None => (Throw TypeError, s2)
                       end
                end
                = match to_string j with
                  | Some text =>
                      (Ok tt, set_store (<[count_key L := text]> (localStorage s2)) s2)
                  | None => (Throw TypeError, s2)
                  end) by (destruct j; congruence).
    rewrite R. clear R. cbn [ToString].
    split; [destruct (to_string j); auto|].
    split; [destruct (to_string j); cbn [fst]; split; eauto;
            try discriminate; intros H; now destruct (H eq_refl)|].
    split; [|split].
    + destruct (to_string j); [|discriminate]. cbn [fst snd]. intros _ Hp.
      apply getStoredQuotes_stringified; [exact e | exact Hp|]. cbn [localStorage set_store].
      rewrite lookup_insert_ne by (apply not_eq_sym, quotes_key_not_count_key). exact Hq.
    + intros c [= ->] _ Hc. apply (Stored c Hc).
    + intros [[=]|[= ->]]. discriminate Tc.
  - assert (Hlen : Z.of_nat (length quotes) < 2 ^ 32 ->
                   Z.abs (Z.of_nat (length quotes)) <= 2 ^ 53).
    { intros H. rewrite Z.abs_eq by lia.
      transitivity (2 ^ 32); [lia | apply Z.pow_le_mono_r; lia]. }
    split; [cbn [to_string]; auto|].
    split; [cbn [to_string fst]; split; [discriminate | reflexivity]|].
    split; [|split].
    + cbn [to_string fst snd]. intros _ Hp.
      apply getStoredQuotes_stringified; [exact e | exact Hp|]. cbn [localStorage set_store].
      rewrite lookup_insert_ne by (apply not_eq_sym, quotes_key_not_count_key). exact Hq.
    + intros c Hc Hnz _. rewrite Hc in Tc. simpl in Tc.
      destruct (Z.eqb_spec c 0); [contradiction | discriminate].
    + intros _ H. apply (Stored _ (Hlen H)).
Qed.

Lemma storeQuotesData_round_trip_witness :
  storedCount
    (localStorage
       (storeQuotesData (host "fr" true new_year unreachable) "fr"
          (JArr (FALLBACK_QUOTE :: nil)) (Some sample_metadata) (initial ∅ None)).2) "fr"
  = 150.
Proof.
  apply (storeQuotesData_round_trip (host "fr" true new_year unreachable) (initial ∅ None)
           "fr" (FALLBACK_QUOTE :: nil) sample_metadata);
    [discriminate | reflexivity | eexists; reflexivity | reflexivity | discriminate
     | vm_compute; discriminate].
Defined.

(** C6, as first stated, fails when the metadata reports the count 0 for a
    file that has quotes: the stored count is the length of the list. *)
Lemma storeQuotesData_zero_count_counterexample :
  let r := storeQuotesData (host "de" true new_year unreachable) "de"
             (JArr (FALLBACK_QUOTE :: nil)) (Some sample_metadata) (initial ∅ None) in
  reported_count (Some sample_metadata) "de" = Some (JNum 0) /\
  r.1 = Ok tt /\
  storedCount (localStorage r.2) "de" = 1 /\
  storedCount (localStorage r.2) "de" <> 0.
Proof. cbv zeta. repeat split; try reflexivity. discriminate. Qed.

(** The language code has to differ from [metadata_timestamp]: for that
    word the quotes key is the metadata timestamp key, and the text of the
    quotes is overwritten by [lastUpdated]. *)
Example storeQuotesData_reserved_word :
  let r := storeQuotesData (host "en" true new_year unreachable) "metadata_timestamp"
             (JArr (FALLBACK_QUOTE :: nil)) (Some sample_metadata) (initial ∅ None) in
  localStorage r.2 !! quotes_key "metadata_timestamp" = Some "2025-10-01" /\
  (getStoredQuotes "metadata_timestamp" r.2).1 = Throw SyntaxError.
Proof. split; vm_compute; reflexivity. Qed.

(** The count has to stay below 10^21: from there on its text has an
    exponent, of which [parseInt] reads the digits before the point. And a
    count that is an object with a property [toString] has no text: the
    call throws after it has written the quotes. *)
Example storeQuotesData_counts_without_text :
  let metadata (count : json) :=
    JObj (("lastUpdated", JStr "2025-10-01")
          :: ("files", JObj (("fr.json", JObj (("count", count) :: nil)) :: nil)) :: nil) in
  let r (count : json) :=
    storeQuotesData (host "fr" true new_year unreachable) "fr"
      (JArr (FALLBACK_QUOTE :: nil)) (Some (metadata count)) (initial ∅ None) in
  localStorage (r (JNum (10 ^ 21))).2 !! count_key "fr" = Some "1e+21" /\
  storedCount (localStorage (r (JNum (10 ^ 21))).2) "fr" = 1 /\
  (r (JObj (("toString", JNum 1) :: nil))).1 = Throw TypeError /\
  localStorage (r (JObj (("toString", JNum 1) :: nil))).2 !! count_key "fr" = None /\
  is_Some (localStorage (r (JObj (("toString", JNum 1) :: nil))).2 !! quotes_key "fr").
Proof. vm_compute. repeat split. now eexists. Qed.

(** ** Computations that keep the language and the store *)

Lemma steady_ret {A : Type} (a : A) : steady (ret a).
Proof. intros s. split; [reflexivity|]. exists nil. now rewrite app_nil_r. Qed.

Lemma steady_throw {A : Type} (err : error) : steady (@throw A err).
Proof. intros s. split; [reflexivity|]. exists nil. now rewrite app_nil_r. Qed.

Lemma steady_pure {A : Type} (f : state -> A) : steady (fun s => (Ok (f s), s)).
Proof. intros s. split; [reflexivity|]. exists nil. now rewrite app_nil_r. Qed.

Lemma steady_chain {A B : Type} (m : M A) (k : result A -> M B) :
  steady m -> (forall r, steady (k r)) -> steady (fun s => k (m s).1 (m s).2).
Proof.
  intros Hm Hk s. destruct (Hm s) as (L1 & new1 & R1 & F1).
  destruct (Hk (m s).1 (m s).2) as (L2 & new2 & R2 & F2). cbn beta.
  split; [congruence|]. exists (new1 ++ new2)%list. split.
  - rewrite R2, R1. now rewrite app_assoc.
  - apply Forall_app. split; [exact F1|]. now rewrite L1 in F2.
Qed.

Lemma steady_bind {A B : Type} (m : M A) (k : A -> M B) :
  steady m -> (forall a, steady (k a)) -> steady (bind m k).
Proof.
  intros Hm Hk.
  pose proof (steady_chain m (fun r => match r with Ok a => k a | Throw err => throw err end) Hm) as H.
  intros s. unfold bind. specialize (H (fun r => match r with Ok a => Hk a | Throw err => steady_throw err end) s).
  cbn beta in H. destruct (m s) as [[a|err] s']; exact H.
Qed.

Lemma steady_try_catch {A : Type} (m : M A) (h : error -> M A) :
  steady m -> (forall err, steady (h err)) -> steady (try_catch m h).
Proof.
  intros Hm Hh.
  pose proof (steady_chain m (fun r => match r with Ok a => ret a | Throw err => h err end) Hm) as H.
  intros s. unfold try_catch.
  specialize (H (fun r => match r with Ok a => steady_ret a | Throw err => Hh err end) s).
  cbn beta in H. destruct (m s) as [[a|err] s']; exact H.
Qed.

Lemma steady_logged {A : Type} (m : M A) : steady m -> steady (logged m).
Proof. intros H. apply steady_try_catch; [exact H | intros; apply steady_throw]. Qed.

Lemma steady_with_store (f : store -> store) : steady (with_store f).
Proof. intros s. split; [reflexivity|]. exists nil. simpl. now rewrite app_nil_r. Qed.

Lemma steady_fetch (e : env) (address : string) : steady (fetch e address).
Proof.
  intros s. unfold fetch.
  destruct (net e (length (requests s)) address); simpl;
    (split; [reflexivity|]; eexists; split; [reflexivity|]; repeat constructor).
Qed.

Lemma steady_getItem (key : string) : steady (getItem key).
Proof. apply (steady_pure (fun s => localStorage s !! key)). Qed.

Lemma steady_lift {A : Type} (r : result A) : steady (lift r).
Proof. intros s. split; [reflexivity|]. exists nil. simpl. now rewrite app_nil_r. Qed.

Lemma steady_converted {A : Type} (o : option A) : steady (converted o).
Proof. destruct o; [apply steady_ret | apply steady_throw]. Qed.

Create HintDb steady.
#[local] Hint Resolve steady_ret steady_throw steady_pure steady_with_store steady_fetch
  steady_getItem steady_lift steady_converted : steady.

Ltac steady_auto :=
  repeat (intros;
          first [ solve [auto with steady]
                | apply steady_bind
                | apply steady_try_catch
                | apply steady_logged
                | match goal with
                  | |- steady (setItem _ _) => apply steady_with_store
                  | |- steady (if ?b then _ else _) => destruct b
                  | |- steady (match ?x with _ => _ end) => destruct x
                  | |- steady (let '(_, _) := ?x in _) => destruct x
                  end ]).

Lemma steady_response_json (r : response) : steady (response_json r).
Proof. unfold response_json. steady_auto. Qed.

Lemma steady_prop (data : json) (key : string) : steady (prop data key).
Proof. unfold prop. steady_auto. Qed.

Lemma steady_prop_of (v : jsval) (key : string) : steady (prop_of v key).
Proof. unfold prop_of. destruct v; [apply steady_prop | apply steady_throw]. Qed.

Lemma steady_toString_method (v : jsval) : steady (toString_method v).
Proof. unfold toString_method. steady_auto. Qed.

#[local] Hint Resolve steady_response_json steady_prop steady_prop_of
  steady_toString_method : steady.

Lemma steady_fetchMetadata (e : env) : steady (fetchMetadata e).
Proof. unfold fetchMetadata. steady_auto. Qed.

Lemma steady_fetchQuotes (e : env) (lang : string) : steady (fetchQuotes e lang).
Proof. unfold fetchQuotes. steady_auto. Qed.

Lemma steady_fetchVercelQuote (e : env) : steady (fetchVercelQuote e).
Proof. unfold fetchVercelQuote. steady_auto. Qed.

Lemma steady_fetchProgrammingQuote (e : env) : steady (fetchProgrammingQuote e).
Proof. unfold fetchProgrammingQuote. steady_auto. Qed.

Lemma steady_fetchDummyJsonQuote (e : env) : steady (fetchDummyJsonQuote e).
Proof.
  unfold fetchDummyJsonQuote. apply steady_logged. intros s.
  match goal with |- context [bind ?m ?k s] => assert (H : steady (bind m k)) by steady_auto end.
  apply H.
Qed.

Lemma steady_try_apis (apis : list (string * M json)) :
  Forall (fun api => steady (snd api)) apis -> steady (try_apis apis).
Proof.
  induction 1 as [|[name fn] rest Hfn _ IH]; simpl; [apply steady_throw|].
  simpl in Hfn. steady_auto.
Qed.

Lemma steady_fetchAlternativeQuote (e : env) : steady (fetchAlternativeQuote e).
Proof.
  unfold fetchAlternativeQuote. apply steady_try_apis.
  apply List.Forall_cons; [apply steady_fetchVercelQuote|].
  apply List.Forall_cons; [apply steady_fetchProgrammingQuote|].
  apply List.Forall_cons; [apply steady_fetchDummyJsonQuote | apply List.Forall_nil].
Qed.

#[local] Hint Resolve steady_fetchMetadata steady_fetchQuotes
  steady_fetchAlternativeQuote : steady.

Lemma steady_storeQuotesData (e : env) (lang : string) (quotes : json) (md : jsval) :
  steady (storeQuotesData e lang quotes md).
Proof. unfold storeQuotesData. steady_auto. Qed.

Lemma steady_storeNoDataInfo (e : env) (lang : string) (md : jsval) :
  steady (storeNoDataInfo e lang md).
Proof. unfold storeNoDataInfo. steady_auto. Qed.

Lemma steady_storeSingle (e : env) (lang : string) (quotes : json) :
  steady (storeSingle e lang quotes).
Proof. unfold storeSingle. steady_auto. Qed.

Lemma steady_getStoredQuotes (lang : string) : steady (getStoredQuotes lang).
Proof. unfold getStoredQuotes. steady_auto. Qed.

#[local] Hint Resolve steady_storeQuotesData steady_storeNoDataInfo steady_storeSingle
  steady_getStoredQuotes : steady.

Lemma steady_alternativeForCurrent (e : env) : steady (alternativeForCurrent e).
Proof. unfold alternativeForCurrent. steady_auto. Qed.

Lemma steady_bulkFetch (e : env) : steady (bulkFetch e).
Proof. unfold bulkFetch. steady_auto. Qed.

#[local] Hint Resolve steady_alternativeForCurrent steady_bulkFetch : steady.

Lemma steady_fetchBranch (e : env) : steady (fetchBranch e).
Proof. unfold fetchBranch. steady_auto. Qed.

Lemma steady_englishFallback (e : env) : steady (englishFallback e).
Proof. unfold englishFallback. steady_auto. Qed.

#[local] Hint Resolve steady_fetchBranch steady_englishFallback : steady.

Lemma steady_cacheBranch (e : env) : steady (cacheBranch e).
Proof.
  unfold cacheBranch. apply steady_bind.
  - apply (steady_pure (fun s => storedCount (localStorage s) (currentLanguage e))).
  - steady_auto.
Qed.

Lemma steady_outerHandler (e : env) (err : error) : steady (outerHandler e err).
Proof. unfold outerHandler. steady_auto. Qed.

(** ** The recorded language *)

(** What the outermost [try] runs once the language is recorded. *)
Lemma getQuotesForLanguage_after_record (e : env) (forceRefresh : bool) (s : state) :
  getQuotesForLanguage e forceRefresh s
  = try_catch
      (let* shouldFetch :=
         (fun s => (Ok (forceRefresh || needsDataFetch e s (currentLanguage e)), s)) in
       if shouldFetch then fetchBranch e else cacheBranch e)
      (outerHandler e)
      {| localStorage := localStorage s;
         lastKnownLanguage := Some (currentLanguage e);
         requests := requests s |}.
Proof. reflexivity. Qed.

(** C9. Every call leaves [lastKnownLanguage] equal to the current
    language, whatever its outcome; each request of the call was issued when
    [lastKnownLanguage] already had that value; and a call that follows with
    the same current language sees no language change. *)
Theorem getQuotesForLanguage_records_language (e : env) (forceRefresh : bool) (s : state) :
  let s' := (getQuotesForLanguage e forceRefresh s).2 in
  lastKnownLanguage s' = Some (currentLanguage e) /\
  (exists new,
     requests s' = (requests s ++ new)%list /\
     Forall (fun c => known c = Some (currentLanguage e)) new) /\
  (forall e', currentLanguage e' = currentLanguage e -> languageChanged e' s' = false).
Proof.
  cbv zeta. rewrite getQuotesForLanguage_after_record.
  match goal with
  | |- context [try_catch ?m ?h ?s0] =>
      assert (H : steady (try_catch m h)) by
        (apply steady_try_catch;
         [apply steady_bind;
          [apply (steady_pure
                    (fun s => forceRefresh || needsDataFetch e s (currentLanguage e)))
          | intros []; [apply steady_fetchBranch | apply steady_cacheBranch]]
         | apply steady_outerHandler]);
      destruct (H s0) as (L & new & R & F)
  end.
  cbn [lastKnownLanguage requests] in L, R, F.
  split; [exact L|]. split; [exists new; split; assumption|].
  intros e' He'. unfold languageChanged. rewrite L, He'.
  now rewrite String.eqb_refl.
Qed.

(** ** The fallback chain *)

Lemma quiet_ret {A : Type} (a : A) : quiet (ret a).
Proof. intros s. reflexivity. Qed.

Lemma quiet_throw {A : Type} (err : error) : quiet (@throw A err).
Proof. intros s. reflexivity. Qed.

Lemma quiet_bind {A B : Type} (m : M A) (k : A -> M B) :
  quiet m -> (forall a, quiet (k a)) -> quiet (bind m k).
Proof.
  intros Hm Hk s. unfold bind. specialize (Hm s).
  destruct (m s) as [[a|err] s']; simpl in *; subst; [apply Hk | reflexivity].
Qed.

Lemma quiet_lift {A : Type} (r : result A) : quiet (lift r).
Proof. intros s. reflexivity. Qed.

Lemma quiet_converted {A : Type} (o : option A) : quiet (converted o).
Proof. destruct o; [apply quiet_ret | apply quiet_throw]. Qed.

Lemma quiet_prop (data : json) (key : string) : quiet (prop data key).
Proof. destruct data; intros st; reflexivity. Qed.

Lemma quiet_response_json (r : response) : quiet (response_json r).
Proof. unfold response_json. destruct (body r); intros s; reflexivity. Qed.

Lemma fetch_state (e : env) (address : string) (s : state) :
  (fetch e address s).2 = logged_request address s.
Proof. unfold fetch. destruct (net e _ address); reflexivity. Qed.

(** A request followed by a quiet continuation leaves the state of the
    request. *)
Lemma request_then_quiet {A : Type} (e : env) (address : string)
    (k : response -> M A) (s : state) :
  (forall r, quiet (k r)) ->
  (logged (let* response := fetch e address in k response) s).2 = logged_request address s.
Proof.
  intros Hk. unfold logged, try_catch, bind. rewrite <- (fetch_state e address s).
  destruct (fetch e address s) as [[r|err] s1]; simpl; [|reflexivity].
  specialize (Hk r s1). destruct (k r s1) as [[a|err] s2]; simpl in *; congruence.
Qed.

Ltac quiet_auto :=
  repeat (intros;
          first [ apply quiet_ret | apply quiet_throw | apply quiet_prop
                | apply quiet_response_json | apply quiet_bind
                | match goal with |- quiet (if ?b then _ else _) => destruct b end ]).

Lemma fetchVercelQuote_state (e : env) (s : state) :
  (fetchVercelQuote e s).2 = logged_request vercelUrl s.
Proof. apply request_then_quiet. quiet_auto. Qed.

Lemma fetchProgrammingQuote_state (e : env) (s : state) :
  (fetchProgrammingQuote e s).2 = logged_request programmingUrl s.
Proof. apply request_then_quiet. quiet_auto. Qed.

Lemma fetchDummyJsonQuote_state (e : env) (s : state) :
  (fetchDummyJsonQuote e s).2
  = logged_request (dummyjsonUrl ++ "/" ++ dec_of_Z (drawn_id e s)) s.
Proof.
  unfold fetchDummyJsonQuote, logged, try_catch.
  match goal with
  | |- context [bind (fetch e ?a) ?k s] =>
      pose proof (request_then_quiet e a k s) as H
  end.
  unfold logged, try_catch in H. apply H. quiet_auto.
Qed.

(** One round of the loop: the provider's quote when it is usable, the
    remaining providers otherwise, from the state the provider left. *)
Lemma try_apis_cons (name : string) (fn : M json) (rest : list (string * M json))
    (s : state) :
  try_apis ((name, fn) :: rest) s
  = if usable (fn s).1 then fn s else try_apis rest (fn s).2.
Proof.
  simpl. unfold bind, try_catch, ret.
  destruct (fn s) as [[quote|err] s1]; simpl; [|reflexivity].
  destruct (complete quote); reflexivity.
Qed.

Lemma complete_strings (text author : string) :
  complete (make_quote (Some (JStr text)) (Some (JStr author))) = true
  <-> text <> EmptyString /\ author <> EmptyString.
Proof.
  unfold complete. simpl.
  destruct (String.eqb_spec text EmptyString), (String.eqb_spec author EmptyString);
    simpl; split; intros H; try discriminate; try tauto.
Qed.

Lemma urls_logged_request (address : string) (s : state) :
  urls (logged_request address s) = (urls s ++ address :: nil)%list.
Proof. unfold urls, logged_request. simpl. now rewrite map_app. Qed.

(** C5. The chain asks vercel, then programming, then dummyjson, each with
    one request. Its result is the first provider's result that carries a
    quote with a truthy text and author, in the state that provider left, so
    no later provider has been asked; when no provider gives such a quote it
    throws the all-failed error after the three requests. The store is
    never written. *)
Theorem fetchAlternativeQuote_first_usable (e : env) (s : state) :
  let r1 := fetchVercelQuote e s in
  let r2 := fetchProgrammingQuote e r1.2 in
  let r3 := fetchDummyJsonQuote e r2.2 in
  fetchAlternativeQuote e s
  = (if usable r1.1 then r1
     else if usable r2.1 then r2
     else if usable r3.1 then r3
     else (Throw AllFailed, r3.2)) /\
  urls r1.2 = (urls s ++ vercelUrl :: nil)%list /\
  urls r2.2 = (urls s ++ vercelUrl :: programmingUrl :: nil)%list /\
  (exists id, 1 <= id <= 100 /\
     urls r3.2
     = (urls s ++ vercelUrl :: programmingUrl
             :: (dummyjsonUrl ++ "/" ++ dec_of_Z id)%string :: nil)%list) /\
  localStorage (fetchAlternativeQuote e s).2 = localStorage s /\
  (forall quote, (fetchAlternativeQuote e s).1 = Ok quote -> complete quote = true) /\
  (forall text author,
     complete (make_quote (Some (JStr text)) (Some (JStr author))) = true
     <-> text <> EmptyString /\ author <> EmptyString).
Proof.
  cbv zeta.
  assert (E : fetchAlternativeQuote e s
              = (if usable (fetchVercelQuote e s).1 then fetchVercelQuote e s
                 else if usable (fetchProgrammingQuote e (fetchVercelQuote e s).2).1
                      then fetchProgrammingQuote e (fetchVercelQuote e s).2
                 else if usable (fetchDummyJsonQuote e
                                   (fetchProgrammingQuote e (fetchVercelQuote e s).2).2).1
                      then fetchDummyJsonQuote e
                             (fetchProgrammingQuote e (fetchVercelQuote e s).2).2
                 else (Throw AllFailed,
                       (fetchDummyJsonQuote e
                          (fetchProgrammingQuote e (fetchVercelQuote e s).2).2).2))).
  { unfold fetchAlternativeQuote. rewrite !try_apis_cons. reflexivity. }
  split; [exact E|].
  rewrite E.
  rewrite !fetchDummyJsonQuote_state, !fetchProgrammingQuote_state, !fetchVercelQuote_state.
  rewrite !urls_logged_request, <- !app_assoc. simpl.
  split; [reflexivity|]. split; [reflexivity|]. split.
  { eexists. split; [|reflexivity]. unfold drawn_id.
    pose proof (Nat.mod_upper_bound
                  (random100 e (length (requests
                     (logged_request programmingUrl (logged_request vercelUrl s))))) 100).
    lia. }
  split.
  { repeat match goal with |- context [if ?b then _ else _] => destruct b end;
      rewrite ?fetchDummyJsonQuote_state, ?fetchProgrammingQuote_state,
        ?fetchVercelQuote_state; reflexivity. }
  split; [|apply complete_strings].
  intros quote.
  destruct (usable (fetchVercelQuote e s).1) eqn:U1.
  { destruct (fetchVercelQuote e s) as [[q|err] s1]; simpl in *; intros [= ?]; now subst. }
  destruct (usable (fetchProgrammingQuote e (logged_request vercelUrl s)).1) eqn:U2.
  { destruct (fetchProgrammingQuote e (logged_request vercelUrl s)) as [[q|err] s1]; simpl in *; intros [= ?]; now subst. }
  destruct (usable (fetchDummyJsonQuote e
                      (logged_request programmingUrl (logged_request vercelUrl s))).1) eqn:U3.
  { destruct (fetchDummyJsonQuote e
                (logged_request programmingUrl (logged_request vercelUrl s))) as [[q|err] s1]; simpl in *; intros [= ?]; now subst. }
  discriminate.
Qed.

(** The first provider fails and the second answers: the quote is the
    second provider's, normalised, and the third provider is not asked. *)
Example fetchAlternativeQuote_second_provider :
  let r := fetchAlternativeQuote (host "fr" true new_year programming_only)
             (initial ∅ (Some "fr")) in
  r.1 = Ok (JObj (("quote", JStr "Talk is cheap.") :: ("author", JStr "Linus") :: nil)) /\
  urls r.2 = vercelUrl :: programmingUrl :: nil.
Proof. split; reflexivity. Qed.

(** ** Running a computation step by step *)

Lemma bind_ok {A B : Type} (m : M A) (k : A -> M B) (s s' : state) (a : A) :
  m s = (Ok a, s') -> bind m k s = k a s'.
Proof. intros H. unfold bind. now rewrite H. Qed.

Lemma bind_throw {A B : Type} (m : M A) (k : A -> M B) (s s' : state) (err : error) :
  m s = (Throw err, s') -> bind m k s = (Throw err, s').
Proof. intros H. unfold bind. now rewrite H. Qed.

Lemma try_ok {A : Type} (m : M A) (h : error -> M A) (s s' : state) (a : A) :
  m s = (Ok a, s') -> try_catch m h s = (Ok a, s').
Proof. intros H. unfold try_catch. now rewrite H. Qed.

Lemma try_throw {A : Type} (m : M A) (h : error -> M A) (s s' : state) (err : error) :
  m s = (Throw err, s') -> try_catch m h s = h err s'.
Proof. intros H. unfold try_catch. now rewrite H. Qed.

Lemma getStoredQuotes_absent (lang : string) (s : state) :
  localStorage s !! quotes_key lang = None -> getStoredQuotes lang s = (Ok JNull, s).
Proof. intros H. unfold getStoredQuotes, bind, getItem. now rewrite H. Qed.

(** ** Offline, without a cache *)

Lemma fetch_rejected (e : env) (address : string) (s : state) :
  net e (length (requests s)) address = Rejected ->
  fetch e address s = (Throw NetworkError, logged_request address s).
Proof. intros H. unfold fetch. now rewrite H. Qed.

Section Unreachable.
Variable e : env.
Hypothesis Hnet : forall n address, net e n address = Rejected.

Lemma fetchMetadata_unreachable (s : state) :
  fetchMetadata e s = (Throw NetworkError, logged_request metadataUrl s).
Proof.
  unfold fetchMetadata, logged, try_catch, bind. now rewrite fetch_rejected by apply Hnet.
Qed.

Lemma fetchVercelQuote_unreachable (s : state) :
  fetchVercelQuote e s = (Throw NetworkError, logged_request vercelUrl s).
Proof.
  unfold fetchVercelQuote, logged, try_catch, bind. now rewrite fetch_rejected by apply Hnet.
Qed.

Lemma fetchProgrammingQuote_unreachable (s : state) :
  fetchProgrammingQuote e s = (Throw NetworkError, logged_request programmingUrl s).
Proof.
  unfold fetchProgrammingQuote, logged, try_catch, bind.
  now rewrite fetch_rejected by apply Hnet.
Qed.

Lemma fetchDummyJsonQuote_unreachable (s : state) :
  fetchDummyJsonQuote e s
  = (Throw NetworkError,
     logged_request (dummyjsonUrl ++ "/" ++ dec_of_Z (drawn_id e s)) s).
Proof.
  unfold fetchDummyJsonQuote, logged, try_catch, bind.
  now rewrite fetch_rejected by apply Hnet.
Qed.

(** The state after the three rejected requests of the chain. *)
Lemma fetchAlternativeQuote_unreachable (s : state) :
  fetchAlternativeQuote e s
  = (Throw AllFailed,
     let s2 := logged_request programmingUrl (logged_request vercelUrl s) in
     logged_request (dummyjsonUrl ++ "/" ++ dec_of_Z (drawn_id e s2)) s2).
Proof.
  unfold fetchAlternativeQuote.
  rewrite try_apis_cons, fetchVercelQuote_unreachable. cbn [fst snd usable].
  rewrite try_apis_cons, fetchProgrammingQuote_unreachable. cbn [fst snd usable].
  rewrite try_apis_cons, fetchDummyJsonQuote_unreachable. reflexivity.
Qed.
End Unreachable.

Lemma storedCount_absent (st : store) (lang : string) :
  st !! count_key lang = None -> storedCount st lang = 0.
Proof. intros H. unfold storedCount, item_text. now rewrite H. Qed.

(** C4, as amended. Offline, without a forced refresh, with no cache entry
    for a current language other than English and none for English, on a
    network that rejects every request, the call skips the refresh of the
    current language and returns the hardcoded quote; the English fallback
    path has by then issued four requests (metadata, then the three
    providers of the chain), and the store is as it was. *)
Theorem offline_without_cache (e : env) (s : state) :
  onLine e = false ->
  (forall n address, net e n address = Rejected) ->
  currentLanguage e <> "en" ->
  localStorage s !! quotes_key (currentLanguage e) = None ->
  localStorage s !! timestamp_key (currentLanguage e) = None ->
  localStorage s !! count_key (currentLanguage e) = None ->
  localStorage s !! quotes_key "en" = None ->
  let r := getQuotesForLanguage e false s in
  r.1 = Ok (JArr (FALLBACK_QUOTE :: nil)) /\
  localStorage r.2 = localStorage s /\
  exists id,
    1 <= id <= 100 /\
    urls r.2
    = (urls s ++ metadataUrl :: vercelUrl :: programmingUrl
            :: (dummyjsonUrl ++ "/" ++ dec_of_Z id)%string :: nil)%list.
Proof.
  intros Hoff Hnet Hlang Hq Ht Hc Hen. cbv zeta.
  rewrite getQuotesForLanguage_after_record.
  set (s0 := {| localStorage := localStorage s;
                lastKnownLanguage := Some (currentLanguage e);
                requests := requests s |}).
  assert (E : (let* shouldFetch :=
                 (fun s => (Ok (false || needsDataFetch e s (currentLanguage e)), s)) in
               if shouldFetch then fetchBranch e else cacheBranch e) s0
              = englishFallback e s0).
  { unfold bind. rewrite needsDataFetch_offline by exact Hoff. cbn [orb].
    unfold cacheBranch, bind. rewrite storedCount_absent by exact Hc.
    destruct (String.eqb_spec (currentLanguage e) "en"); [contradiction|reflexivity]. }
  erewrite try_ok; [|rewrite E; clear E].
  2:{ unfold englishFallback.
      erewrite bind_ok by (apply getStoredQuotes_absent; exact Hen).
      cbn [nothing_stored truthy negb orb].
      erewrite bind_ok; [reflexivity|].
      erewrite bind_ok.
      2:{ erewrite try_throw; [reflexivity|].
          erewrite bind_throw; [reflexivity|]. now apply fetchMetadata_unreachable. }
      cbv beta iota.
      erewrite try_throw; [reflexivity|].
      erewrite bind_throw; [reflexivity|]. now apply fetchAlternativeQuote_unreachable. }
  cbn [ret truthy fst snd]. subst s0.
  split; [reflexivity|]. split; [reflexivity|].
  eexists. split; [|rewrite !urls_logged_request, <- !app_assoc; reflexivity].
  unfold drawn_id.
  match goal with |- context [(random100 e ?n mod 100)%nat] =>
    pose proof (Nat.mod_upper_bound (random100 e n) 100) end.
  lia.
Qed.

Lemma offline_without_cache_witness :
  (getQuotesForLanguage (host "es" false new_year unreachable) false (initial ∅ None)).1
  = Ok (JArr (FALLBACK_QUOTE :: nil)).
Proof.
  apply (offline_without_cache (host "es" false new_year unreachable) (initial ∅ None));
    try reflexivity. discriminate.
Defined.

(** C4, as first stated, fails: offline and without any cache the call
    returns the hardcoded quote, but four requests have been issued. *)
Lemma offline_requests_counterexample :
  let r := getQuotesForLanguage (host "es" false new_year unreachable) false
             (initial ∅ None) in
  r.1 = Ok (JArr (FALLBACK_QUOTE :: nil)) /\
  urls r.2 = metadataUrl :: vercelUrl :: programmingUrl
             :: (dummyjsonUrl ++ "/42")%string :: nil /\
  urls r.2 <> nil.
Proof. cbv zeta. split; [reflexivity|]. split; [reflexivity|discriminate]. Qed.

(** ** The outer handler *)

Lemma getStoredQuotes_cases (lang : string) (s : state) :
  (exists j, getStoredQuotes lang s = (Ok j, s)) \/
  (getStoredQuotes lang s = (Throw SyntaxError, s) /\ malformed (localStorage s) lang).
Proof.
  unfold getStoredQuotes, bind, getItem, malformed.
  destruct (localStorage s !! quotes_key lang) as [v|]; simpl; [|left; eauto].
  destruct (String.eqb_spec v EmptyString) as [->|Hv]; [left; eauto|].
  destruct (JSON_parse v) eqn:P; [left; eauto|].
  right. split; [reflexivity|]. exists v. auto.
Qed.

Lemma store_free_fetchAlternativeQuote (e : env) : store_free (fetchAlternativeQuote e).
Proof.
  intros s. unfold fetchAlternativeQuote. rewrite !try_apis_cons.
  repeat match goal with |- context [if ?b then _ else _] => destruct b end;
    cbn [snd try_apis throw];
    rewrite ?fetchDummyJsonQuote_state, ?fetchProgrammingQuote_state,
      ?fetchVercelQuote_state; reflexivity.
Qed.

(** The last resort of the handler never throws and never writes. *)
Lemma last_resort_total (e : env) (s : state) :
  exists quotes s',
    try_catch
      (let* alternativeQuote := fetchAlternativeQuote e in
       ret (JArr (alternativeQuote :: nil)))
      (fun altError => ret (JArr (FALLBACK_QUOTE :: nil))) s = (Ok quotes, s')
    /\ localStorage s' = localStorage s.
Proof.
  pose proof (store_free_fetchAlternativeQuote e s) as F.
  unfold try_catch, bind.
  destruct (fetchAlternativeQuote e s) as [[q|err] s1]; simpl in *; eauto.
Qed.

(** The handler throws only the [SyntaxError] of a stored text that is not
    JSON, and it never writes to the store. *)
Lemma outerHandler_cases (e : env) (err : error) (s : state) :
  (exists quotes s', outerHandler e err s = (Ok quotes, s')
                     /\ localStorage s' = localStorage s) \/
  (outerHandler e err s = (Throw SyntaxError, s)
   /\ (malformed (localStorage s) (currentLanguage e) \/ malformed (localStorage s) "en")).
Proof.
  unfold outerHandler.
  destruct (getStoredQuotes_cases (currentLanguage e) s) as [[j Hj] | [Hj Hm]].
  2:{ right. split; [|auto]. now erewrite bind_throw by exact Hj. }
  erewrite bind_ok by exact Hj.
  assert (K : forall quotes,
             (exists q s', (if nothing_stored quotes
                            then try_catch
                                   (let* alternativeQuote := fetchAlternativeQuote e in
                                    ret (JArr (alternativeQuote :: nil)))
                                   (fun altError => ret (JArr (FALLBACK_QUOTE :: nil)))
                            else ret quotes) s = (Ok q, s')
                           /\ localStorage s' = localStorage s)).
  { intros quotes. destruct (nothing_stored quotes); [apply last_resort_total|].
    exists quotes, s. auto. }
  destruct (truthy (Some j)).
  - left. erewrite bind_ok by reflexivity. apply K.
  - destruct (getStoredQuotes_cases "en" s) as [[j' Hj'] | [Hj' Hm]].
    + left. erewrite bind_ok by exact Hj'. apply K.
    + right. split; [|auto]. now erewrite bind_throw by exact Hj'.
Qed.

(** A call throws only when, at the time the handler runs, the text stored
    for the quotes of the current language or of English is not JSON. *)
Lemma getQuotesForLanguage_throws_only_malformed
    (e : env) (forceRefresh : bool) (s : state) (err : error) (s' : state) :
  getQuotesForLanguage e forceRefresh s = (Throw err, s') ->
  err = SyntaxError /\
  (malformed (localStorage s') (currentLanguage e) \/ malformed (localStorage s') "en").
Proof.
  unfold getQuotesForLanguage, try_catch.
  destruct (pipeline e forceRefresh s) as [[q|err0] s1]; [discriminate|].
  destruct (outerHandler_cases e err0 s1) as [(q & s2 & -> & _) | [-> Hm]];
    [discriminate|].
  intros [= <- <-]. auto.
Qed.

(** C1, at the failing inputs. With a truncated text stored for the quotes
    of the current language, the read of the cache throws inside the
    pipeline and again inside the outer handler, and the call throws. With
    the empty list stored for a language without quotes and English quotes
    in the cache, a failed refresh makes the handler skip the English
    quotes and return the hardcoded one. A stored text that is not JSON is
    the only way for a call to throw. *)
Theorem getQuotesForLanguage_failing_inputs :
  (getQuotesForLanguage (host "es" false new_year unreachable) false
     (initial corrupted_cache (Some "es"))).1 = Throw SyntaxError /\
  (getStoredQuotes "en" (initial german_without_quotes (Some "de"))).1
  = Ok (sample_quotes "Stay hungry.") /\
  (getQuotesForLanguage (host "de" true (new_year + 2 * ONE_DAY) unreachable) false
     (initial german_without_quotes (Some "de"))).1 = Ok (JArr (FALLBACK_QUOTE :: nil)) /\
  (forall e forceRefresh s err s',
     getQuotesForLanguage e forceRefresh s = (Throw err, s') ->
     err = SyntaxError /\
     (malformed (localStorage s') (currentLanguage e) \/ malformed (localStorage s') "en")).
Proof.
  split; [vm_compute; reflexivity|].
  split; [vm_compute; reflexivity|].
  split; [vm_compute; reflexivity|].
  apply getQuotesForLanguage_throws_only_malformed.
Qed.

(** ** What the paths delete *)


Lemma ww_ret {A : Type} (K : string -> Prop) (a : A) : writes_within K (ret a).
Proof. intros s key _. reflexivity. Qed.

Lemma ww_throw {A : Type} (K : string -> Prop) (err : error) : writes_within K (@throw A err).
Proof. intros s key _. reflexivity. Qed.

Lemma ww_pure {A : Type} (K : string -> Prop) (f : state -> A) :
  writes_within K (fun s => (Ok (f s), s)).
Proof. intros s key _. reflexivity. Qed.

Lemma ww_bind {A B : Type} (K : string -> Prop) (m : M A) (k : A -> M B) :
  writes_within K m -> (forall a, writes_within K (k a)) -> writes_within K (bind m k).
Proof.
  intros Hm Hk s key HK. specialize (Hm s key HK). unfold bind.
  destruct (m s) as [[a|err] s1]; simpl in *; [|exact Hm].
  rewrite (Hk a s1 key HK). exact Hm.
Qed.

Lemma ww_try_catch {A : Type} (K : string -> Prop) (m : M A) (h : error -> M A) :
  writes_within K m -> (forall err, writes_within K (h err)) ->
  writes_within K (try_catch m h).
Proof.
  intros Hm Hh s key HK. specialize (Hm s key HK). unfold try_catch.
  destruct (m s) as [[a|err] s1]; simpl in *; [exact Hm|].
  rewrite (Hh err s1 key HK). exact Hm.
Qed.

Lemma ww_store_free {A : Type} (K : string -> Prop) (m : M A) :
  store_free m -> writes_within K m.
Proof. intros H s key _. now rewrite H. Qed.

Lemma ww_setItem (K : string -> Prop) (key value : string) :
  K key -> writes_within K (setItem key value).
Proof.
  intros HK s k Hk. unfold setItem, with_store. simpl.
  apply lookup_insert_ne. intros ->. contradiction.
Qed.

Lemma store_free_fetchMetadata (e : env) : store_free (fetchMetadata e).
Proof.
  intros s. unfold fetchMetadata. rewrite request_then_quiet; [reflexivity|].
  intros r. apply quiet_response_json.
Qed.

Lemma store_free_fetchQuotes (e : env) (lang : string) : store_free (fetchQuotes e lang).
Proof.
  intros s. unfold fetchQuotes. rewrite request_then_quiet; [reflexivity|].
  intros r. apply quiet_response_json.
Qed.

Lemma store_free_quiet {A : Type} (m : M A) : quiet m -> store_free m.
Proof. intros H s. now rewrite H. Qed.

Ltac destruct_quiet :=
  match goal with
  | |- quiet (prop_of ?v _) => destruct v; [apply quiet_prop | apply quiet_throw]
  | |- quiet (toString_method ?v) =>
      unfold toString_method; destruct v as [[]|];
      first [apply quiet_throw | apply quiet_converted]
  end.

Lemma ww_storeSingle (e : env) (K : string -> Prop) (lang : string) (quotes : json) :
  (forall key, keys_of lang key -> K key) ->
  writes_within K (storeSingle e lang quotes).
Proof.
  intros HK. unfold storeSingle.
  repeat (apply ww_bind; [apply ww_setItem, HK; unfold keys_of; auto | intros]).
  apply ww_setItem, HK. unfold keys_of. auto.
Qed.

Lemma ww_storeQuotesData (e : env) (K : string -> Prop) (lang : string)
    (quotes : json) (md : jsval) :
  (forall key, keys_of lang key -> K key) -> K metadata_timestamp_key ->
  writes_within K (storeQuotesData e lang quotes md).
Proof.
  intros HK Hmd. unfold storeQuotesData.
  repeat (apply ww_bind; [apply ww_setItem, HK; unfold keys_of; auto | intros]).
  destruct (truthy md); [|apply ww_ret].
  apply ww_bind; [apply ww_store_free, store_free_quiet; destruct_quiet|]. intros.
  apply ww_bind; [apply ww_store_free, store_free_quiet, quiet_converted|]. intros.
  apply ww_bind; [now apply ww_setItem|]. intros.
  apply ww_bind.
  { destruct (truthy _); [apply ww_ret | apply ww_store_free, store_free_quiet, quiet_prop]. }
  intros. apply ww_bind; [apply ww_store_free, store_free_quiet; destruct_quiet|].
  intros. apply ww_setItem, HK. unfold keys_of. auto.
Qed.

Lemma ww_getStoredQuotes (K : string -> Prop) (lang : string) :
  writes_within K (getStoredQuotes lang).
Proof.
  apply ww_store_free. intros s. unfold getStoredQuotes, bind, getItem.
  destruct (item_falsy_value _); [reflexivity|]. destruct (JSON_parse _); reflexivity.
Qed.

Lemma ww_alternativeForCurrent (e : env) :
  writes_within (keys_of (currentLanguage e)) (alternativeForCurrent e).
Proof.
  unfold alternativeForCurrent.
  apply ww_try_catch; [|intros; apply ww_throw].
  apply ww_bind; [apply ww_store_free, store_free_fetchAlternativeQuote|]. intros.
  apply ww_bind; [now apply ww_storeSingle | intros; apply ww_ret].
Qed.

Lemma ww_englishFallback (e : env) : writes_within (cache_keys e) (englishFallback e).
Proof.
  unfold englishFallback.
  apply ww_bind; [apply ww_getStoredQuotes|]. intros englishQuotes.
  apply ww_bind; [|intros; apply ww_ret].
  assert (Alt : forall q,
             writes_within (cache_keys e)
               (try_catch
                  (let* alternativeQuote := fetchAlternativeQuote e in
                   let englishQuotes := JArr (alternativeQuote :: nil) in
                   storeSingle e "en" englishQuotes;; ret englishQuotes)
                  (fun _ => ret q))).
  { intros q. apply ww_try_catch; [|intros; apply ww_ret].
    apply ww_bind; [apply ww_store_free, store_free_fetchAlternativeQuote|]. intros.
    apply ww_bind; [|intros; apply ww_ret].
    apply ww_storeSingle. unfold cache_keys. auto. }
  destruct (nothing_stored englishQuotes); [|apply ww_ret].
  apply ww_bind.
  { apply ww_try_catch; [|intros; apply ww_ret].
    apply ww_bind; [apply ww_store_free, store_free_fetchMetadata|]. intros.
    apply ww_bind; [apply ww_store_free, store_free_fetchQuotes|]. intros. apply ww_ret. }
  intros [[metadata quotes]|]; [|apply Alt].
  apply ww_try_catch; [|intros; apply Alt].
  apply ww_bind; [|intros; apply ww_ret].
  apply ww_storeQuotesData; unfold cache_keys; auto.
Qed.

Lemma ww_cacheBranch (e : env) : writes_within (cache_keys e) (cacheBranch e).
Proof.
  unfold cacheBranch.
  apply ww_bind;
    [apply (ww_pure _ (fun s => storedCount (localStorage s) (currentLanguage e)))|].
  intros storedCount. destruct (_ && _); [apply ww_englishFallback|].
  apply ww_bind; [apply ww_getStoredQuotes|]. intros storedQuotes.
  apply ww_bind.
  { destruct (truthy _); [apply ww_store_free, store_free_quiet, quiet_converted | apply ww_ret]. }
  intros [|]; [apply ww_ret|].
  apply ww_try_catch; [|intros; apply ww_ret].
  apply ww_bind; [apply ww_store_free, store_free_fetchAlternativeQuote|]. intros.
  apply ww_bind; [|intros; apply ww_ret].
  apply ww_storeSingle. unfold cache_keys. auto.
Qed.

Lemma with_store_run (f : store -> store) (s : state) :
  with_store f s = (Ok tt, set_store (f (localStorage s)) s).
Proof. reflexivity. Qed.

(** ** Keys are deleted by the purge only *)


























(** After a successful attempt for French the entries of Canadian French
    are still there next to those of French, and those of English are
    gone. *)
Example extensions_survive_bulk_fetch :
  let st := <[quotes_key "fr_CA" := "[]"]> (<[quotes_key "en" := "[]"]> ∅) in
  let r := getQuotesForLanguage (host "fr" true new_year bulk_only) true (initial st None) in
  r.1 = Ok (sample_quotes "Stay hungry.") /\
  localStorage r.2 !! quotes_key "fr_CA" = Some "[]" /\
  is_Some (localStorage r.2 !! quotes_key "fr") /\
  localStorage r.2 !! quotes_key "en" = None.
Proof. cbv zeta. repeat split; try (vm_compute; reflexivity). vm_compute. now eexists. Qed.

(** In the run of the witness the English quotes the call has just stored
    are purged as well: the purge keeps the current language, not the
    target. *)
Example target_purged_after_bulk_fetch :
  let r := getQuotesForLanguage (host "de" true new_year bulk_only) false
             (initial (french_cache "[]" "150") (Some "fr")) in
  r.1 = Ok (sample_quotes "Stay hungry.") /\
  localStorage r.2 !! quotes_key "en" = None /\
  localStorage r.2 !! quotes_key "de" = Some "[]".
Proof. cbv zeta. repeat split; vm_compute; reflexivity. Qed.


(** ** Two scenarios of the specification *)

(** Online, with a fresh no-data entry for French and no English cache: the
    English quotes are fetched from the multilingual source, returned and
    cached under English. *)
Example english_fetched_for_language_without_quotes :
  let r := getQuotesForLanguage (host "fr" true (new_year + HOUR) bulk_only) false
             (initial (french_cache "[]" "0") (Some "fr")) in
  r.1 = Ok (sample_quotes "Stay hungry.") /\
  localStorage r.2 !! quotes_key "en" = Some (JSON_stringify (sample_quotes "Stay hungry.")) /\
  localStorage r.2 !! count_key "en" = Some "500" /\
  urls r.2 = metadataUrl :: (baseQuoteUrl ++ "en.json")%string :: nil.
Proof. cbv zeta. repeat split; vm_compute; reflexivity. Qed.

(** Online, with the multilingual source unreachable and the first provider
    answering: its quote is returned as a list of one and cached under the
    requested language with the count 1. *)
Example single_quote_cached_under_requested_language :
  let r := getQuotesForLanguage (host "fr" true new_year vercel_only) false
             (initial ∅ None) in
  r.1 = Ok (JArr (JObj (("quote", JStr "Keep going.") :: ("author", JStr "Sam") :: nil) :: nil)) /\
  localStorage r.2 !! quotes_key "fr"
  = Some (JSON_stringify
            (JArr (JObj (("quote", JStr "Keep going.") :: ("author", JStr "Sam") :: nil)
                   :: nil))) /\
  localStorage r.2 !! count_key "fr" = Some "1" /\
  urls r.2 = metadataUrl :: vercelUrl :: nil.
Proof. cbv zeta. repeat split; vm_compute; reflexivity. Qed.

(** * The rest of the script *)

(** ** Purges, whole *)

Lemma needsDataFetch_store (e : env) (s s' : state) (lang : string) :
  lastKnownLanguage s' = lastKnownLanguage s ->
  (forall key, keys_of lang key -> localStorage s' !! key = localStorage s !! key) ->
  needsDataFetch e s' lang = needsDataFetch e s lang.
Proof.
  intros Hl Hk. unfold needsDataFetch, storedCount, item_text, item_falsy. cbn [existsb].
  rewrite Hl, !Hk by (unfold keys_of; auto). reflexivity.
Qed.

Lemma startsWith_quotes_key (lang rest : string) :
  startsWith "quotes_" ("quotes_" ++ lang ++ rest) = true.
Proof. apply prefix_app. Qed.

Lemma keys_of_startsWith (lang key : string) :
  keys_of lang key -> startsWith "quotes_" key = true.
Proof.
  intros [-> | [-> | ->]]; unfold quotes_key, timestamp_key, count_key.
  - rewrite <- (string_app_empty lang). apply startsWith_quotes_key.
  - apply startsWith_quotes_key.
  - apply startsWith_quotes_key.
Qed.

(** X1. [clearQuotesStorage] deletes exactly the keys that start with
    [quotes_] and empties the two texts of the page; it issues no request;
    a second run changes nothing more; and afterwards the staleness check
    answers, for every language, [true] exactly when the caller is
    online. *)
Theorem clearQuotes_effect (w : state * page) :
  let w' := clearQuotes w in
  (forall key, localStorage w'.1 !! key
               = if startsWith "quotes_" key then None else localStorage w.1 !! key) /\
  quotesContainer w'.2 = EmptyString /\ authorName w'.2 = EmptyString /\
  requests w'.1 = requests w.1 /\
  clearQuotes w' = w' /\
  (forall e lang, needsDataFetch e w'.1 lang = onLine e).
Proof.
  cbv zeta. destruct w as [s p]. unfold clearQuotes. cbn [fst snd set_store localStorage].
  repeat split.
  - intros key. apply clearQuotesStorage_lookup.
  - f_equal. unfold set_store. cbn [localStorage lastKnownLanguage requests]. f_equal.
    apply (map_eq (M:=gmap string)). intros key. rewrite !clearQuotesStorage_lookup.
    now destruct (startsWith "quotes_" key).
  - intros e lang. apply (needsDataFetch_missing e _ lang (quotes_key lang)); [left; reflexivity|].
    unfold item_falsy. cbn [localStorage set_store]. rewrite clearQuotesStorage_lookup.
    now rewrite (keys_of_startsWith lang) by (left; reflexivity).
Qed.

(** X2. [clearOtherLanguageQuotes], as it is written: the keys outside the
    [quotes_] namespace, the metadata timestamp key and the three keys of
    the kept language keep their values; a key of the namespace that does
    not contain [quotes_] followed by the kept language is deleted; a
    second run changes nothing more; the staleness of the kept language is
    not affected; and with the empty language code as the one to keep,
    nothing is deleted at all. *)
Theorem clearOtherLanguageQuotes_effect (keep : string) (st : store) :
  let st' := clearOtherLanguageQuotes keep st in
  (forall key,
     keys_of keep key \/ key = metadata_timestamp_key \/ startsWith "quotes_" key = false ->
     st' !! key = st !! key) /\
  (forall key,
     startsWith "quotes_" key = true ->
     includes ("quotes_" ++ keep) key = false ->
     key <> metadata_timestamp_key ->
     st' !! key = None) /\
  clearOtherLanguageQuotes keep st' = st' /\
  (forall e s, needsDataFetch e (set_store st' s) keep = needsDataFetch e (set_store st s) keep) /\
  clearOtherLanguageQuotes EmptyString st = st.
Proof.
  cbv zeta. repeat split.
  - intros key. apply clearOtherLanguageQuotes_frame.
  - intros key. apply clearOtherLanguageQuotes_frame.
  - apply (map_eq (M:=gmap string)). intros key. rewrite !clearOtherLanguageQuotes_lookup.
    now destruct (purged keep key).
  - intros e s. apply needsDataFetch_store; [reflexivity|].
    intros key Hkey. cbn [set_store localStorage].
    apply clearOtherLanguageQuotes_frame. auto.
  - apply (map_eq (M:=gmap string)). intros key. rewrite clearOtherLanguageQuotes_lookup.
    unfold purged. destruct (startsWith "quotes_" key) eqn:P; [|reflexivity].
    rewrite string_app_empty, (includes_prefix _ _ P). reflexivity.
Qed.

(** ** The recorded language *)

(** X3. Asked on its own after the language has changed, [needsDataFetch]
    answers [true] online for every language, whatever the cache holds.
    [getQuotesForLanguage] records the current language before it asks, so
    its outcome and the state it leaves are those of a call that starts
    with the current language already recorded: a change of language alone
    does not make it refresh. *)
Theorem language_change_is_not_seen (e : env) (s : state) (l : string) :
  onLine e = true ->
  lastKnownLanguage s = Some l -> l <> currentLanguage e ->
  (forall lang, needsDataFetch e s lang = true) /\
  (forall forceRefresh,
     getQuotesForLanguage e forceRefresh s
     = getQuotesForLanguage e forceRefresh
         {| localStorage := localStorage s;
            lastKnownLanguage := Some (currentLanguage e);
            requests := requests s |}).
Proof.
  intros Hon Hl Hne. split.
  - intros lang. unfold needsDataFetch. rewrite Hon, Hl. cbn [negb].
    destruct (String.eqb_spec l (currentLanguage e)); [contradiction|reflexivity].
  - intros forceRefresh. rewrite !getQuotesForLanguage_after_record. reflexivity.
Qed.

Lemma language_change_is_not_seen_witness :
  let e := host "fr" true new_year unreachable in
  let s := initial (french_cache (JSON_stringify (sample_quotes "Bonjour")) "150") (Some "en") in
  needsDataFetch e s "fr" = true /\
  getQuotesForLanguage e false s
  = getQuotesForLanguage e false (initial (localStorage s) (Some "fr")).
Proof.
  cbv zeta.
  pose proof (language_change_is_not_seen
                (host "fr" true new_year unreachable)
                (initial (french_cache (JSON_stringify (sample_quotes "Bonjour")) "150")
                         (Some "en"))
                "en" eq_refl eq_refl ltac:(discriminate)) as [H1 H2].
  split; [apply H1 | apply H2].
Defined.

(** ** Reading the cache *)


(** ** Writing the cache *)

Lemma storeNoDataInfo_run (e : env) (s : state) (lang : string) (md : jsval) :
  storeNoDataInfo e lang md s
  = let s1 := marker_written e lang s in
    if truthy md then
      match ToString (opt_member md "lastUpdated") with
      | Some text =>
          (Ok tt, set_store (<[metadata_timestamp_key := text]> (localStorage s1)) s1)
      | None => (Throw TypeError, s1)
      end
    else (Ok tt, s1).
Proof.
  unfold storeNoDataInfo. destruct (truthy md) eqn:T; [|reflexivity].
  assert (P : prop_of md "lastUpdated" = ret (opt_member md "lastUpdated"))
    by (destruct md as [[]|]; try discriminate T; reflexivity).
  rewrite P. cbv zeta. unfold bind, setItem, with_store, ret. cbn [localStorage].
  destruct (ToString _); reflexivity.
Qed.

Lemma count_key_not_metadata (lang : string) : count_key lang <> metadata_timestamp_key.
Proof.
  unfold count_key, metadata_timestamp_key. intros E. injection E as E.
  assert (R : forall a b : string,
             (a ++ "_count" = b ++ "_timestamp" -> False)).
  { induction a as [|x a IH]; intros b H.
    - destruct b as [|y [|? [|? [|? [|? [|? [|? b]]]]]]]; simpl in H; try discriminate.
    - destruct b as [|y b].
      + change (String x (a ++ "_count") = "_timestamp") in H.
        do 10 (destruct a as [|? a]; [discriminate H|];
               try (change (String ?c (?r ++ "_count")) with (String c r ++ "_count") in H)).
        apply (f_equal String.length) in H. simpl in H.
        repeat (rewrite string_length_app in H; simpl in H). simpl in H. lia.
      + change (String x (a ++ "_count") = String y (b ++ "_timestamp")) in H.
        injection H as _ H. exact (IH b H). }
  exact (R lang "metadata" E).
Qed.

Lemma string_app_inv_tail (a b c : string) : a ++ c = b ++ c -> a = b.
Proof.
  revert b. induction a as [|x a IH]; intros b H.
  - destruct b as [|y b]; [reflexivity|]. exfalso.
    apply (f_equal String.length) in H. rewrite !string_length_app in H. simpl in H. lia.
  - destruct b as [|y b].
    + exfalso. apply (f_equal String.length) in H. rewrite !string_length_app in H.
      simpl in H. lia.
    + change (String x (a ++ c) = String y (b ++ c)) in H.
      injection H as -> H. f_equal. exact (IH b H).
Qed.

Lemma timestamp_key_not_metadata (lang : string) :
  lang <> "metadata" -> timestamp_key lang <> metadata_timestamp_key.
Proof.
  intros Hl E. apply Hl. unfold timestamp_key, metadata_timestamp_key in E.
  injection E as E. exact (string_app_inv_tail lang "metadata" "_timestamp" E).
Qed.

(** X5. [storeNoDataInfo] issues no request and throws nothing but a
    [TypeError], which it throws exactly when the metadata is supplied
    (not falsy) and its [lastUpdated] has no string; the marker is written
    before that. For a language code other than the reserved word
    [metadata_timestamp], the entry it writes reads back as the empty list
    with a stored count of 0; the keys other than the three of the
    language and the metadata timestamp key are left as they were; and,
    when the language code is not [metadata] either, the language is
    unchanged and the date codec reads back the non-empty text it writes
    for the current instant, the entry is not stale at that instant. *)
Theorem storeNoDataInfo_marker (e : env) (s : state) (lang : string) (md : jsval) :
  lang <> "metadata_timestamp" ->
  let r := storeNoDataInfo e lang md s in
  (r.1 = Ok tt \/ r.1 = Throw TypeError) /\
  (r.1 = Throw TypeError <->
   truthy md = true /\ ToString (opt_member md "lastUpdated") = None) /\
  (r.1 = Throw TypeError -> r.2 = marker_written e lang s) /\
  requests r.2 = requests s /\
  getStoredQuotes lang r.2 = (Ok (JArr nil), r.2) /\
  storedCount (localStorage r.2) lang = 0 /\
  (forall key, ~ keys_of lang key -> key <> metadata_timestamp_key ->
               localStorage r.2 !! key = localStorage s !! key) /\
  (lang <> "metadata" ->
   languageChanged e s = false ->
   toISOString e (Date_now e) <> EmptyString ->
   Date_parse e (toISOString e (Date_now e)) = Some (Date_now e) ->
   needsDataFetch e r.2 lang = false).
Proof.
  intros Hl. cbv zeta. rewrite storeNoDataInfo_run. cbv zeta.
  set (s1 := marker_written e lang s).
  set (r := if truthy md then _ else _).
  assert (Hr : r.1 = Ok tt /\ (exists text,
                 r.2 = set_store (<[metadata_timestamp_key := text]> (localStorage s1)) s1)
               \/ r.1 = Ok tt /\ r.2 = s1 /\ truthy md = false
               \/ r.1 = Throw TypeError /\ r.2 = s1 /\ truthy md = true
                  /\ ToString (opt_member md "lastUpdated") = None).
  { subst r. destruct (truthy md); [|auto].
    destruct (ToString _); [left; eauto | right; right; auto]. }
  assert (H1 : localStorage s1 !! quotes_key lang = Some "[]"
               /\ localStorage s1 !! count_key lang = Some "0"
               /\ localStorage s1 !! timestamp_key lang = Some (toISOString e (Date_now e))).
  { subst s1. unfold marker_written. cbn [localStorage]. split; [|split].
    - rewrite lookup_insert_ne by apply not_eq_sym, quotes_key_not_count_key.
      rewrite lookup_insert_ne by apply not_eq_sym, quotes_key_not_timestamp_key.
      now rewrite lookup_insert_eq.
    - now rewrite lookup_insert_eq.
    - rewrite lookup_insert_ne by apply not_eq_sym, timestamp_key_not_count_key.
      now rewrite lookup_insert_eq. }
  assert (F1 : forall key, ~ keys_of lang key ->
                           localStorage s1 !! key = localStorage s !! key).
  { intros key Hk. subst s1. unfold marker_written. cbn [localStorage].
    rewrite !lookup_insert_ne; [reflexivity| | |];
      intros <-; apply Hk; unfold keys_of; auto. }
  assert (Hq : localStorage r.2 !! quotes_key lang = Some "[]"
               /\ localStorage r.2 !! count_key lang = Some "0"
               /\ (lang <> "metadata" ->
                   localStorage r.2 !! timestamp_key lang
                   = Some (toISOString e (Date_now e)))
               /\ requests r.2 = requests s
               /\ lastKnownLanguage r.2 = lastKnownLanguage s
               /\ forall key, ~ keys_of lang key -> key <> metadata_timestamp_key ->
                              localStorage r.2 !! key = localStorage s !! key).
  { destruct H1 as (Q1 & Q2 & Q3).
    destruct Hr as [(_ & text & ->) | [(_ & -> & _) | (_ & -> & _)]];
      cbn [localStorage set_store requests lastKnownLanguage];
      try (repeat split; auto; fail).
    split; [|split; [|split; [|split; [|split]]]]; try reflexivity.
    - now rewrite lookup_insert_ne by (apply not_eq_sym, quotes_key_not_metadata, Hl).
    - now rewrite lookup_insert_ne by apply not_eq_sym, count_key_not_metadata.
    - intros Hl'.
      now rewrite lookup_insert_ne by (apply not_eq_sym, timestamp_key_not_metadata, Hl').
    - intros key Hk Hm. rewrite lookup_insert_ne by (intros E; apply Hm; now rewrite E).
      now apply F1. }
  destruct Hq as (Hquotes & Hcount & Hts & Hreq & Hlast & Hframe).
  split; [|split; [|split; [|split; [|split; [|split; [|split]]]]]].
  - destruct Hr as [(-> & _) | [(-> & _) | (-> & _)]]; auto.
  - destruct Hr as [(E & text & _) | [(E & _ & T) | (E & _ & T & N)]]; rewrite E.
    + split; [discriminate|]. intros (T & N). subst r. rewrite T, N in E. discriminate E.
    + split; [discriminate|]. intros (T' & _). congruence.
    + split; auto.
  - destruct Hr as [(E & _) | [(E & _) | (_ & E & _)]]; rewrite E; try discriminate.
    intros _. reflexivity.
  - exact Hreq.
  - apply (getStoredQuotes_stringified e _ lang (JArr nil)); [reflexivity | exact Hquotes].
  - unfold storedCount, item_text. rewrite Hcount. reflexivity.
  - exact Hframe.
  - intros Hl' Hlang Hne Hparse. specialize (Hts Hl').
    destruct (onLine e) eqn:Hon; [|now apply needsDataFetch_offline].
    rewrite needsDataFetch_reached; try assumption.
    + unfold item_text. rewrite Hts, Hparse.
      unfold storedCount, item_text. rewrite Hcount. cbn. rewrite Z.sub_diag. reflexivity.
    + unfold languageChanged in *. now rewrite Hlast.
    + eexists. split; [exact Hquotes | discriminate].
    + eexists. split; [exact Hts | exact Hne].
    + eexists. split; [exact Hcount | discriminate].
Qed.

Lemma storeNoDataInfo_marker_witness :
  let e := host "de" true new_year unreachable in
  let r := storeNoDataInfo e "de" (Some sample_metadata) (initial ∅ None) in
  r.1 = Ok tt /\
  getStoredQuotes "de" r.2 = (Ok (JArr nil), r.2) /\
  storedCount (localStorage r.2) "de" = 0 /\
  needsDataFetch e r.2 "de" = false.
Proof.
  cbv zeta.
  pose proof (storeNoDataInfo_marker (host "de" true new_year unreachable)
                (initial ∅ None) "de" (Some sample_metadata) ltac:(discriminate))
    as (H0 & H1 & _ & _ & H2 & H3 & _ & H4).
  split; [|split; [exact H2 | split; [exact H3 |]]].
  - destruct H0 as [H0 | H0]; [exact H0|]. apply H1 in H0 as [_ H0]. discriminate H0.
  - apply H4; [discriminate | reflexivity | vm_compute; discriminate | vm_compute; reflexivity].
Defined.

Lemma prop_of_truthy (v : jsval) (key : string) (s : state) :
  truthy v = true -> prop_of v key s = (Ok (opt_member v key), s).
Proof. destruct v as [[]|]; try discriminate; reflexivity. Qed.

Lemma toString_method_run (v : jsval) (s : state) :
  toString_method v s
  = (match method_text v with
     | Some text => Ok text
     | None => Throw TypeError
     end, s).
Proof.
  destruct v as [[]|]; try reflexivity; unfold toString_method, method_text;
    destruct (to_string _); reflexivity.
Qed.

Lemma storeQuotesData_eq (e : env) (s : state) (lang : string) (quotes : json) (md : jsval) :
  storeQuotesData e lang quotes md s
  = let s1 := quotes_written e lang quotes s in
    let count := reported_count md lang in
    let quoteCount := if truthy count then count else opt_member (Some quotes) "length" in
    if truthy md then
      match ToString (opt_member md "lastUpdated") with
      | None => (Throw TypeError, s1)
      | Some text =>
          let s2 := set_store (<[metadata_timestamp_key := text]> (localStorage s1)) s1 in
          match method_text quoteCount with
          | None => (Throw TypeError, s2)
          | Some number =>
              (Ok tt, set_store (<[count_key lang := number]> (localStorage s2)) s2)
          end
      end
    else (Ok tt, s1).
Proof.
  cbv zeta. unfold storeQuotesData, reported_count.
  unfold bind at 1. unfold setItem at 1, with_store at 1.
  unfold bind at 1. unfold setItem at 1, with_store at 1.
  cbn [localStorage lastKnownLanguage requests].
  change {| localStorage := <[timestamp_key lang := toISOString e (Date_now e)]>
                              (<[quotes_key lang := JSON_stringify quotes]> (localStorage s));
            lastKnownLanguage := lastKnownLanguage s;
            requests := requests s |} with (quotes_written e lang quotes s).
  set (s1 := quotes_written e lang quotes s).
  destruct (truthy md) eqn:T; [|reflexivity].
  unfold bind at 1. rewrite (prop_of_truthy md "lastUpdated" s1 T).
  unfold bind at 1.
  destruct (ToString (opt_member md "lastUpdated")) as [text|]; [|reflexivity].
  cbn [converted ret].
  unfold bind at 1. unfold setItem at 1, with_store at 1.
  change {| localStorage := <[metadata_timestamp_key := text]> (localStorage s1);
            lastKnownLanguage := lastKnownLanguage s1;
            requests := requests s1 |}
    with (set_store (<[metadata_timestamp_key := text]> (localStorage s1)) s1).
  set (s2 := set_store _ s1).
  set (count := opt_member (opt_member (opt_member md "files") (lang ++ ".json")) "count").
  unfold bind at 1.
  destruct (truthy count).
  - cbn [ret]. unfold bind. rewrite toString_method_run.
    destruct (method_text count); reflexivity.
  - destruct quotes; cbn [prop throw ret opt_member]; try reflexivity;
      unfold bind; rewrite toString_method_run;
      destruct (method_text _); reflexivity.
Qed.

(** X6. The failures of [storeQuotesData]. It throws nothing but a
    [TypeError]. With falsy metadata it writes the quotes and the
    timestamp only, and returns. With supplied metadata it throws exactly
    when the [lastUpdated] of the metadata has no string, or the value it
    is to store as the count has none: the count the metadata reports for
    the file of the language or, when that is falsy, the length of the
    quotes, which may be missing. In the first case the quotes and the
    timestamp have been written, in the second the metadata timestamp as
    well; the count has not. *)
Theorem storeQuotesData_failure
    (e : env) (s : state) (lang : string) (quotes : json) (md : jsval) :
  let r := storeQuotesData e lang quotes md s in
  let s1 := quotes_written e lang quotes s in
  let count := reported_count md lang in
  let quoteCount := if truthy count then count else opt_member (Some quotes) "length" in
  let lastUpdated := ToString (opt_member md "lastUpdated") in
  (r.1 = Ok tt \/ r.1 = Throw TypeError) /\
  (truthy md = false -> r = (Ok tt, s1)) /\
  (r.1 = Throw TypeError <->
   truthy md = true /\ (lastUpdated = None \/ method_text quoteCount = None)) /\
  (r.1 = Throw TypeError -> lastUpdated = None -> r.2 = s1) /\
  (r.1 = Throw TypeError ->
   forall text, lastUpdated = Some text ->
                r.2 = set_store (<[metadata_timestamp_key := text]> (localStorage s1)) s1) /\
  (forall text number, truthy md = true ->
     lastUpdated = Some text -> method_text quoteCount = Some number ->
     r = (Ok tt,
          set_store (<[count_key lang := number]>
                       (<[metadata_timestamp_key := text]> (localStorage s1))) s1)).
Proof.
  cbv zeta. rewrite storeQuotesData_eq. cbv zeta.
  set (s1 := quotes_written e lang quotes s).
  destruct (truthy md).
  2:{ cbn [fst snd]. split; [auto|]. split; [auto|]. split; [|split; [|split]]; try discriminate.
      split; [discriminate | intros (H & _); discriminate]. }
  destruct (ToString (opt_member md "lastUpdated")) as [text|].
  2:{ cbn [fst snd]. split; [auto|]. split; [discriminate|]. split; [split; auto|].
      split; [auto|]. split; discriminate. }
  cbv zeta. destruct (method_text _) as [number|]; cbn [fst snd].
  - split; [auto|]. split; [discriminate|].
    split; [split; [discriminate | intros (_ & [H | H]); discriminate H]|].
    split; [discriminate|]. split; [discriminate|].
    intros text' number' _ [= <-] [= <-]. reflexivity.
  - split; [auto|]. split; [discriminate|]. split; [split; auto|].
    split; [discriminate|]. split; [|discriminate].
    intros _ text' [= <-]. reflexivity.
Qed.

(** ** The providers *)

Lemma js_or_assoc (a b c : jsval) : a ||| b ||| c = a ||| (b ||| c).
Proof. unfold js_or. destruct (truthy a) eqn:T; [now rewrite T | reflexivity]. Qed.

Lemma js_or_member (data : json) (key : string) (rest : list string) (d : json) :
  member data key ||| Some (first_truthy data rest d)
  = Some (first_truthy data (key :: rest) d).
Proof.
  unfold js_or. cbn [first_truthy]. destruct (member data key) as [j|]; [|reflexivity].
  destruct (truthy (Some j)); reflexivity.
Qed.

Lemma first_truthy_default (data : json) (keys : list string) (d : json) :
  truthy (Some d) = true -> truthy (Some (first_truthy data keys d)) = true.
Proof.
  intros Hd. induction keys as [|key keys IH]; cbn [first_truthy]; [exact Hd|].
  destruct (member data key) as [j|]; [|exact IH].
  destruct (truthy (Some j)) eqn:T; [exact T | exact IH].
Qed.

(** The quote a provider builds from a JSON answer. *)
Lemma built_quote (data : json) (texts : list string) :
  let quote := first_truthy data texts (JStr EmptyString) in
  let author := first_truthy data ("author" :: "by" :: nil) (JStr "Unknown") in
  truthy (Some author) = true /\
  complete (JObj (("quote", quote) :: ("author", author) :: nil)) = truthy (Some quote).
Proof.
  cbv zeta.
  pose proof (first_truthy_default data ("author" :: "by" :: nil) (JStr "Unknown") eq_refl)
    as Ta.
  split; [exact Ta|]. unfold complete.
  cbn [opt_member member lookup_field String.eqb Ascii.eqb Bool.eqb].
  rewrite Ta, andb_true_r. reflexivity.
Qed.

Lemma provider_answer (data : json) (texts : list string) (quote author : jsval) :
  quote = Some (first_truthy data texts (JStr EmptyString)) ->
  author = Some (first_truthy data ("author" :: "by" :: nil) (JStr "Unknown")) ->
  let q := first_truthy data texts (JStr EmptyString) in
  let a := first_truthy data ("author" :: "by" :: nil) (JStr "Unknown") in
  @Ok json (make_quote quote author) = Ok (JObj (("quote", q) :: ("author", a) :: nil)) /\
  truthy (Some a) = true /\
  complete (JObj (("quote", q) :: ("author", a) :: nil)) = truthy (Some q).
Proof.
  intros -> ->. cbv zeta. split; [reflexivity|]. apply built_quote.
Qed.

Ltac provider_chain :=
  rewrite ?js_or_assoc;
  match goal with
  | |- context [Some (JStr ?d)] =>
      match goal with
      | |- _ ||| _ = Some (first_truthy ?data _ _) =>
          change (Some (JStr d)) with (Some (first_truthy data nil (JStr d)))
      end
  end;
  rewrite !js_or_member; reflexivity.

(** X7. The three providers of one quote. Each issues exactly one request
    and leaves the store alone. A rejected request gives a network error; a
    response whose status is not ok an HTTP error, whatever its body; a
    body that is not JSON a syntax error; the body [null] a type error.
    From any other JSON body a quote is built: its text is the first
    truthy one of the [quote], [text] and [content] of the answer (and,
    for the programming provider, its [en]), else the empty string; its
    author is the [author] of the answer when truthy, else its [by] when
    truthy, else "Unknown". So the author is never falsy and the quote is
    complete exactly when its text is truthy. The identifier asked of
    dummyjson lies between 1 and 100. *)
Theorem providers_law (e : env) (s : state) :
  provider_law e vercelUrl ("quote" :: "text" :: "content" :: nil) (fetchVercelQuote e) s /\
  provider_law e programmingUrl ("quote" :: "text" :: "content" :: "en" :: nil)
    (fetchProgrammingQuote e) s /\
  provider_law e (dummyjsonUrl ++ "/" ++ dec_of_Z (drawn_id e s))
    ("quote" :: "text" :: "content" :: nil) (fetchDummyJsonQuote e) s /\
  1 <= drawn_id e s <= 100.
Proof.
  unfold provider_law. split; [|split; [|split]].
  - split; [apply fetchVercelQuote_state|].
    unfold fetchVercelQuote, logged, try_catch, bind, fetch.
    destruct (net e (length (requests s)) vercelUrl) as [|r]; [reflexivity|].
    destruct (ok r); cbn [negb]; [|reflexivity]. unfold response_json.
    destruct (body r) as [data|]; [|reflexivity].
    destruct data; try reflexivity; cbn [prop ret throw fst];
      apply provider_answer; provider_chain.
  - split; [apply fetchProgrammingQuote_state|].
    unfold fetchProgrammingQuote, logged, try_catch, bind, fetch.
    destruct (net e (length (requests s)) programmingUrl) as [|r]; [reflexivity|].
    destruct (ok r); cbn [negb]; [|reflexivity]. unfold response_json.
    destruct (body r) as [data|]; [|reflexivity].
    destruct data; try reflexivity; cbn [prop ret throw fst];
      apply provider_answer; provider_chain.
  - split; [apply fetchDummyJsonQuote_state|].
    unfold fetchDummyJsonQuote, logged, try_catch, bind, fetch, drawn_id.
    destruct (net e (length (requests s)) _) as [|r]; [reflexivity|].
    destruct (ok r); cbn [negb]; [|reflexivity]. unfold response_json.
    destruct (body r) as [data|]; [|reflexivity].
    destruct data; try reflexivity; cbn [prop ret throw fst];
      apply provider_answer; provider_chain.
  - unfold drawn_id.
    pose proof (Nat.mod_upper_bound (random100 e (length (requests s))) 100 ltac:(lia)). lia.
Qed.

(** An answer of the programming provider with its text under [en] and
    its author under [by], and the same answer sent by the first
    provider, which does not look at [en]. *)
Example providers_fields :
  let answer := JObj (("en", JStr "Talk is cheap.") :: ("by", JStr "Linus") :: nil) in
  let e (address : string) :=
    host "fr" true new_year
      (fun _ a => if String.eqb a address then json_ok answer else Rejected) in
  (fetchProgrammingQuote (e programmingUrl) (initial ∅ None)).1
  = Ok (JObj (("quote", JStr "Talk is cheap.") :: ("author", JStr "Linus") :: nil)) /\
  (fetchVercelQuote (e vercelUrl) (initial ∅ None)).1
  = Ok (JObj (("quote", JStr EmptyString) :: ("author", JStr "Linus") :: nil)).
Proof. split; vm_compute; reflexivity. Qed.

Lemma loader_run (e : env) (address : string) (s : state) :
  loader_law e address
    (logged (let* response := fetch e address in response_json response)) s.
Proof.
  unfold loader_law, logged, try_catch, bind, fetch, response_json.
  destruct (net e (length (requests s)) address) as [|r]; [reflexivity|].
  destruct (body r); reflexivity.
Qed.

(** X8. The two loaders of the multilingual source, [fetchMetadata] and
    [fetchQuotes], issue one request each and leave the store alone; a
    rejected request gives a network error and a body that is not JSON a
    syntax error; the status of the response is not looked at, so the JSON
    body of a response that is not ok is returned like any other. *)
Theorem loaders_law (e : env) (lang : string) (s : state) :
  loader_law e metadataUrl (fetchMetadata e) s /\
  loader_law e (baseQuoteUrl ++ lang ++ ".json") (fetchQuotes e lang) s /\
  (forall r j, net e (length (requests s)) (baseQuoteUrl ++ lang ++ ".json") = Responded r ->
               body r = Some j -> (fetchQuotes e lang s).1 = Ok j).
Proof.
  split; [apply loader_run | split; [apply loader_run|]].
  intros r j Hr Hj. pose proof (loader_run e (baseQuoteUrl ++ lang ++ ".json") s) as H.
  unfold loader_law in H. unfold fetchQuotes. rewrite H, Hr, Hj. reflexivity.
Qed.

(** ** Caching one quote *)

Lemma try_apis_result (apis : list (string * M json)) (s : state) :
  match try_apis apis s with
  | (Ok quote, _) => complete quote = true
  | (Throw err, _) => err = AllFailed
  end.
Proof.
  revert s. induction apis as [|[name fn] rest IH]; intros s; [reflexivity|].
  rewrite try_apis_cons. destruct (fn s) as [[quote|err] s1]; cbn [fst snd usable].
  - destruct (complete quote) eqn:C; [exact C | apply IH].
  - apply IH.
Qed.

Lemma storeSingle_run (e : env) (lang : string) (quotes : json) (s : state) :
  storeSingle e lang quotes s
  = (Ok tt,
     set_store (<[count_key lang := "1"]>
                  (<[timestamp_key lang := toISOString e (Date_now e)]>
                     (<[quotes_key lang := JSON_stringify quotes]> (localStorage s)))) s).
Proof. reflexivity. Qed.

(** X9. The fallback of a failed refresh, [fetchAlternativeQuote] followed
    by the three writes that cache its quote. When the chain gives a quote,
    which then has a truthy text and author, the result is the list of
    that one quote, and no request is added to those of the chain; the
    text of the list is stored under the current language with a count of
    1 and the current timestamp, so that the list reads back as returned
    when its numbers are integers up to 2^53; no other key is touched.
    When the chain fails, the error is the all-failed one, it is thrown
    on, and the store is as it was. *)
Theorem alternativeForCurrent_caches (e : env) (s : state) :
  let r := alternativeForCurrent e s in
  match fetchAlternativeQuote e s with
  | (Ok quote, s1) =>
      let quotes := JArr (quote :: nil) in
      r.1 = Ok quotes /\
      complete quote = true /\
      requests r.2 = requests s1 /\
      lastKnownLanguage r.2 = lastKnownLanguage s1 /\
      localStorage r.2 !! quotes_key (currentLanguage e) = Some (JSON_stringify quotes) /\
      localStorage r.2 !! timestamp_key (currentLanguage e)
      = Some (toISOString e (Date_now e)) /\
      localStorage r.2 !! count_key (currentLanguage e) = Some "1" /\
      storedCount (localStorage r.2) (currentLanguage e) = 1 /\
      (plain quote = true -> getStoredQuotes (currentLanguage e) r.2 = (Ok quotes, r.2)) /\
      (forall key, ~ keys_of (currentLanguage e) key ->
                   localStorage r.2 !! key = localStorage s !! key)
  | (Throw err, s1) =>
      r = (Throw AllFailed, s1) /\ err = AllFailed /\ localStorage s1 = localStorage s
  end.
Proof.
  pose proof (try_apis_result
                (("vercel", fetchVercelQuote e) :: ("programming", fetchProgrammingQuote e)
                 :: ("dummyjson", fetchDummyJsonQuote e) :: nil) s) as R.
  pose proof (store_free_fetchAlternativeQuote e s) as F.
  cbv zeta. unfold alternativeForCurrent, try_catch, bind.
  change (try_apis _ s) with (fetchAlternativeQuote e s) in R.
  destruct (fetchAlternativeQuote e s) as [[quote|err] s1]; cbn [snd] in F.
  2:{ cbn. subst err. auto. }
  rewrite storeSingle_run. cbn [ret set_store localStorage fst snd].
  set (L := currentLanguage e).
  assert (Hq : (<[count_key L := "1"]>
                  (<[timestamp_key L := toISOString e (Date_now e)]>
                     (<[quotes_key L := JSON_stringify (JArr (quote :: nil))]>
                        (localStorage s1))) : store) !! quotes_key L
               = Some (JSON_stringify (JArr (quote :: nil)))).
  { rewrite lookup_insert_ne by apply not_eq_sym, quotes_key_not_count_key.
    rewrite lookup_insert_ne by apply not_eq_sym, quotes_key_not_timestamp_key.
    now rewrite lookup_insert_eq. }
  split; [reflexivity|]. split; [exact R|]. split; [reflexivity|]. split; [reflexivity|].
  split; [exact Hq|]. split; [|split; [|split; [|split]]].
  - rewrite lookup_insert_ne by apply not_eq_sym, timestamp_key_not_count_key.
    now rewrite lookup_insert_eq.
  - now rewrite lookup_insert_eq.
  - unfold storedCount, item_text. now rewrite lookup_insert_eq.
  - intros Hp. apply (getStoredQuotes_stringified e); [|exact Hq].
    cbn [plain forallb]. now rewrite Hp.
  - intros key Hk. rewrite <- F.
    rewrite !lookup_insert_ne; [reflexivity| | |]; intros <-; apply Hk; unfold keys_of; auto.
Qed.

(** ** Serving from the cache *)

Lemma getStoredQuotes_parsed (lang text : string) (j : json) (s : state) :
  localStorage s !! quotes_key lang = Some text -> text <> EmptyString ->
  JSON_parse text = Some j ->
  getStoredQuotes lang s = (Ok j, s).
Proof.
  intros H Hne Hp. unfold getStoredQuotes, bind, getItem. rewrite H. simpl.
  destruct (String.eqb_spec text EmptyString); [contradiction|]. now rewrite Hp.
Qed.

(** The call on a cache that is not stale and holds a non-empty list. *)
Lemma served_from_cache
    (e : env) (s : state) (text : string) (first : json) (others : list json) :
  let s1 := {| localStorage := localStorage s;
               lastKnownLanguage := Some (currentLanguage e);
               requests := requests s |} in
  needsDataFetch e s1 (currentLanguage e) = false ->
  storedCount (localStorage s) (currentLanguage e) <> 0 \/ currentLanguage e = "en" ->
  localStorage s !! quotes_key (currentLanguage e) = Some text ->
  JSON_parse text = Some (JArr (first :: others)) ->
  getQuotesForLanguage e false s = (Ok (JArr (first :: others)), s1).
Proof.
  cbv zeta. intros Hfresh Hcount Htext Hparse.
  rewrite getQuotesForLanguage_after_record.
  set (s1 := {| localStorage := localStorage s; lastKnownLanguage := _; requests := _ |}) in *.
  apply try_ok. erewrite bind_ok by (cbn [orb]; rewrite Hfresh; reflexivity).
  unfold cacheBranch. erewrite bind_ok by reflexivity.
  cbn [localStorage s1].
  replace (_ && _) with false.
  2:{ symmetry. destruct Hcount as [Hc | ->].
      - apply Z.eqb_neq in Hc. now rewrite Hc.
      - apply andb_false_r. }
  erewrite bind_ok.
  2:{ apply (getStoredQuotes_parsed _ text (JArr (first :: others))); [exact Htext| |exact Hparse].
      intros ->. discriminate Hparse. }
  reflexivity.
Qed.

(** X10. A hit of the cache. Without a forced refresh, when the staleness
    check (asked with the current language recorded) says no, the stored
    count of the current language is not 0 or the language is English, and
    the stored text of its quotes reads as a non-empty list, the call
    returns that list, issues no request and leaves the store as it is;
    only the recorded language is set, and the same call made again
    returns the same list and changes nothing. *)
Theorem getQuotesForLanguage_cache_hit
    (e : env) (s : state) (text : string) (first : json) (others : list json) :
  let s1 := {| localStorage := localStorage s;
               lastKnownLanguage := Some (currentLanguage e);
               requests := requests s |} in
  needsDataFetch e s1 (currentLanguage e) = false ->
  storedCount (localStorage s) (currentLanguage e) <> 0 \/ currentLanguage e = "en" ->
  localStorage s !! quotes_key (currentLanguage e) = Some text ->
  JSON_parse text = Some (JArr (first :: others)) ->
  getQuotesForLanguage e false s = (Ok (JArr (first :: others)), s1) /\
  getQuotesForLanguage e false s1 = (Ok (JArr (first :: others)), s1).
Proof.
  cbv zeta. intros Hfresh Hcount Htext Hparse. split.
  - exact (served_from_cache e s text first others Hfresh Hcount Htext Hparse).
  - set (s1 := {| localStorage := localStorage s; lastKnownLanguage := _; requests := _ |}) in *.
    exact (served_from_cache e s1 text first others Hfresh Hcount Htext Hparse).
Qed.

Lemma getQuotesForLanguage_cache_hit_witness :
  let e := host "fr" true new_year unreachable in
  let s := initial (french_cache (JSON_stringify (sample_quotes "Bonjour")) "150") (Some "en") in
  getQuotesForLanguage e false s
  = (Ok (sample_quotes "Bonjour"), initial (localStorage s) (Some "fr")).
Proof.
  cbv zeta.
  apply (getQuotesForLanguage_cache_hit
           (host "fr" true new_year unreachable)
           (initial (french_cache (JSON_stringify (sample_quotes "Bonjour")) "150") (Some "en"))
           (JSON_stringify (sample_quotes "Bonjour"))).
  - vm_compute. reflexivity.
  - left. vm_compute. discriminate.
  - vm_compute. reflexivity.
  - vm_compute. reflexivity.
Defined.

(** ** A refresh, then the cache *)






(** ** The namespace of the cache *)

Lemma ww_weaken {A : Type} (K K' : string -> Prop) (m : M A) :
  (forall key, K key -> K' key) -> writes_within K m -> writes_within K' m.
Proof. intros HK Hm s key Hk. apply Hm. intros H. apply Hk, HK, H. Qed.

(** The keys of the cache: those that start with [quotes_]. *)
Lemma cache_keys_namespace (e : env) (key : string) :
  cache_keys e key -> startsWith "quotes_" key = true.
Proof.
  intros [H | [H | ->]]; [now apply (keys_of_startsWith (currentLanguage e))
                         | now apply (keys_of_startsWith "en") | reflexivity].
Qed.

Lemma ww_purge (keep : string) :
  writes_within (fun key => startsWith "quotes_" key = true)
    (with_store (clearOtherLanguageQuotes keep)).
Proof.
  intros s key Hk. rewrite with_store_run. cbn [snd localStorage set_store].
  apply clearOtherLanguageQuotes_frame. right. right.
  destruct (startsWith "quotes_" key); [contradiction | reflexivity].
Qed.

Lemma ww_storeNoDataInfo (e : env) (K : string -> Prop) (lang : string) (md : jsval) :
  (forall key, keys_of lang key -> K key) -> K metadata_timestamp_key ->
  writes_within K (storeNoDataInfo e lang md).
Proof.
  intros HK Hmd s key Hk. rewrite storeNoDataInfo_run. cbv zeta.
  assert (B : localStorage (marker_written e lang s) !! key = localStorage s !! key).
  { unfold marker_written. cbn [localStorage].
    rewrite !lookup_insert_ne; [reflexivity| | |];
      intros <-; apply Hk, HK; unfold keys_of; auto. }
  destruct (truthy md); [|exact B].
  destruct (ToString _); [|exact B]. cbn [snd localStorage set_store].
  rewrite lookup_insert_ne by (intros <-; contradiction). exact B.
Qed.

Lemma ww_bulkFetch (e : env) :
  writes_within (fun key => startsWith "quotes_" key = true) (bulkFetch e).
Proof.
  unfold bulkFetch. cbv zeta.
  apply ww_bind; [apply ww_store_free, store_free_fetchMetadata|]. intros metadata.
  apply ww_bind; [apply ww_store_free, store_free_quiet, quiet_lift|]. intros targetLang.
  apply ww_bind; [apply ww_store_free, store_free_quiet, quiet_prop|]. intros files.
  apply ww_bind.
  { destruct (_ && _); [|apply ww_ret].
    apply ww_storeNoDataInfo; [apply keys_of_startsWith | reflexivity]. }
  intros _. apply ww_bind; [apply ww_store_free, store_free_fetchQuotes|]. intros quotes.
  apply ww_bind.
  { apply ww_storeQuotesData; [apply keys_of_startsWith | reflexivity]. }
  intros _. apply ww_bind; [apply ww_purge | intros; apply ww_ret].
Qed.

Lemma ww_outerHandler (e : env) (K : string -> Prop) (err : error) :
  writes_within K (outerHandler e err).
Proof.
  intros s key _.
  destruct (outerHandler_cases e err s) as [(q & s' & -> & H) | [-> _]];
    [cbn [snd]; now rewrite H | reflexivity].
Qed.

Lemma ww_getQuotesForLanguage (e : env) (forceRefresh : bool) :
  writes_within (fun key => startsWith "quotes_" key = true)
    (getQuotesForLanguage e forceRefresh).
Proof.
  unfold getQuotesForLanguage, pipeline.
  apply ww_try_catch; [|intros; apply ww_outerHandler].
  apply ww_bind; [apply (ww_pure _ (languageChanged e))|]. intros _.
  apply ww_bind; [intros s key _; reflexivity|]. intros _.
  apply ww_bind;
    [apply (ww_pure _ (fun s => forceRefresh || needsDataFetch e s (currentLanguage e)))|].
  intros [|].
  - unfold fetchBranch. apply ww_try_catch; [apply ww_bulkFetch|]. intros _.
    apply (ww_weaken (keys_of (currentLanguage e)));
      [apply keys_of_startsWith | apply ww_alternativeForCurrent].
  - apply (ww_weaken (cache_keys e)); [apply cache_keys_namespace | apply ww_cacheBranch].
Qed.

(** X12. [getQuotesForLanguage] stays in its namespace: whatever the
    network does and whatever the call returns or throws, every key of
    the store that does not start with [quotes_] holds afterwards what it
    held before. *)
Theorem getQuotesForLanguage_namespace
    (e : env) (forceRefresh : bool) (s : state) (key : string) :
  startsWith "quotes_" key = false ->
  localStorage (getQuotesForLanguage e forceRefresh s).2 !! key = localStorage s !! key.
Proof.
  intros H. apply ww_getQuotesForLanguage. rewrite H. discriminate.
Qed.

Lemma getQuotesForLanguage_namespace_witness :
  let e := host "fr" true new_year bulk_only in
  let s := initial (<["showShortcutSwitch" := "true"]> (french_cache "[]" "150")) None in
  localStorage (getQuotesForLanguage e true s).2 !! "showShortcutSwitch" = Some "true".
Proof.
  cbv zeta.
  rewrite (getQuotesForLanguage_namespace (host "fr" true new_year bulk_only) true
             (initial (<["showShortcutSwitch" := "true"]> (french_cache "[]" "150")) None)
             "showShortcutSwitch" eq_refl).
  reflexivity.
Defined.

(** ** Showing a quote *)

Lemma lengths_quote_item (q : string * string) :
  lengths (Some (quote_item q))
  = Ok (Some (JNum (Z.of_nat (utf16_length q.1))), Some (JNum (Z.of_nat (utf16_length q.2)))).
Proof. reflexivity. Qed.

Lemma num_add_integers (a b : Z) : num_add (Finite a 0) (Finite b 0) = Finite (a + b) 0.
Proof.
  unfold num_add. change (Z.min 0 0) with 0.
  change (0 <=? 0) with true. change (2 ^ (0 - 0)) with 1. change (2 ^ 0) with 1.
  cbv iota. now rewrite !Z.mul_1_r.
Qed.

Lemma sum_le_numbers (a b n : Z) :
  sum_le (Some (JNum a)) (Some (JNum b)) n = Some (a + b <=? n).
Proof.
  unfold sum_le. cbn [primitive orb ToNumber].
  now rewrite num_add_integers, num_leb_integers.
Qed.

Lemma fits_too_long (q : string * string) :
  sum_le (Some (JNum (Z.of_nat (utf16_length q.1))))
         (Some (JNum (Z.of_nat (utf16_length q.2)))) MAX_QUOTE_LENGTH
  = Some (negb (too_long q)).
Proof. rewrite sum_le_numbers. unfold too_long. f_equal. apply Z.leb_antisym. Qed.

Lemma floor_random_length (r : nat) (items : list json) :
  items <> nil ->
  floor_random r (member (JArr items) "length")
  = Some (Finite (Z.of_nat (r mod length items)) 0).
Proof.
  intros Hne. assert (Hn : (0 < length items)%nat) by (destruct items; [contradiction | simpl; lia]).
  unfold member. cbn [String.eqb Ascii.eqb Bool.eqb].
  unfold floor_random. cbn [ToNumber fmap option_fmap option_map].
  destruct (Z.ltb_spec 0 (Z.of_nat (length items))) as [_|]; [|lia].
  unfold ceiling_of. cbn [Z.leb Z.compare Z.pow Z.pow_pos Pos.iter]. 
  rewrite Z.mul_1_r, <- Nat2Z.inj_mod. reflexivity.
Qed.

(** The draw of one attempt from a list of well-formed quotes. *)
Lemma element_drawn (rnd : nat -> nat) (items : list (string * string)) (k : nat) :
  items <> nil ->
  element (JArr (List.map quote_item items))
    (Finite (Z.of_nat (rnd k mod length (List.map quote_item items))) 0)
  = Some (quote_item (drawn rnd items k)).
Proof.
  intros Hne. rewrite length_map.
  assert (Hn : (0 < length items)%nat) by (destruct items; [contradiction | simpl; lia]).
  unfold element, floor_of. cbn [Z.leb Z.compare Z.pow Z.pow_pos Pos.iter].
  rewrite Z.mul_1_r.
  destruct (Z.leb_spec 0 (Z.of_nat (rnd k mod length items))) as [_|]; [|lia].
  rewrite Nat2Z.id. unfold drawn. cbn [mbind option_bind].
  assert (Hk : (rnd k mod length items < length items)%nat)
    by (apply Nat.mod_upper_bound; lia).
  rewrite nth_error_map.
  rewrite (nth_error_nth' items (EmptyString, EmptyString) Hk). reflexivity.
Qed.

Lemma sample_step (rnd : nat -> nat) (quotes : json) (k left : nat) (previous : jsval) :
  sample rnd quotes k (S left) previous
  = match floor_random (rnd k) (member quotes "length") with
    | None => Throw TypeError
    | Some randomIndex =>
        let selectedQuote := element quotes randomIndex in
        match lengths selectedQuote with
        | Throw err => Throw err
        | Ok (quoteLength, authorLength) =>
            match sum_le quoteLength authorLength MAX_QUOTE_LENGTH with
            | None => Throw TypeError
            | Some true => Ok (selectedQuote, S k)
            | Some false => sample rnd quotes (S k) left selectedQuote
            end
        end
    end.
Proof. reflexivity. Qed.

Lemma map_quote_item_nonempty (items : list (string * string)) :
  items <> nil -> List.map quote_item items <> nil.
Proof. destruct items; [contradiction | discriminate]. Qed.

Lemma sample_items (rnd : nat -> nat) (items : list (string * string)) (left : nat) :
  items <> nil ->
  forall (k : nat) (previous : jsval),
    sample rnd (JArr (List.map quote_item items)) k (S left) previous
    = Ok (Some (quote_item (drawn rnd items (final_attempt rnd items k (S left)))),
          S (final_attempt rnd items k (S left))).
Proof.
  intros Hne. induction left as [|left IH]; intros k previous.
  - rewrite sample_step.
    rewrite (floor_random_length _ _ (map_quote_item_nonempty items Hne)). cbv zeta.
    rewrite (element_drawn rnd items k Hne), lengths_quote_item, fits_too_long.
    cbn [final_attempt]. destruct (too_long (drawn rnd items k)); reflexivity.
  - rewrite sample_step.
    rewrite (floor_random_length _ _ (map_quote_item_nonempty items Hne)). cbv zeta.
    rewrite (element_drawn rnd items k Hne), lengths_quote_item, fits_too_long.
    change (final_attempt rnd items k (S (S left)))
      with (if too_long (drawn rnd items k)
            then final_attempt rnd items (S k) (S left) else k).
    destruct (too_long (drawn rnd items k)); cbn [negb]; [apply IH | reflexivity].
Qed.

Lemma final_attempt_spec (rnd : nat -> nat) (items : list (string * string)) (left : nat) :
  forall k,
    let n := final_attempt rnd items k (S left) in
    (k <= n <= k + left)%nat /\
    (forall i, (k <= i < n)%nat -> too_long (drawn rnd items i) = true) /\
    (too_long (drawn rnd items n) = true -> n = (k + left)%nat).
Proof.
  induction left as [|left IH]; intros k; cbv zeta.
  - cbn [final_attempt]. split; [lia|]. split; [intros i Hi; lia | intros _; lia].
  - change (final_attempt rnd items k (S (S left)))
      with (if too_long (drawn rnd items k)
            then final_attempt rnd items (S k) (S left) else k).
    destruct (too_long (drawn rnd items k)) eqn:T.
    + destruct (IH (S k)) as (B & A & F). cbv zeta in *.
      split; [lia|]. split.
      * intros i Hi. destruct (Nat.eq_dec i k) as [->|Hik]; [exact T|]. apply A. lia.
      * intros H. apply F in H. lia.
    + split; [lia|]. split.
      * intros i Hi. lia.
      * intros H. rewrite T in H. discriminate H.
Qed.

Lemma drawn_In (rnd : nat -> nat) (items : list (string * string)) (k : nat) :
  items <> nil -> In (drawn rnd items k) items.
Proof.
  intros Hne. unfold drawn. apply nth_In. apply Nat.mod_upper_bound.
  destruct items; [contradiction | discriminate].
Qed.

Lemma nothing_stored_items (items : list (string * string)) :
  items <> nil -> nothing_stored (JArr (List.map quote_item items)) = false.
Proof. destruct items; [contradiction | reflexivity]. Qed.

(** What is shown for a non-empty list of well-formed quotes. *)
Lemma displayRandomQuote_items
    (rnd : nat -> nat) (items : list (string * string)) (p : page) :
  items <> nil ->
  let q := drawn rnd items (final_attempt rnd items 0 maxAttempts) in
  displayRandomQuote rnd (JArr (List.map quote_item items)) p
  = (Ok tt, requestAnimationFrame (set_texts q.1 q.2 p)).
Proof.
  intros Hne. cbv zeta. unfold displayRandomQuote. rewrite (nothing_stored_items items Hne).
  unfold maxAttempts at 1. rewrite (sample_items rnd items 14 Hne). reflexivity.
Qed.

(** X13. [displayRandomQuote] on a non-empty list of well-formed quotes
    never throws and shows one quote of the list: the one drawn at the
    first of its at most 15 attempts whose quote fits in 140 UTF-16 code
    units (text and author together), and the one drawn at the fifteenth
    attempt when none fits. So a quote longer than that is shown only
    after fifteen draws that were all too long, and when every quote of
    the list fits, the first draw is shown. One animation frame is
    requested; when it runs, the container of the author gets the width
    of the author shown plus 32 pixels. *)
Theorem displayRandomQuote_selection
    (rnd : nat -> nat) (items : list (string * string)) (p : page) :
  items <> nil ->
  let n := final_attempt rnd items 0 maxAttempts in
  let q := drawn rnd items n in
  let r := displayRandomQuote rnd (JArr (List.map quote_item items)) p in
  r = (Ok tt, requestAnimationFrame (set_texts q.1 q.2 p)) /\
  In q items /\
  (n < maxAttempts)%nat /\
  (forall k, (k < n)%nat -> too_long (drawn rnd items k) = true) /\
  (too_long q = true ->
   forall k, (k < maxAttempts)%nat -> too_long (drawn rnd items k) = true) /\
  ((forall i, In i items -> too_long i = false) -> n = 0%nat) /\
  (forall scrollWidth,
     animationFrame scrollWidth r.2
     = {| quotesContainer := q.1;
          authorName := q.2;
          authorContainer_width := number_text (Z.of_nat (scrollWidth q.2) + 32) ++ "px";
          animationFrames := animationFrames p;
          hideSearchWith := hideSearchWith p;
          motivationalQuotesCheckbox := motivationalQuotesCheckbox p;
          quotesToggle_inactive := quotesToggle_inactive p;
          motivationalQuotesCont := motivationalQuotesCont p;
          searchWithContainer := searchWithContainer p |}).
Proof.
  intros Hne. cbv zeta.
  destruct (final_attempt_spec rnd items 14 0) as (B & A & F). cbv zeta in *.
  change (S 14) with maxAttempts in *.
  rewrite (displayRandomQuote_items rnd items p Hne).
  set (n := final_attempt rnd items 0 maxAttempts) in *.
  split; [reflexivity|]. split; [apply drawn_In, Hne|].
  split; [unfold maxAttempts; lia|]. split; [intros k Hk; apply A; lia|].
  split; [|split].
  - intros T k Hk. specialize (F T).
    destruct (Nat.eq_dec k n) as [->|Hkn]; [exact T|]. apply A. unfold maxAttempts in Hk. lia.
  - intros Hall. destruct n as [|n']; [reflexivity|]. exfalso.
    assert (T : too_long (drawn rnd items 0) = true) by (apply A; lia).
    rewrite (Hall _ (drawn_In rnd items 0 Hne)) in T. discriminate T.
  - intros scrollWidth. reflexivity.
Qed.

Lemma displayRandomQuote_selection_witness :
  let items := ("Stay hungry.", "Anonymous") :: ("Keep going.", "Sam") :: nil in
  displayRandomQuote (fun k => (k + 3)%nat) (JArr (List.map quote_item items)) blank_page
  = (Ok tt, requestAnimationFrame (set_texts "Keep going." "Sam" blank_page)).
Proof.
  cbv zeta.
  exact (proj1 (displayRandomQuote_selection (fun k => (k + 3)%nat)
                  (("Stay hungry.", "Anonymous") :: ("Keep going.", "Sam") :: nil)
                  blank_page ltac:(discriminate))).
Defined.

(** The length that counts is the number of UTF-16 code units: a quote of
    133 units (139 bytes) with an author of 3 fits, and is shown at the
    first draw. *)
Example displayRandomQuote_counts_code_units :
  let text := "La vie est un mystère qu'il faut vivre, et non un problème à résoudre; "
              ++ "le bonheur n'est pas une chose faite, il découle de nos idées." in
  utf16_length text = 133%nat /\
  String.length text = 139%nat /\
  too_long (text, "Moi") = false /\
  (displayRandomQuote (fun _ => O) (JArr (quote_item (text, "Moi") :: nil)) blank_page).2
  = requestAnimationFrame (set_texts text "Moi" blank_page).
Proof. vm_compute. repeat split. Qed.

Lemma field_is_TypeError (v : jsval) (key : string) (err : error) :
  field v key = Throw err -> err = TypeError.
Proof. destruct v as [[]|]; simpl; congruence. Qed.

Lemma lengths_is_TypeError (v : jsval) (err : error) :
  lengths v = Throw err -> err = TypeError.
Proof.
  unfold lengths.
  destruct (field v "quote") as [q|e1] eqn:E1; [|intros [= <-]; eapply field_is_TypeError, E1].
  destruct (field q "length") as [ql|e2] eqn:E2; [|intros [= <-]; eapply field_is_TypeError, E2].
  destruct (field v "author") as [a|e3] eqn:E3; [|intros [= <-]; eapply field_is_TypeError, E3].
  destruct (field a "length") as [al|e4] eqn:E4; [|intros [= <-]; eapply field_is_TypeError, E4].
  discriminate.
Qed.

(** The loop throws only a [TypeError]. *)
Lemma sample_cases (rnd : nat -> nat) (quotes : json) (left : nat) :
  forall (k : nat) (previous : jsval) (err : error),
    sample rnd quotes k left previous = Throw err -> err = TypeError.
Proof.
  induction left as [|left IH]; intros k previous err; [discriminate|].
  rewrite sample_step.
  destruct (floor_random _ _) as [randomIndex|]; [|congruence]. cbv zeta.
  destruct (lengths _) as [[a b]|err0] eqn:E;
    [|intros [= <-]; eapply lengths_is_TypeError, E].
  destruct (sum_le a b MAX_QUOTE_LENGTH) as [[|]|]; [discriminate | apply IH | congruence].
Qed.

(** [displayRandomQuote] shows the hardcoded quote, or shows a quote and
    requests a frame, or throws a [TypeError] before it has written
    anything or between the two texts. *)
Lemma displayRandomQuote_cases (rnd : nat -> nat) (quotes : json) (p : page) :
  (nothing_stored quotes = true /\
   displayRandomQuote rnd quotes p = (Ok tt, displayFallbackQuote p)) \/
  (nothing_stored quotes = false /\
   exists quote author,
     displayRandomQuote rnd quotes p
     = (Ok tt, requestAnimationFrame (set_texts quote author p))) \/
  (nothing_stored quotes = false /\
   (displayRandomQuote rnd quotes p = (Throw TypeError, p) \/
    exists quote,
      displayRandomQuote rnd quotes p = (Throw TypeError, set_texts quote (authorName p) p))).
Proof.
  unfold displayRandomQuote.
  destruct (nothing_stored quotes); [left; auto|]. right.
  pose proof (sample_cases rnd quotes maxAttempts 0%nat None) as Hs.
  destruct (sample rnd quotes 0 maxAttempts None) as [[sel n]|err0].
  2:{ right. split; [reflexivity|]. left. now rewrite (Hs err0 eq_refl). }
  destruct (field sel "quote") as [quote|err1] eqn:E1.
  2:{ right. split; [reflexivity|]. left. now rewrite (field_is_TypeError _ _ _ E1). }
  destruct (text_of quote) as [quoteText|]; [|right; auto].
  destruct (field sel "author") as [author|err2] eqn:E2.
  2:{ right. split; [reflexivity|]. right. exists quoteText.
      now rewrite (field_is_TypeError _ _ _ E2). }
  destruct (text_of author) as [authorText|].
  - left. split; [reflexivity|]. exists quoteText, authorText. reflexivity.
  - right. split; [reflexivity|]. right. now exists quoteText.
Qed.

(** X14. The edges of [displayRandomQuote]. For [null], the empty list and
    every other falsy or zero-length value it shows the hardcoded quote
    and requests no frame. On any other value it either shows two texts
    and requests one frame, or throws, and then nothing but a
    [TypeError]: before it has written anything (a drawn item that is
    [null] or missing, or whose [quote] or [author] has no [length], or a
    text of the quote that has no string), or with the text of the quote
    written and the author as it was (an author that has no string).
    Nothing else of the page changes. *)
Theorem displayRandomQuote_edges (rnd : nat -> nat) (quotes : json) (p : page) :
  let r := displayRandomQuote rnd quotes p in
  (nothing_stored quotes = true -> r = (Ok tt, displayFallbackQuote p)) /\
  displayRandomQuote rnd JNull p = (Ok tt, displayFallbackQuote p) /\
  displayRandomQuote rnd (JArr nil) p = (Ok tt, displayFallbackQuote p) /\
  (nothing_stored quotes = false -> r.1 = Ok tt ->
   exists quote author, r.2 = requestAnimationFrame (set_texts quote author p)) /\
  (forall err, r.1 = Throw err ->
     err = TypeError /\
     (r.2 = p \/ exists quote, r.2 = set_texts quote (authorName p) p)) /\
  (authorContainer_width r.2 = authorContainer_width p /\
   hideSearchWith r.2 = hideSearchWith p /\
   motivationalQuotesCheckbox r.2 = motivationalQuotesCheckbox p /\
   quotesToggle_inactive r.2 = quotesToggle_inactive p /\
   motivationalQuotesCont r.2 = motivationalQuotesCont p /\
   searchWithContainer r.2 = searchWithContainer p /\
   (animationFrames r.2 = animationFrames p \/
    r.1 = Ok tt /\ nothing_stored quotes = false /\
    animationFrames r.2 = S (animationFrames p))).
Proof.
  cbv zeta.
  split; [unfold displayRandomQuote; now intros ->|]. split; [reflexivity|].
  split; [reflexivity|].
  destruct (displayRandomQuote_cases rnd quotes p)
    as [(N & ->) | [(N & q & a & ->) | (N & [-> | (q & ->)])]]; cbn [fst snd].
  - split; [congruence|]. split; [discriminate|]. repeat split; auto.
  - split; [eauto|]. split; [discriminate|]. repeat split; auto.
  - split; [discriminate|]. split; [intros err [= <-]; auto|]. repeat split; auto.
  - split; [discriminate|]. split; [intros err [= <-]; eauto|]. repeat split; auto.
Qed.

(** An author that has no string (an object with the properties [length]
    and [toString]): the text of the quote is written, then the call
    throws, with the author as it was. *)
Example displayRandomQuote_between_the_texts :
  let author := JObj (("length", JNum 1) :: ("toString", JNum 1) :: nil) in
  let quotes := JArr (JObj (("quote", JStr "Keep going.") :: ("author", author) :: nil)
                      :: nil) in
  displayRandomQuote (fun _ => O) quotes blank_page
  = (Throw TypeError, set_texts "Keep going." EmptyString blank_page).
Proof. vm_compute. reflexivity. Qed.

(** ** Loading and showing *)

Lemma final_attempt_fits (rnd : nat -> nat) (items : list (string * string)) (k left : nat) :
  too_long (drawn rnd items k) = false -> final_attempt rnd items k (S left) = k.
Proof. intros T. destruct left; cbn [final_attempt]; [reflexivity | now rewrite T]. Qed.

Lemma displayRandomQuote_fallback_list (rnd : nat -> nat) (p : page) :
  displayRandomQuote rnd (JArr (FALLBACK_QUOTE :: nil)) p
  = (Ok tt, requestAnimationFrame (displayFallbackQuote p)).
Proof.
  pose (items := ("Don't watch the clock; do what it does. Keep going.", "Sam Levenson") :: nil).
  change (JArr (FALLBACK_QUOTE :: nil)) with (JArr (List.map quote_item items)).
  rewrite (displayRandomQuote_items rnd items p) by discriminate.
  assert (D : forall k, drawn rnd items k
                        = ("Don't watch the clock; do what it does. Keep going.", "Sam Levenson")).
  { intros k. unfold drawn, items. cbn [length]. now rewrite Nat.mod_1_r. }
  unfold maxAttempts. rewrite final_attempt_fits by (now rewrite D; vm_compute).
  rewrite D. reflexivity.
Qed.

(** X15. [loadAndDisplayQuote] never throws: it leaves the state
    [getQuotesForLanguage] leaves, and of the page it changes nothing but
    the two texts, which it always sets, and the frames requested, of
    which it adds at most one. It shows the hardcoded quote, with no
    frame requested, whenever the retrieval throws, returns nothing to
    show ([null], the empty list) or returns something
    [displayRandomQuote] throws on; for the list of the hardcoded quote
    alone it shows that quote and requests a frame; and for a non-empty
    list of well-formed quotes it shows one quote of the list and
    requests a frame. *)
Theorem loadAndDisplayQuote_outcomes
    (e : env) (rnd : nat -> nat) (forceRefresh : bool) (w : state * page) :
  let r := getQuotesForLanguage e forceRefresh w.1 in
  let w' := loadAndDisplayQuote e rnd forceRefresh w in
  w'.1 = r.2 /\
  (exists quote author,
     w'.2 = set_texts quote author w.2 \/
     w'.2 = requestAnimationFrame (set_texts quote author w.2)) /\
  (forall err, r.1 = Throw err -> w'.2 = displayFallbackQuote w.2) /\
  (forall quotes,
     r.1 = Ok quotes ->
     nothing_stored quotes = true
     \/ (exists err, (displayRandomQuote rnd quotes w.2).1 = Throw err) ->
     w'.2 = displayFallbackQuote w.2) /\
  (r.1 = Ok (JArr (FALLBACK_QUOTE :: nil)) ->
   w'.2 = requestAnimationFrame (displayFallbackQuote w.2)) /\
  (forall items,
     items <> nil -> r.1 = Ok (JArr (List.map quote_item items)) ->
     exists q, In q items /\ w'.2 = requestAnimationFrame (set_texts q.1 q.2 w.2)).
Proof.
  cbv zeta. destruct w as [s p]. unfold loadAndDisplayQuote. cbn [fst snd].
  destruct (getQuotesForLanguage e forceRefresh s) as [[quotes|err] s']; cbn [fst snd].
  2:{ split; [reflexivity|]. split; [do 2 eexists; left; reflexivity|].
      split; [reflexivity|]. split; [discriminate|]. split; discriminate. }
  split.
  { destruct (displayRandomQuote rnd quotes p) as [[[]|?] ?]; reflexivity. }
  split.
  { destruct (displayRandomQuote_cases rnd quotes p)
      as [(N & ->) | [(N & q & a & ->) | (N & [-> | (q & ->)])]];
      do 2 eexists; first [left; reflexivity | right; reflexivity]. }
  split; [discriminate|]. split; [|split].
  - intros quotes' [= <-] [H | [err H]].
    + unfold displayRandomQuote. now rewrite H.
    + destruct (displayRandomQuote_cases rnd quotes p)
        as [(N & E) | [(N & q & a & E) | (N & [E | (q & E)])]];
        rewrite E in H |- *; try discriminate H; reflexivity.
  - intros [= ->]. now rewrite displayRandomQuote_fallback_list.
  - intros items Hne [= ->]. rewrite (displayRandomQuote_items rnd items p Hne).
    eexists. split; [|reflexivity]. apply drawn_In, Hne.
Qed.

(** ** The switches *)

Lemma loadAndDisplayQuote_frame
    (e : env) (rnd : nat -> nat) (forceRefresh : bool) (w : state * page) :
  let w' := loadAndDisplayQuote e rnd forceRefresh w in
  w'.1 = (getQuotesForLanguage e forceRefresh w.1).2 /\
  exists quote author,
    w'.2 = set_texts quote author w.2 \/
    w'.2 = requestAnimationFrame (set_texts quote author w.2).
Proof.
  cbv zeta. destruct w as [s p]. unfold loadAndDisplayQuote. cbn [fst snd].
  destruct (getQuotesForLanguage e forceRefresh s) as [[quotes|err] s']; cbn [fst snd].
  2:{ split; [reflexivity|]. do 2 eexists. left. reflexivity. }
  destruct (displayRandomQuote_cases rnd quotes p)
    as [(N & ->) | [(N & q & a & ->) | (N & [-> | (q & ->)])]];
    (split; [reflexivity|]); do 2 eexists;
    first [left; reflexivity | right; reflexivity].
Qed.

(** X16. With one of the two switches off, [updateMotivationalQuotesState]
    issues no request and leaves the recorded language alone; it deletes
    every key that starts with [quotes_], empties the two texts and hides
    the container of the quotes, so that the next staleness check of an
    online caller asks for a refresh, whatever the language. *)
Theorem updateMotivationalQuotesState_off
    (e : env) (rnd : nat -> nat) (w : state * page) :
  hideSearchWith w.2 = false \/ motivationalQuotesCheckbox w.2 = false ->
  let w' := updateMotivationalQuotesState e rnd w in
  requests w'.1 = requests w.1 /\
  lastKnownLanguage w'.1 = lastKnownLanguage w.1 /\
  (forall key, startsWith "quotes_" key = true -> localStorage w'.1 !! key = None) /\
  quotesContainer w'.2 = EmptyString /\ authorName w'.2 = EmptyString /\
  motivationalQuotesCont w'.2 = "none" /\
  (forall e' lang, needsDataFetch e' w'.1 lang = onLine e').
Proof.
  intros H. cbv zeta. destruct w as [s p]. cbn [fst snd] in *.
  assert (E : exists p1,
             updateMotivationalQuotesState e rnd (s, p)
             = clearQuotes (set_store (<["motivationalQuotesVisible"
                                          := bool_text (motivationalQuotesCheckbox p)]>
                                         (localStorage s)) s, p1)
             /\ motivationalQuotesCont p1 = "none").
  { unfold updateMotivationalQuotesState. cbn [fst snd].
    destruct (hideSearchWith p); cbn [negb].
    - destruct H as [H|H]; [discriminate H|]. rewrite H. eexists. split; reflexivity.
    - eexists. split; reflexivity. }
  destruct E as (p1 & -> & Hnone).
  unfold clearQuotes. cbn [fst snd set_store localStorage lastKnownLanguage requests
                             quotesContainer authorName motivationalQuotesCont set_texts].
  split; [reflexivity|]. split; [reflexivity|]. split.
  { intros key Hk. now rewrite clearQuotesStorage_lookup, Hk. }
  split; [reflexivity|]. split; [reflexivity|]. split; [exact Hnone|].
  intros e' lang. apply (needsDataFetch_missing e' _ lang (quotes_key lang)); [left; reflexivity|].
  unfold item_falsy. cbn [localStorage set_store fst]. rewrite clearQuotesStorage_lookup.
  now rewrite (keys_of_startsWith lang) by (left; reflexivity).
Qed.

Lemma updateMotivationalQuotesState_off_witness :
  let e := host "fr" true new_year bulk_only in
  let s := initial (french_cache "[]" "150") (Some "fr") in
  let w' := updateMotivationalQuotesState e (fun _ => 0%nat) (s, blank_page) in
  requests w'.1 = nil /\ localStorage w'.1 !! quotes_key "fr" = None.
Proof.
  cbv zeta.
  pose proof (updateMotivationalQuotesState_off (host "fr" true new_year bulk_only)
                (fun _ => 0%nat) (initial (french_cache "[]" "150") (Some "fr"), blank_page)
                (or_introl eq_refl)) as (H1 & _ & H2 & _).
  split; [exact H1 | apply H2; reflexivity].
Defined.

Lemma is_not_false_text_bool (b : bool) : is_not_false_text (Some (bool_text b)) = b.
Proof. now destruct b. Qed.

Lemma updateMotivationalQuotesState_page
    (e : env) (rnd : nat -> nat) (w : state * page) :
  exists quote author inactive motivational search,
    (updateMotivationalQuotesState e rnd w).2
    = set_texts quote author (set_layout inactive motivational search w.2) \/
    (updateMotivationalQuotesState e rnd w).2
    = requestAnimationFrame
        (set_texts quote author (set_layout inactive motivational search w.2)).
Proof.
  destruct w as [s p]. unfold updateMotivationalQuotesState. cbn [fst snd].
  destruct (negb (hideSearchWith p)); [do 5 eexists; left; reflexivity|].
  destruct (motivationalQuotesCheckbox p); [|do 5 eexists; left; reflexivity].
  match goal with
  | |- context [loadAndDisplayQuote e rnd false ?w0] =>
      destruct (loadAndDisplayQuote_frame e rnd false w0) as (_ & q & a & [-> | ->])
  end;
    do 5 eexists; first [left; reflexivity | right; reflexivity].
Qed.

Lemma updateMotivationalQuotesState_checkboxes
    (e : env) (rnd : nat -> nat) (w : state * page) :
  let w' := updateMotivationalQuotesState e rnd w in
  hideSearchWith w'.2 = hideSearchWith w.2 /\
  motivationalQuotesCheckbox w'.2 = motivationalQuotesCheckbox w.2.
Proof.
  cbv zeta.
  destruct (updateMotivationalQuotesState_page e rnd w)
    as (q & a & i & m & sw & [-> | ->]);
    split; reflexivity.
Qed.

(** Outside the namespace of the cache the store changes by the flag
    only. *)
Lemma updateMotivationalQuotesState_store
    (e : env) (rnd : nat -> nat) (w : state * page) (key : string) :
  startsWith "quotes_" key = false ->
  localStorage (updateMotivationalQuotesState e rnd w).1 !! key
  = <["motivationalQuotesVisible" := bool_text (motivationalQuotesCheckbox w.2)]>
      (localStorage w.1) !! key.
Proof.
  intros Hk. destruct w as [s p]. unfold updateMotivationalQuotesState. cbn [fst snd].
  assert (Q : forall p1,
             localStorage
               (clearQuotes (set_store (<["motivationalQuotesVisible"
                                          := bool_text (motivationalQuotesCheckbox p)]>
                                         (localStorage s)) s, p1)).1 !! key
             = <["motivationalQuotesVisible" := bool_text (motivationalQuotesCheckbox p)]>
                 (localStorage s) !! key).
  { intros p1. unfold clearQuotes. cbn [fst localStorage set_store].
    now rewrite clearQuotesStorage_lookup, Hk. }
  destruct (hideSearchWith p); cbn [negb]; [|apply Q].
  destruct (motivationalQuotesCheckbox p) eqn:Hm; [|apply Q].
  match goal with
  | |- context [loadAndDisplayQuote e rnd false ?w0] =>
      destruct (loadAndDisplayQuote_frame e rnd false w0) as (-> & _)
  end.
  cbn [fst]. rewrite (ww_getQuotesForLanguage e false) by (rewrite Hk; discriminate).
  reflexivity.
Qed.

(** The listener of [DOMContentLoaded] sets the quotes checkbox from the
    flag [updateMotivationalQuotesState] stored. *)
Lemma flag_restored
    (e e' : env) (rnd rnd' : nat -> nat) (w : state * page) (s' : state) (p' : page) :
  localStorage s' = localStorage (updateMotivationalQuotesState e rnd w).1 ->
  motivationalQuotesCheckbox (onDOMContentLoaded e' rnd' (s', p')).2
  = motivationalQuotesCheckbox w.2.
Proof.
  intros Hs.
  destruct (updateMotivationalQuotesState_checkboxes e' rnd'
              ({| localStorage := localStorage s';
                  lastKnownLanguage := Some (currentLanguage e');
                  requests := requests s' |},
               set_checked (is_true_text (localStorage s' !! "showShortcutSwitch"))
                 (is_not_false_text (localStorage s' !! "motivationalQuotesVisible")) p'))
    as [_ D].
  unfold onDOMContentLoaded. cbn [fst snd] in *. rewrite D.
  cbn [set_checked motivationalQuotesCheckbox]. rewrite Hs.
  rewrite (updateMotivationalQuotesState_store e rnd w) by reflexivity.
  rewrite lookup_insert_eq. apply is_not_false_text_bool.
Qed.

(** X17. The setting survives a reload. [updateMotivationalQuotesState]
    leaves the two checkboxes as they are and stores the state of the
    quotes checkbox under [motivationalQuotesVisible], whichever branch it
    takes, a fetch included; apart from that key it changes no key outside
    the [quotes_] namespace. So once the user has set the quotes checkbox,
    the listener of [DOMContentLoaded], run later on the store that was
    left, in whatever environment, sets the checkbox to the same state. *)
Theorem motivationalQuotesVisible_round_trip
    (e e' : env) (rnd rnd' : nat -> nat) (w : state * page) :
  let w1 := updateMotivationalQuotesState e rnd w in
  hideSearchWith w1.2 = hideSearchWith w.2 /\
  motivationalQuotesCheckbox w1.2 = motivationalQuotesCheckbox w.2 /\
  localStorage w1.1 !! "motivationalQuotesVisible"
  = Some (bool_text (motivationalQuotesCheckbox w.2)) /\
  (forall key, startsWith "quotes_" key = false -> key <> "motivationalQuotesVisible" ->
               localStorage w1.1 !! key = localStorage w.1 !! key) /\
  (forall checked s' p',
     localStorage s' = localStorage (onMotivationalQuotesChange e rnd checked w).1 ->
     motivationalQuotesCheckbox (onDOMContentLoaded e' rnd' (s', p')).2 = checked).
Proof.
  cbv zeta.
  destruct (updateMotivationalQuotesState_checkboxes e rnd w) as [C1 C2].
  split; [exact C1|]. split; [exact C2|].
  pose proof (updateMotivationalQuotesState_store e rnd w) as F.
  split; [rewrite F by reflexivity; apply lookup_insert_eq|]. split.
  - intros key Hk Hne. rewrite F by exact Hk. now apply lookup_insert_ne.
  - intros checked s' p' Hs. unfold onMotivationalQuotesChange in Hs.
    now rewrite (flag_restored e e' rnd rnd' _ s' p' Hs).
Qed.

(** X18. Switching off. When the user unchecks the shortcut switch or the
    quotes checkbox, the listener issues no request, deletes every key
    that starts with [quotes_], empties the two texts and hides the
    container of the quotes; the container of the search engines is
    shown, in the second case provided the shortcut switch is on. *)
Theorem switching_off (e : env) (rnd : nat -> nat) (w : state * page) :
  let w1 := onHideSearchWithChange e rnd false w in
  let w2 := onMotivationalQuotesChange e rnd false w in
  (requests w1.1 = requests w.1 /\
   (forall key, startsWith "quotes_" key = true -> localStorage w1.1 !! key = None) /\
   quotesContainer w1.2 = EmptyString /\ authorName w1.2 = EmptyString /\
   quotesToggle_inactive w1.2 = true /\
   motivationalQuotesCont w1.2 = "none" /\ searchWithContainer w1.2 = "flex") /\
  (requests w2.1 = requests w.1 /\
   (forall key, startsWith "quotes_" key = true -> localStorage w2.1 !! key = None) /\
   quotesContainer w2.2 = EmptyString /\ authorName w2.2 = EmptyString /\
   motivationalQuotesCont w2.2 = "none" /\
   (hideSearchWith w.2 = true ->
    quotesToggle_inactive w2.2 = false /\ searchWithContainer w2.2 = "flex")).
Proof.
  cbv zeta. destruct w as [s p].
  unfold onHideSearchWithChange, onMotivationalQuotesChange, updateMotivationalQuotesState.
  cbn [fst snd set_checked set_layout hideSearchWith motivationalQuotesCheckbox negb].
  split.
  - unfold clearQuotes. cbn. repeat split.
    intros key Hk. now rewrite clearQuotesStorage_lookup, Hk.
  - destruct (hideSearchWith p); cbn [negb]; unfold clearQuotes; cbn; repeat split;
      try discriminate;
      intros key Hk; now rewrite clearQuotesStorage_lookup, Hk.
Qed.

(** X19. The page as it loads. Unless the store holds ["true"] under
    [showShortcutSwitch] and something other than ["false"] (or nothing)
    under [motivationalQuotesVisible], the listener of [DOMContentLoaded]
    issues no request, deletes every key that starts with [quotes_] and
    shows no quote; in every case it records the current language and
    stores the state of the quotes checkbox. *)
Theorem onDOMContentLoaded_off (e : env) (rnd : nat -> nat) (w : state * page) :
  let w' := onDOMContentLoaded e rnd w in
  (localStorage w.1 !! "showShortcutSwitch" <> Some "true"
   \/ localStorage w.1 !! "motivationalQuotesVisible" = Some "false" ->
   requests w'.1 = requests w.1 /\
   (forall key, startsWith "quotes_" key = true -> localStorage w'.1 !! key = None) /\
   quotesContainer w'.2 = EmptyString /\ authorName w'.2 = EmptyString) /\
  lastKnownLanguage w'.1 = Some (currentLanguage e) /\
  localStorage w'.1 !! "motivationalQuotesVisible"
  = Some (bool_text (is_not_false_text (localStorage w.1 !! "motivationalQuotesVisible"))).
Proof.
  cbv zeta. destruct w as [s p]. unfold onDOMContentLoaded. cbn [fst snd].
  set (s1 := {| localStorage := localStorage s; lastKnownLanguage := _; requests := _ |}).
  set (p1 := set_checked _ _ p).
  split; [|split].
  - intros H.
    assert (Hoff : hideSearchWith (s1, p1).2 = false
                   \/ motivationalQuotesCheckbox (s1, p1).2 = false).
    { cbn [snd p1 set_checked hideSearchWith motivationalQuotesCheckbox].
      destruct H as [H | ->]; [left | right; reflexivity].
      unfold is_true_text. destruct (localStorage s !! "showShortcutSwitch") as [t|];
        [|reflexivity].
      destruct (String.eqb_spec t "true") as [->|]; [contradiction | reflexivity]. }
    unfold updateMotivationalQuotesState. cbn [fst snd].
    assert (Q : forall st0 p2,
               let w' := clearQuotes (set_store st0 s1, p2) in
               requests w'.1 = requests s /\
               (forall key, startsWith "quotes_" key = true ->
                            localStorage w'.1 !! key = None) /\
               quotesContainer w'.2 = EmptyString /\ authorName w'.2 = EmptyString).
    { intros st0 p2. cbv zeta. unfold clearQuotes.
      cbn [fst snd set_store localStorage requests s1 set_texts quotesContainer authorName].
      split; [reflexivity|]. split; [|split; reflexivity].
      intros key Hk. now rewrite clearQuotesStorage_lookup, Hk. }
    cbn [snd] in Hoff. destruct (hideSearchWith p1); cbn [negb]; [|apply Q].
    destruct Hoff as [Hoff | Hoff]; [discriminate Hoff|]. rewrite Hoff. apply Q.
  - unfold updateMotivationalQuotesState. cbn [fst snd].
    destruct (negb (hideSearchWith p1)); [reflexivity|].
    destruct (motivationalQuotesCheckbox p1); [|reflexivity].
    match goal with
    | |- context [loadAndDisplayQuote e rnd false ?w0] =>
        destruct (loadAndDisplayQuote_frame e rnd false w0) as (-> & _)
    end.
    cbn [fst]. rewrite getQuotesForLanguage_after_record.
    match goal with
    | |- lastKnownLanguage (try_catch ?m ?h ?s0).2 = _ =>
        assert (St : steady (try_catch m h))
    end.
    { apply steady_try_catch; [|intros; apply steady_outerHandler].
      apply steady_bind;
        [apply (steady_pure (fun s => false || needsDataFetch e s (currentLanguage e)))|].
      intros [|]; [apply steady_fetchBranch | apply steady_cacheBranch]. }
    match goal with
    | |- lastKnownLanguage (?m ?s0).2 = _ => destruct (St s0) as [-> _]
    end.
    reflexivity.
  - rewrite (updateMotivationalQuotesState_store e rnd (s1, p1)) by reflexivity.
    cbn [snd p1 set_checked motivationalQuotesCheckbox]. apply lookup_insert_eq.
Qed.

(** ** The English fallback and the stale cache *)

(** X20. A language without quotes is served with the English ones.
    Without a forced refresh, when the staleness check for the current
    language (asked with that language recorded) says no, the language is
    not English, its stored count is 0 and the text stored for the English
    quotes reads as a non-empty list, the call returns the English list,
    issues no request and leaves the store as it is. *)
Theorem english_served_from_cache
    (e : env) (s : state) (text : string) (first : json) (others : list json) :
  let s1 := {| localStorage := localStorage s;
               lastKnownLanguage := Some (currentLanguage e);
               requests := requests s |} in
  needsDataFetch e s1 (currentLanguage e) = false ->
  currentLanguage e <> "en" ->
  storedCount (localStorage s) (currentLanguage e) = 0 ->
  localStorage s !! quotes_key "en" = Some text ->
  JSON_parse text = Some (JArr (first :: others)) ->
  getQuotesForLanguage e false s = (Ok (JArr (first :: others)), s1).
Proof.
  cbv zeta. intros Hfresh Hcur Hcount Htext Hparse.
  rewrite getQuotesForLanguage_after_record.
  set (s1 := {| localStorage := localStorage s; lastKnownLanguage := _; requests := _ |}) in *.
  apply try_ok. erewrite bind_ok by (cbn [orb]; rewrite Hfresh; reflexivity).
  unfold cacheBranch. erewrite bind_ok by reflexivity.
  cbn [localStorage s1]. rewrite Hcount.
  destruct (String.eqb_spec (currentLanguage e) "en"); [contradiction|]. cbn [Z.eqb negb andb].
  unfold englishFallback. erewrite bind_ok.
  2:{ apply (getStoredQuotes_parsed _ text (JArr (first :: others))); [exact Htext| |exact Hparse].
      intros ->. discriminate Hparse. }
  reflexivity.
Qed.

Lemma english_served_from_cache_witness :
  let e := host "de" true (new_year + HOUR) unreachable in
  let s := initial german_without_quotes (Some "de") in
  getQuotesForLanguage e false s = (Ok (sample_quotes "Stay hungry."), s).
Proof.
  cbv zeta.
  apply (english_served_from_cache
           (host "de" true (new_year + HOUR) unreachable)
           (initial german_without_quotes (Some "de"))
           (JSON_stringify (sample_quotes "Stay hungry.")));
    first [ discriminate | vm_compute; reflexivity ].
Defined.

(** X21. The stale cache is the net under a failed refresh. On a network
    that rejects every request, whether the call refreshes or not, when
    the text stored for the quotes of the current language reads as a
    non-empty list and the stored count is not 0 (or the language is
    English), the call returns the stored list and leaves the store as it
    is; a refresh that was tried has cost four requests, the metadata
    and the three providers. *)
Theorem stored_quotes_survive_failed_refresh
    (e : env) (forceRefresh : bool) (s : state)
    (text : string) (first : json) (others : list json) :
  (forall n address, net e n address = Rejected) ->
  storedCount (localStorage s) (currentLanguage e) <> 0 \/ currentLanguage e = "en" ->
  localStorage s !! quotes_key (currentLanguage e) = Some text ->
  JSON_parse text = Some (JArr (first :: others)) ->
  let s1 := {| localStorage := localStorage s;
               lastKnownLanguage := Some (currentLanguage e);
               requests := requests s |} in
  let r := getQuotesForLanguage e forceRefresh s in
  r.1 = Ok (JArr (first :: others)) /\
  localStorage r.2 = localStorage s /\
  (length (requests r.2)
   = if forceRefresh || needsDataFetch e s1 (currentLanguage e)
     then (length (requests s) + 4)%nat else length (requests s)).
Proof.
  intros Hnet Hcount Htext Hparse. cbv zeta.
  assert (Hne : text <> EmptyString) by (intros ->; discriminate Hparse).
  destruct (forceRefresh || needsDataFetch e _ (currentLanguage e)) eqn:Hfetch.
  2:{ apply orb_false_elim in Hfetch as [-> Hfresh].
      rewrite (served_from_cache e s text first others Hfresh Hcount Htext Hparse).
      cbn [fst snd localStorage requests]. auto. }
  set (s1 := {| localStorage := localStorage s; lastKnownLanguage := _; requests := _ |}) in *.
  assert (R : getQuotesForLanguage e forceRefresh s
              = (Ok (JArr (first :: others)),
                 let s2 := logged_request programmingUrl
                             (logged_request vercelUrl (logged_request metadataUrl s1)) in
                 logged_request (dummyjsonUrl ++ "/" ++ dec_of_Z (drawn_id e s2)) s2)).
  { rewrite getQuotesForLanguage_after_record. fold s1.
    unfold try_catch at 1. erewrite bind_ok by (rewrite Hfetch; reflexivity).
    unfold fetchBranch. unfold try_catch at 1.
    unfold bulkFetch. erewrite bind_throw by (apply fetchMetadata_unreachable, Hnet).
    unfold alternativeForCurrent. unfold try_catch at 1.
    erewrite bind_throw by (apply fetchAlternativeQuote_unreachable, Hnet).
    cbn [throw]. unfold outerHandler.
    erewrite bind_ok.
    2:{ apply (getStoredQuotes_parsed _ text (JArr (first :: others)));
          [exact Htext | exact Hne | exact Hparse]. }
    cbn [truthy]. erewrite bind_ok by reflexivity. reflexivity. }
  rewrite R. cbn [fst snd]. split; [reflexivity|]. split; [reflexivity|].
  cbn [logged_request requests s1]. rewrite !length_app. cbn [length]. lia.
Qed.

Lemma stored_quotes_survive_failed_refresh_witness :
  let e := host "fr" true (new_year + 30 * ONE_DAY) unreachable in
  let s := initial (french_cache (JSON_stringify (sample_quotes "Bonjour")) "150") (Some "fr") in
  let r := getQuotesForLanguage e false s in
  r.1 = Ok (sample_quotes "Bonjour") /\
  localStorage r.2 = localStorage s /\
  length (requests r.2) = 4%nat.
Proof.
  cbv zeta.
  apply (stored_quotes_survive_failed_refresh
           (host "fr" true (new_year + 30 * ONE_DAY) unreachable) false
           (initial (french_cache (JSON_stringify (sample_quotes "Bonjour")) "150") (Some "fr"))
           (JSON_stringify (sample_quotes "Bonjour"))).
  - reflexivity.
  - left. vm_compute. discriminate.
  - vm_compute. reflexivity.
  - vm_compute. reflexivity.
Defined.

(** ** Timestamps that cannot age *)

(** X22. An entry whose timestamp cannot be read as a date, or lies at or
    after the current instant, never counts as stale: with the three keys
    of the language filled and the language unchanged, the staleness check
    says no, whatever the stored count. *)
Theorem needsDataFetch_unreadable_timestamp (e : env) (s : state) (lang : string) :
  languageChanged e s = false ->
  present (localStorage s) (quotes_key lang) ->
  present (localStorage s) (timestamp_key lang) ->
  present (localStorage s) (count_key lang) ->
  match Date_parse e (item_text (localStorage s) (timestamp_key lang)) with
  | None => True
  | Some t => Date_now e <= t
  end ->
  needsDataFetch e s lang = false.
Proof.
  intros Hlang Hq Ht Hc Hdate.
  destruct (onLine e) eqn:Hon; [|now apply needsDataFetch_offline].
  rewrite needsDataFetch_reached by assumption.
  destruct (Date_parse e _) as [t|]; [|reflexivity].
  cbn [fmap option_fmap option_map num_gt]. apply Z.ltb_ge.
  unfold threshold_hours, HOUR.
  destruct (_ =? 0); [lia|]. destruct (_ <? 100); lia.
Qed.

Lemma needsDataFetch_unreadable_timestamp_witness :
  let st := <[timestamp_key "fr" := "yesterday"]> (french_cache "[]" "150") in
  needsDataFetch (host "fr" true (new_year + 30 * ONE_DAY) unreachable)
    (initial st (Some "fr")) "fr" = false.
Proof.
  cbv zeta.
  apply (needsDataFetch_unreadable_timestamp
           (host "fr" true (new_year + 30 * ONE_DAY) unreachable)
           (initial (<[timestamp_key "fr" := "yesterday"]> (french_cache "[]" "150"))
                    (Some "fr")) "fr").
  - reflexivity.
  - exists "[]". split; [reflexivity | discriminate].
  - exists "yesterday". split; [reflexivity | discriminate].
  - exists "150". split; [reflexivity | discriminate].
  - vm_compute. exact I.
Defined.
